(** * Pre-selection of 2-prong and 3-prong heavy-flavour candidates

    A shallow embedding of the candidate selection and of the combinatorial
    loops of [PWGHF/TableProducer/HFTrackIndexSkimsCreator.cxx]
    (struct [HfTrackIndexSkimsCreator] and the single-track helper of
    [HfTagSelTracks]), with the properties of the selection bitmask, of
    the mass window, of the pT-bin lookup and of the table rows it fills.

    Conventions of the embedding:
    - a C++ [double]/[float] is a rational [Q]; comparisons are the exact
      ones, [pow(x, 2)] is [x ^ 2];
    - a C++ [int] is a [Z]; the bitmaps only ever hold values between 0 and
      [BIT(n) - 1], far from any wrap-around;
    - arrays and [std::vector]s are lists, read with [!!!] and written with
      [<[i:=x]>] / [alter];
    - parameters taken by reference ([cutStatus], [whichHypo], [isSelected])
      and function-local [static] vectors are threaded as explicit state;
    - the external helpers ([RecoDecay], the DCA fitter) are interfaces. *)

From Stdlib Require Import ZArith QArith Qabs Bool Lia Lqa.
From stdpp Require Import base list strings.

Local Open Scope Z_scope.

(* ===================================================================== *)
(** ** Scalars and bit macros *)
(* ===================================================================== *)

#[global] Instance Q_inhabited : Inhabited Q := populate 0%Q.

(** [x < y], [x >= y], [x > y] on doubles. *)
Definition ltb (x y : Q) : bool :=
  match (x ?= y)%Q with Lt => true | _ => false end.
Definition geb (x y : Q) : bool :=
  match (x ?= y)%Q with Lt => false | _ => true end.
Definition gtb (x y : Q) : bool :=
  match (x ?= y)%Q with Gt => true | _ => false end.

(** ROOT's [BIT(n)], [TESTBIT(n, i)] and [CLRBIT(n, i)]:
    [1 << n], [(n & BIT(i)) != 0] and [n &= ~BIT(i)]. *)
Definition BIT (n : Z) : Z := Z.shiftl 1 n.
Definition TESTBIT (n i : Z) : bool := negb (Z.land n (BIT i) =? 0).
Definition CLRBIT (n i : Z) : Z := Z.land n (Z.lnot (BIT i)).

(** enum CandidateType *)
Definition Cand2Prong : Z := 0.
Definition Cand3Prong : Z := 1.
Definition CandV0bachelor : Z := 2.

(* ===================================================================== *)
(** ** Cut tables and pT bins *)
(* ===================================================================== *)

(** [LabeledArray<double>]: the column map from a cut name to its column
    and the values, one row per pT bin.  The class itself belongs to the
    framework; [colmap_find a name] is [a.colmap.find(name)->second] and
    [get a y x] is [a.get(y, x)].  Both are only meaningful for a
    registered name and an index in range (the source dereferences
    unchecked there); the embedding answers column 0 and value 0
    otherwise. *)
Record LabeledArray := {
  colmap : list (string * nat);
  values : list (list Q)
}.

#[global] Instance LabeledArray_inhabited : Inhabited LabeledArray :=
  populate {| colmap := []; values := [] |}.

Fixpoint colmap_lookup (m : list (string * nat)) (name : string) : option nat :=
  match m with
  | [] => None
  | (k, c) :: m' => if String.eqb k name then Some c else colmap_lookup m' name
  end.

Definition colmap_find (a : LabeledArray) (name : string) : nat :=
  default 0%nat (colmap_lookup (colmap a) name).

Definition get (a : LabeledArray) (y : Z) (x : nat) : Q :=
  (values a !!! Z.to_nat y) !!! x.

Definition get_label (a : LabeledArray) (y : Z) (name : string) : Q :=
  get a y (colmap_find a name).

(** Modelled from the spec: [findBin], the pT-bin lookup of the
    selector-cuts header [PWGHF/Core/HFSelectorCuts.h], whose code is not
    among the sources modelled here.  Given the bin edges and a pT value it
    returns the zero-based index [i] with [edges[i] <= pT < edges[i+1]], or
    the sentinel [-1] when there is none.  [findBin_from i] is the scan from
    a bin numbered [i]. *)
Fixpoint findBin_from (i : Z) (edges : list Q) (pT : Q) : Z :=
  match edges with
  | lo :: ((hi :: _) as rest) =>
      if geb pT lo && ltb pT hi then i else findBin_from (i + 1) rest pT
  | _ => -1
  end.

(** Modelled from the spec: [findBin edges pT], the scan from bin 0. *)
Definition findBin (edges : list Q) (pT : Q) : Z := findBin_from 0 edges pT.

(** Edges strictly increasing. *)
Fixpoint increasing (edges : list Q) : Prop :=
  match edges with
  | lo :: ((hi :: _) as rest) => (lo < hi)%Q /\ increasing rest
  | _ => True
  end.

(* ===================================================================== *)
(** ** External kinematics *)
(* ===================================================================== *)

Definition array3 : Type := Q * Q * Q.

(** The [RecoDecay] helpers used by the selections.  They involve square
    roots and are kept as an interface:
    [Pt] of the sum of the given momenta, the squared invariant mass [M2] of
    momenta under a mass assignment, the cosine of the pointing angle
    [CPA primVtx secVtx pVec] and the [distance] between two points. *)
Class RecoDecay := {
  Pt : list array3 -> Q;
  M2 : list array3 -> list Q -> Q;
  CPA : array3 -> array3 -> array3 -> Q;
  distance : array3 -> array3 -> Q
}.

(** [RecoDecay::PVec]: sum of 3-momenta. *)
Definition add3 (a b : array3) : array3 :=
  let '(ax, ay, az) := a in
  let '(bx, by_, bz) := b in
  (ax + bx, ay + by_, az + bz)%Q.

Definition PVec (l : list array3) : array3 :=
  match l with
  | [] => (0, 0, 0)%Q
  | a :: l' => fold_left add3 l' a
  end.

(** A row of the joined track table, with the columns the task reads. *)
Record Track := {
  globalIndex : Z;
  signed1Pt : Q;
  isSelProng : Z;
  pxProng : Q;
  pyProng : Q;
  pzProng : Q;
  dcaXY : Q
}.

Definition momentum (t : Track) : array3 := (pxProng t, pyProng t, pzProng t).

(* ===================================================================== *)
(** ** HfTagSelTracks::isSelectedTrack *)
(* ===================================================================== *)

Definition isSelectedTrack (pTBinsTrack : list Q)
    (cutsSingleTrack : list LabeledArray)
    (hfTrack_pt : Q) (dca : Q * Q) (candType : nat) : bool :=
  let pTBinTrack := findBin pTBinsTrack hfTrack_pt in
  if pTBinTrack =? -1 then false
  else if ltb (Qabs (fst dca))
            (get_label (cutsSingleTrack !!! candType) pTBinTrack "min_dcaxytoprimary")
  then false
  else if gtb (Qabs (fst dca))
            (get_label (cutsSingleTrack !!! candType) pTBinTrack "max_dcaxytoprimary")
  then false
  else true.

(* ===================================================================== *)
(** ** HfTrackIndexSkimsCreator: configuration and selection state *)
(* ===================================================================== *)

(** [N2ProngDecays] and [N3ProngDecays] of the decay-type enums: the three
    2-prong decays (D0 -> pi K, J/psi -> e e, J/psi -> mu mu) and the four
    3-prong decays (D+, Lc, Ds, Xic) that [init] fills in and that the
    cut-status tables have columns for. *)
Definition n2ProngDecays : nat := 3.
Definition n3ProngDecays : nat := 4.
Definition nCuts2Prong : nat := 4.
Definition nCuts3Prong : nat := 4.

(** The configurables ([pTTolerance] is 0.1 GeV/c unless configured) and
    the arrays filled by [init]. *)
Record Config := {
  debug : bool;
  do3prong : Z;
  pTTolerance : Q;
  arrMass2Prong : list (list (list Q));
  arrMass3Prong : list (list (list Q));
  cut2Prong : list LabeledArray;
  pTBins2Prong : list (list Q);
  cut3Prong : list LabeledArray;
  pTBins3Prong : list (list Q)
}.

(** The selections of a candidate: the pT-bin lookup, then the cuts on the
    invariant mass, on the product of impact parameters, on the cosine of
    the pointing angle and on the decay length. *)
Inductive Stage := StagePt | StageMass | StageD0D0 | StageCosp | StageDecL.

#[global] Instance Stage_eq_dec : EqDecision Stage.
Proof. solve_decision. Defined.

(** What a selection function reads and writes through its reference
    parameters: the cut-status matrix, the mass-hypothesis array and the
    selection bitmap.  [evaluated] is a ghost record of the cut blocks that
    were entered, as (decay, stage), oldest first; no code reads it. *)
Record CandState := {
  cutStatus : list (list bool);
  whichHypo : list Z;
  isSelected : Z;
  evaluated : list (nat * Stage)
}.

Definition clrbit_isSelected (i : nat) (st : CandState) : CandState :=
  {| cutStatus := cutStatus st; whichHypo := whichHypo st;
     isSelected := CLRBIT (isSelected st) (Z.of_nat i);
     evaluated := evaluated st |}.

(** [cutStatus[i][c] = false] *)
Definition clear_cutStatus (i c : nat) (st : CandState) : CandState :=
  {| cutStatus := alter (fun row => <[c:=false]> row) i (cutStatus st);
     whichHypo := whichHypo st; isSelected := isSelected st;
     evaluated := evaluated st |}.

Definition set_whichHypo (i : nat) (w : Z) (st : CandState) : CandState :=
  {| cutStatus := cutStatus st; whichHypo := <[i:=w]> (whichHypo st);
     isSelected := isSelected st; evaluated := evaluated st |}.

Definition enter (i : nat) (s : Stage) (st : CandState) : CandState :=
  {| cutStatus := cutStatus st; whichHypo := whichHypo st;
     isSelected := isSelected st; evaluated := evaluated st ++ [(i, s)] |}.

(** The rejection that every failing cut performs:
    [CLRBIT(isSelected, i); if (debug) { cutStatus[i][c] = false; }] *)
Definition reject (dbg : bool) (i c : nat) (st : CandState) : CandState :=
  let st := clrbit_isSelected i st in
  if dbg then clear_cutStatus i c st else st.

(** [std::vector::resize] on a vector of [int]. *)
Definition resize (n : nat) (v : list nat) : list nat :=
  take n v ++ replicate (n - length v) 0%nat.

(** The loop of the [cacheIndices] lambdas for one column name:
    [for (i = 0; i < cuts.size(); ++i) v[i] = cuts[i].colmap.find(name)->second] *)
Definition cacheColumn (cuts : list LabeledArray) (name : string)
    (v : list nat) : list nat :=
  fold_left (fun v i => <[i := colmap_find (cuts !!! i) name]> v)
            (seq 0 (length cuts)) (resize (length cuts) v).

(** The function-local [static] index vectors of the four selection
    functions.  They live across calls; every call that uses them first
    recomputes them with [cacheIndices]. *)
Record Statics := {
  pre2_massMinIndex : list nat;
  pre2_massMaxIndex : list nat;
  pre2_d0d0Index : list nat;
  pre3_massMinIndex : list nat;
  pre3_massMaxIndex : list nat;
  sel2_cospIndex : list nat;
  sel3_cospIndex : list nat;
  sel3_decLenIndex : list nat
}.

(* ===================================================================== *)
(** ** The selection functions *)
(* ===================================================================== *)

Section Selection.

Context {RD : RecoDecay}.
Variable cfg : Config.

(** The invariant-mass block, identical in [is2ProngPreselected]
    (lines 669-690) and [is3ProngPreselected] (lines 749-770). *)
Definition massStage (i : nat) (massMin massMax : Q)
    (arrMom : list array3) (arrMass : list (list Q))
    (st : CandState) : CandState :=
  let st := set_whichHypo i 3 st in
  let min2 := (massMin ^ 2)%Q in
  let max2 := (massMax ^ 2)%Q in
  if (debug cfg || TESTBIT (isSelected st) (Z.of_nat i))
     && geb massMin 0 && gtb massMax 0
  then
    let st := enter i StageMass st in
    let massHypos0 := M2 arrMom (arrMass !!! 0%nat) in
    let massHypos1 := M2 arrMom (arrMass !!! 1%nat) in
    let st := if ltb massHypos0 min2 || geb massHypos0 max2
              then set_whichHypo i ((whichHypo st !!! i) - 1) st else st in
    let st := if ltb massHypos1 min2 || geb massHypos1 max2
              then set_whichHypo i ((whichHypo st !!! i) - 2) st else st in
    if (whichHypo st !!! i) =? 0 then reject (debug cfg) i 1 st else st
  else st.

(** The impact-parameter-product block of [is2ProngPreselected]. *)
Definition d0d0Stage (i : nat) (d0d0Max : Q) (hfTrack0 hfTrack1 : Track)
    (st : CandState) : CandState :=
  if debug cfg || TESTBIT (isSelected st) (Z.of_nat i) then
    let st := enter i StageD0D0 st in
    let impParProduct := (dcaXY hfTrack0 * dcaXY hfTrack1)%Q in
    if gtb impParProduct d0d0Max then reject (debug cfg) i 2 st else st
  else st.

(** The pointing-angle block; it reports to column [c] of the cut status
    (3 for 2-prongs, 2 for 3-prongs). *)
Definition cospStage (i c : nat) (cospMin : Q)
    (primVtx secVtx pVecCand : array3) (st : CandState) : CandState :=
  if debug cfg || TESTBIT (isSelected st) (Z.of_nat i) then
    let st := enter i StageCosp st in
    let cpa := CPA primVtx secVtx pVecCand in
    if ltb cpa cospMin then reject (debug cfg) i c st else st
  else st.

(** The decay-length block of [is3ProngSelected]. *)
Definition decLStage (i : nat) (decLMin : Q) (primVtx secVtx : array3)
    (st : CandState) : CandState :=
  if debug cfg || TESTBIT (isSelected st) (Z.of_nat i) then
    let st := enter i StageDecL st in
    let decayLength := distance primVtx secVtx in
    if ltb decayLength decLMin then reject (debug cfg) i 3 st else st
  else st.

(** Body of the loop over [iDecay2P] in [is2ProngPreselected]. *)
Definition is2ProngPreselected_decay (hfTrack0 hfTrack1 : Track) (pT : Q)
    (massMinIndex massMaxIndex d0d0Index : list nat)
    (st : CandState) (iDecay2P : nat) : CandState :=
  let arrMom := [momentum hfTrack0; momentum hfTrack1] in
  let cuts := cut2Prong cfg !!! iDecay2P in
  let pTBin := findBin (pTBins2Prong cfg !!! iDecay2P) pT in
  let st := enter iDecay2P StagePt st in
  if pTBin =? -1 then reject (debug cfg) iDecay2P 0 st
  else
    let st := massStage iDecay2P
                (get cuts pTBin (massMinIndex !!! iDecay2P))
                (get cuts pTBin (massMaxIndex !!! iDecay2P))
                arrMom (arrMass2Prong cfg !!! iDecay2P) st in
    d0d0Stage iDecay2P (get cuts pTBin (d0d0Index !!! iDecay2P))
              hfTrack0 hfTrack1 st.

Definition is2ProngPreselected (hfTrack0 hfTrack1 : Track)
    (statics : Statics) (st : CandState) : Statics * CandState :=
  let massMinIndex := cacheColumn (cut2Prong cfg) "massMin" (pre2_massMinIndex statics) in
  let massMaxIndex := cacheColumn (cut2Prong cfg) "massMax" (pre2_massMaxIndex statics) in
  let d0d0Index := cacheColumn (cut2Prong cfg) "d0d0" (pre2_d0d0Index statics) in
  let pT := (Pt [momentum hfTrack0; momentum hfTrack1] + pTTolerance cfg)%Q in
  ({| pre2_massMinIndex := massMinIndex;
      pre2_massMaxIndex := massMaxIndex;
      pre2_d0d0Index := d0d0Index;
      pre3_massMinIndex := pre3_massMinIndex statics;
      pre3_massMaxIndex := pre3_massMaxIndex statics;
      sel2_cospIndex := sel2_cospIndex statics;
      sel3_cospIndex := sel3_cospIndex statics;
      sel3_decLenIndex := sel3_decLenIndex statics |},
   fold_left
     (is2ProngPreselected_decay hfTrack0 hfTrack1 pT
        massMinIndex massMaxIndex d0d0Index)
     (seq 0 n2ProngDecays) st).

(** Body of the loop over [iDecay3P] in [is3ProngPreselected]. *)
Definition is3ProngPreselected_decay (hfTrack0 hfTrack1 hfTrack2 : Track)
    (pT : Q) (massMinIndex massMaxIndex : list nat)
    (st : CandState) (iDecay3P : nat) : CandState :=
  let arrMom := [momentum hfTrack0; momentum hfTrack1; momentum hfTrack2] in
  let cuts := cut3Prong cfg !!! iDecay3P in
  let pTBin := findBin (pTBins3Prong cfg !!! iDecay3P) pT in
  let st := enter iDecay3P StagePt st in
  if pTBin =? -1 then reject (debug cfg) iDecay3P 0 st
  else
    massStage iDecay3P
      (get cuts pTBin (massMinIndex !!! iDecay3P))
      (get cuts pTBin (massMaxIndex !!! iDecay3P))
      arrMom (arrMass3Prong cfg !!! iDecay3P) st.

Definition is3ProngPreselected (hfTrack0 hfTrack1 hfTrack2 : Track)
    (statics : Statics) (st : CandState) : Statics * CandState :=
  let massMinIndex := cacheColumn (cut3Prong cfg) "massMin" (pre3_massMinIndex statics) in
  let massMaxIndex := cacheColumn (cut3Prong cfg) "massMax" (pre3_massMaxIndex statics) in
  let pT := (Pt [momentum hfTrack0; momentum hfTrack1; momentum hfTrack2]
             + pTTolerance cfg)%Q in
  ({| pre2_massMinIndex := pre2_massMinIndex statics;
      pre2_massMaxIndex := pre2_massMaxIndex statics;
      pre2_d0d0Index := pre2_d0d0Index statics;
      pre3_massMinIndex := massMinIndex;
      pre3_massMaxIndex := massMaxIndex;
      sel2_cospIndex := sel2_cospIndex statics;
      sel3_cospIndex := sel3_cospIndex statics;
      sel3_decLenIndex := sel3_decLenIndex statics |},
   fold_left
     (is3ProngPreselected_decay hfTrack0 hfTrack1 hfTrack2 pT
        massMinIndex massMaxIndex)
     (seq 0 n3ProngDecays) st).

(** Body of the loop over [iDecay2P] in [is2ProngSelected]. *)
Definition is2ProngSelected_decay (pVecCand secVtx primVtx : array3)
    (cospIndex : list nat) (st : CandState) (iDecay2P : nat) : CandState :=
  let cuts := cut2Prong cfg !!! iDecay2P in
  let pTBin := findBin (pTBins2Prong cfg !!! iDecay2P) (Pt [pVecCand]) in
  let st := enter iDecay2P StagePt st in
  if pTBin =? -1 then reject (debug cfg) iDecay2P 0 st
  else
    cospStage iDecay2P 3 (get cuts pTBin (cospIndex !!! iDecay2P))
              primVtx secVtx pVecCand st.

Definition is2ProngSelected (pVecCand secVtx primVtx : array3)
    (statics : Statics) (st : CandState) : Statics * CandState :=
  if debug cfg || (isSelected st >? 0) then
    let cospIndex := cacheColumn (cut2Prong cfg) "cosp" (sel2_cospIndex statics) in
    ({| pre2_massMinIndex := pre2_massMinIndex statics;
        pre2_massMaxIndex := pre2_massMaxIndex statics;
        pre2_d0d0Index := pre2_d0d0Index statics;
        pre3_massMinIndex := pre3_massMinIndex statics;
        pre3_massMaxIndex := pre3_massMaxIndex statics;
        sel2_cospIndex := cospIndex;
        sel3_cospIndex := sel3_cospIndex statics;
        sel3_decLenIndex := sel3_decLenIndex statics |},
     fold_left (is2ProngSelected_decay pVecCand secVtx primVtx cospIndex)
               (seq 0 n2ProngDecays) st)
  else (statics, st).

(** Body of the loop over [iDecay3P] in [is3ProngSelected]. *)
Definition is3ProngSelected_decay (pVecCand secVtx primVtx : array3)
    (cospIndex decLenIndex : list nat)
    (st : CandState) (iDecay3P : nat) : CandState :=
  let cuts := cut3Prong cfg !!! iDecay3P in
  let pTBin := findBin (pTBins3Prong cfg !!! iDecay3P) (Pt [pVecCand]) in
  let st := enter iDecay3P StagePt st in
  if pTBin =? -1 then reject (debug cfg) iDecay3P 0 st
  else
    let st := cospStage iDecay3P 2 (get cuts pTBin (cospIndex !!! iDecay3P))
                        primVtx secVtx pVecCand st in
    decLStage iDecay3P (get cuts pTBin (decLenIndex !!! iDecay3P))
              primVtx secVtx st.

Definition is3ProngSelected (pVecCand secVtx primVtx : array3)
    (statics : Statics) (st : CandState) : Statics * CandState :=
  if debug cfg || (isSelected st >? 0) then
    let cospIndex := cacheColumn (cut3Prong cfg) "cosp" (sel3_cospIndex statics) in
    let decLenIndex := cacheColumn (cut3Prong cfg) "decL" (sel3_decLenIndex statics) in
    ({| pre2_massMinIndex := pre2_massMinIndex statics;
        pre2_massMaxIndex := pre2_massMaxIndex statics;
        pre2_d0d0Index := pre2_d0d0Index statics;
        pre3_massMinIndex := pre3_massMinIndex statics;
        pre3_massMaxIndex := pre3_massMaxIndex statics;
        sel2_cospIndex := sel2_cospIndex statics;
        sel3_cospIndex := cospIndex;
        sel3_decLenIndex := decLenIndex |},
     fold_left (is3ProngSelected_decay pVecCand secVtx primVtx
                  cospIndex decLenIndex)
               (seq 0 n3ProngDecays) st)
  else (statics, st).

End Selection.

(* ===================================================================== *)
(** ** HfTrackIndexSkimsCreator::process *)
(* ===================================================================== *)

(** What the DCA fitter hands back: the number of vertex candidates
    returned by [process], the PCA candidate and the momenta of the
    propagated tracks. *)
Record FitResult := {
  nVertices : Z;
  PCACandidate : array3;
  trackMomenta : list array3
}.

#[global] Instance array3_inhabited : Inhabited array3 :=
  populate (0, 0, 0)%Q.

(** [o2::vertexing::DCAFitterN<2>] and [<3>], applied to the track
    parametrisations of the given table rows. *)
Class DCAFitter := {
  df2_process : Track -> Track -> FitResult;
  df3_process : Track -> Track -> Track -> FitResult
}.

(** The locals of [process] that outlive one combination, with the four
    output tables; a table is the list of its rows, oldest first. *)
Record ProcessState := {
  rowTrackIndexProng2 : list (Z * Z * Z);
  rowProng2CutStatus : list (list Z);
  rowTrackIndexProng3 : list (Z * Z * Z * Z);
  rowProng3CutStatus : list (list Z);
  cutStatus2Prong : list (list bool);
  cutStatus3Prong : list (list bool);
  whichHypo2Prong : list Z;
  whichHypo3Prong : list Z;
  statics : Statics
}.

(** Iteration over a table with an iterator: the body sees the row and
    the rows after it (what [it + 1 .. end()] ranges over). *)
Fixpoint for_each {S : Type} (body : Track -> list Track -> S -> S)
    (rows : list Track) (s : S) : S :=
  match rows with
  | [] => s
  | row :: after => for_each body after (body row after s)
  end.

(** [Prong2CutStatus[iDecay]]: all [nCuts] bits set, then one cleared per
    failed selection. *)
Definition cutStatusBits (nCuts : nat) (row : list bool) : Z :=
  fold_left (fun b iCut => if negb (row !!! iCut)
                           then CLRBIT b (Z.of_nat iCut) else b)
            (seq 0 nCuts) (BIT (Z.of_nat nCuts) - 1).

Definition allTrue (n m : nat) : list (list bool) :=
  replicate n (replicate m true).

Section Process.

Context {RD : RecoDecay} {DF : DCAFitter}.
Variable cfg : Config.
Variable primVtx : array3.   (* collision.posX(), posY(), posZ() *)

Definition n2ProngBit : Z := BIT (Z.of_nat n2ProngDecays) - 1.
Definition n3ProngBit : Z := BIT (Z.of_nat n3ProngDecays) - 1.

(** Lines 996-1013: what is done for one 2-prong candidate, from the
    pre-selection to the decision to fill a row.  [st0] holds the caller's
    [cutStatus2Prong], [whichHypo2Prong] and the fresh bitmap; the result
    is the state they are left in and whether the row is filled. *)
Definition evaluate2Prong (trackPos1 trackNeg1 : Track)
    (sv : Statics) (st0 : CandState) : Statics * CandState * bool :=
  let '(sv1, st1) := is2ProngPreselected cfg trackPos1 trackNeg1 sv st0 in
  let fit := df2_process trackPos1 trackNeg1 in
  if (isSelected st1 >? 0) && (nVertices fit >? 0) then
    let secondaryVertex2 := PCACandidate fit in
    let pvec0 := trackMomenta fit !!! 0%nat in
    let pvec1 := trackMomenta fit !!! 1%nat in
    let pVecCandProng2 := PVec [pvec0; pvec1] in
    let '(sv2, st2) :=
      is2ProngSelected cfg pVecCandProng2 secondaryVertex2 primVtx sv1 st1 in
    (sv2, st2, isSelected st2 >? 0)
  else (sv1, st1, false).

(** Lines 983-991: the bitmap of a new 2-prong candidate has every bit
    set; in debug mode every entry of [cutStatus2Prong] is set to true. *)
Definition start2Prong (ps : ProcessState) : CandState :=
  {| cutStatus := if debug cfg then allTrue n2ProngDecays nCuts2Prong
                  else cutStatus2Prong ps;
     whichHypo := whichHypo2Prong ps;
     isSelected := n2ProngBit;
     evaluated := [] |}.

(** Lines 1084-1092 and 1194-1202: the same for a 3-prong candidate. *)
Definition start3Prong (ps : ProcessState) : CandState :=
  {| cutStatus := if debug cfg then allTrue n3ProngDecays nCuts3Prong
                  else cutStatus3Prong ps;
     whichHypo := whichHypo3Prong ps;
     isSelected := n3ProngBit;
     evaluated := [] |}.

(** Lines 983-1063: the 2-prong part of the body of the loop over
    negative tracks. *)
Definition process2Prong (trackPos1 trackNeg1 : Track)
    (ps : ProcessState) : ProcessState :=
  let sel2ProngStatusPos := TESTBIT (isSelProng trackPos1) Cand2Prong in
  let sel2ProngStatusNeg := TESTBIT (isSelProng trackNeg1) Cand2Prong in
  let cutStatus2 := cutStatus (start2Prong ps) in
  if sel2ProngStatusPos && sel2ProngStatusNeg then
    let '(sv', st', fill) :=
      evaluate2Prong trackPos1 trackNeg1 (statics ps) (start2Prong ps) in
    {| rowTrackIndexProng2 :=
         if fill
         then rowTrackIndexProng2 ps ++
                [(globalIndex trackPos1, globalIndex trackNeg1, isSelected st')]
         else rowTrackIndexProng2 ps;
       rowProng2CutStatus :=
         if fill && debug cfg
         then rowProng2CutStatus ps ++
                [map (fun iDecay2P =>
                        cutStatusBits nCuts2Prong (cutStatus st' !!! iDecay2P))
                     (seq 0 n2ProngDecays)]
         else rowProng2CutStatus ps;
       rowTrackIndexProng3 := rowTrackIndexProng3 ps;
       rowProng3CutStatus := rowProng3CutStatus ps;
       cutStatus2Prong := cutStatus st';
       cutStatus3Prong := cutStatus3Prong ps;
       whichHypo2Prong := whichHypo st';
       whichHypo3Prong := whichHypo3Prong ps;
       statics := sv' |}
  else
    {| rowTrackIndexProng2 := rowTrackIndexProng2 ps;
       rowProng2CutStatus := rowProng2CutStatus ps;
       rowTrackIndexProng3 := rowTrackIndexProng3 ps;
       rowProng3CutStatus := rowProng3CutStatus ps;
       cutStatus2Prong := cutStatus2;
       cutStatus3Prong := cutStatus3Prong ps;
       whichHypo2Prong := whichHypo2Prong ps;
       whichHypo3Prong := whichHypo3Prong ps;
       statics := statics ps |}.

(** Lines 1094-1120 and 1204-1232: what is done for one 3-prong candidate,
    from the pre-selection to the decision to fill a row; the tracks are in
    the order given to the fitter. *)
Definition evaluate3Prong (track0 track1 track2 : Track)
    (sv : Statics) (st0 : CandState) : Statics * CandState * bool :=
  let '(sv1, st1) := is3ProngPreselected cfg track0 track1 track2 sv st0 in
  if negb (debug cfg) && (isSelected st1 =? 0) then (sv1, st1, false)
  else
    let fit := df3_process track0 track1 track2 in
    if nVertices fit =? 0 then (sv1, st1, false)
    else
      let secondaryVertex3 := PCACandidate fit in
      let pvec0 := trackMomenta fit !!! 0%nat in
      let pvec1 := trackMomenta fit !!! 1%nat in
      let pvec2 := trackMomenta fit !!! 2%nat in
      let pVecCandProng3 := PVec [pvec0; pvec1; pvec2] in
      let '(sv2, st2) :=
        is3ProngSelected cfg pVecCandProng3 secondaryVertex3 primVtx sv1 st1 in
      if negb (debug cfg) && (isSelected st2 =? 0) then (sv2, st2, false)
      else (sv2, st2, true).

(** Lines 1084-1138 and 1194-1250: the body of either second loop, after
    the sign and selection tests on the third track.  [track0], [track1],
    [track2] are in the order given to the fitter and to the table. *)
Definition process3Prong (track0 track1 track2 : Track)
    (ps : ProcessState) : ProcessState :=
  let '(sv', st', fill) :=
    evaluate3Prong track0 track1 track2 (statics ps) (start3Prong ps) in
  {| rowTrackIndexProng2 := rowTrackIndexProng2 ps;
     rowProng2CutStatus := rowProng2CutStatus ps;
     rowTrackIndexProng3 :=
       if fill
       then rowTrackIndexProng3 ps ++
              [(globalIndex track0, globalIndex track1, globalIndex track2,
                isSelected st')]
       else rowTrackIndexProng3 ps;
     rowProng3CutStatus :=
       if fill && debug cfg
       then rowProng3CutStatus ps ++
              [map (fun iDecay3P =>
                      cutStatusBits nCuts3Prong (cutStatus st' !!! iDecay3P))
                   (seq 0 n3ProngDecays)]
       else rowProng3CutStatus ps;
     cutStatus2Prong := cutStatus2Prong ps;
     cutStatus3Prong := cutStatus st';
     whichHypo2Prong := whichHypo2Prong ps;
     whichHypo3Prong := whichHypo st';
     statics := sv' |}.

(** The second loop over positive tracks, from [trackPos1 + 1]. *)
Definition loopPos2 (trackPos1 trackNeg1 : Track) (afterPos1 : list Track)
    (ps : ProcessState) : ProcessState :=
  for_each (fun trackPos2 _ ps =>
              if ltb (signed1Pt trackPos2) 0 then ps
              else if negb (TESTBIT (isSelProng trackPos2) Cand3Prong) then ps
              else process3Prong trackPos1 trackNeg1 trackPos2 ps)
           afterPos1 ps.

(** The second loop over negative tracks, from [trackNeg1 + 1]. *)
Definition loopNeg2 (trackPos1 trackNeg1 : Track) (afterNeg1 : list Track)
    (ps : ProcessState) : ProcessState :=
  for_each (fun trackNeg2 _ ps =>
              if gtb (signed1Pt trackNeg2) 0 then ps
              else if negb (TESTBIT (isSelProng trackNeg2) Cand3Prong) then ps
              else process3Prong trackNeg1 trackPos1 trackNeg2 ps)
           afterNeg1 ps.

(** The first loop over negative tracks, for a given positive track. *)
Definition loopNeg1 (tracks : list Track) (trackPos1 : Track)
    (afterPos1 : list Track) (ps : ProcessState) : ProcessState :=
  let sel2ProngStatusPos := TESTBIT (isSelProng trackPos1) Cand2Prong in
  let sel3ProngStatusPos1 := TESTBIT (isSelProng trackPos1) Cand3Prong in
  for_each (fun trackNeg1 afterNeg1 ps =>
              if gtb (signed1Pt trackNeg1) 0 then ps
              else
                let sel2ProngStatusNeg := TESTBIT (isSelProng trackNeg1) Cand2Prong in
                let sel3ProngStatusNeg1 := TESTBIT (isSelProng trackNeg1) Cand3Prong in
                if negb sel2ProngStatusNeg && negb sel3ProngStatusNeg1 then ps
                else
                  let ps := process2Prong trackPos1 trackNeg1 ps in
                  if do3prong cfg =? 1 then
                    if negb sel3ProngStatusPos1 || negb sel3ProngStatusNeg1 then ps
                    else if (length tracks <? 2)%nat then ps
                    else
                      let ps := loopPos2 trackPos1 trackNeg1 afterPos1 ps in
                      loopNeg2 trackPos1 trackNeg1 afterNeg1 ps
                  else ps)
           tracks ps.

(** The loops of [process] over the selected tracks of one collision. *)
Definition process (tracks : list Track) (ps : ProcessState) : ProcessState :=
  for_each (fun trackPos1 afterPos1 ps =>
              if ltb (signed1Pt trackPos1) 0 then ps
              else
                let sel2ProngStatusPos := TESTBIT (isSelProng trackPos1) Cand2Prong in
                let sel3ProngStatusPos1 := TESTBIT (isSelProng trackPos1) Cand3Prong in
                if negb sel2ProngStatusPos && negb sel3ProngStatusPos1 then ps
                else loopNeg1 tracks trackPos1 afterPos1 ps)
           tracks ps.

End Process.

(* ===================================================================== *)
(** ** Vocabulary of the statements *)
(* ===================================================================== *)

(** The stages entered for decay [i], oldest first. *)
Definition stagesOf (i : nat) (log : list (nat * Stage)) : list Stage :=
  map snd (filter (fun e => fst e = i) log).

(** Everything a selection state holds about decay [i]: its bit, its mass
    hypotheses, its row of the cut status and the stages entered for it. *)
Definition view (i : nat) (st : CandState)
  : bool * option Z * option (list bool) * list Stage :=
  (TESTBIT (isSelected st) (Z.of_nat i), whichHypo st !! i,
   cutStatus st !! i, stagesOf i (evaluated st)).

(** A bit that is clear in [before] is clear in [after]. *)
Definition cleared_stays_cleared (before after : Z) : Prop :=
  forall j : nat, TESTBIT before (Z.of_nat j) = false ->
                  TESTBIT after (Z.of_nat j) = false.

(** The mass window of the specification, on squared masses. *)
Definition inMassWindow (massMin massMax m2 : Q) : Prop :=
  (massMin ^ 2 <= m2)%Q /\ (m2 < massMax ^ 2)%Q.

(** The last edge of a bin table. *)
Definition lastEdge (edges : list Q) : Q := List.last edges 0%Q.

(** *** The blocks as seen from one decay

    The effect of each block for decay [i] on [view i]; the lemmas
    [view_*] below relate them to the blocks themselves. *)

Definition View : Type := bool * option Z * option (list bool) * list Stage.

Definition vbit (v : View) : bool := fst (fst (fst v)).
Definition vwhich (v : View) : Z := default inhabitant (snd (fst (fst v))).
Definition vrow (v : View) : option (list bool) := snd (fst v).
Definition vstages (v : View) : list Stage := snd v.

Definition venter (s : Stage) (v : View) : View :=
  let '(b, w, r, l) := v in (b, w, r, l ++ [s]).

Definition vset_whichHypo (w' : Z) (v : View) : View :=
  let '(b, w, r, l) := v in (b, (fun _ => w') <$> w, r, l).

Definition vreject (dbg : bool) (c : nat) (v : View) : View :=
  let '(b, w, r, l) := v in
  (false, w, if dbg then (fun row => <[c:=false]> row) <$> r else r, l).

Definition vmassStage (dbg : bool) (massMin massMax m0 m1 : Q) (v : View) : View :=
  let v := vset_whichHypo 3 v in
  if (dbg || vbit v) && geb massMin 0 && gtb massMax 0 then
    let v := venter StageMass v in
    let v := if ltb m0 (massMin ^ 2)%Q || geb m0 (massMax ^ 2)%Q
             then vset_whichHypo (vwhich v - 1) v else v in
    let v := if ltb m1 (massMin ^ 2)%Q || geb m1 (massMax ^ 2)%Q
             then vset_whichHypo (vwhich v - 2) v else v in
    if vwhich v =? 0 then vreject dbg 1 v else v
  else v.

(** A cut on one value: [fails] is the outcome of its comparison. *)
Definition vcutStage (dbg : bool) (s : Stage) (c : nat) (fails : bool)
    (v : View) : View :=
  if dbg || vbit v then
    let v := venter s v in
    if fails then vreject dbg c v else v
  else v.

Section Views.

Context {RD : RecoDecay}.
Variable cfg : Config.

Definition vis2ProngPreselected (hfTrack0 hfTrack1 : Track) (i : nat)
    (v : View) : View :=
  let arrMom := [momentum hfTrack0; momentum hfTrack1] in
  let pT := (Pt arrMom + pTTolerance cfg)%Q in
  let cuts := cut2Prong cfg !!! i in
  let pTBin := findBin (pTBins2Prong cfg !!! i) pT in
  let v := venter StagePt v in
  if pTBin =? -1 then vreject (debug cfg) 0 v
  else
    let v := vmassStage (debug cfg)
               (get_label cuts pTBin "massMin") (get_label cuts pTBin "massMax")
               (M2 arrMom ((arrMass2Prong cfg !!! i) !!! 0%nat))
               (M2 arrMom ((arrMass2Prong cfg !!! i) !!! 1%nat)) v in
    vcutStage (debug cfg) StageD0D0 2
      (gtb (dcaXY hfTrack0 * dcaXY hfTrack1)%Q (get_label cuts pTBin "d0d0")) v.

Definition vis3ProngPreselected (hfTrack0 hfTrack1 hfTrack2 : Track) (i : nat)
    (v : View) : View :=
  let arrMom := [momentum hfTrack0; momentum hfTrack1; momentum hfTrack2] in
  let pT := (Pt arrMom + pTTolerance cfg)%Q in
  let cuts := cut3Prong cfg !!! i in
  let pTBin := findBin (pTBins3Prong cfg !!! i) pT in
  let v := venter StagePt v in
  if pTBin =? -1 then vreject (debug cfg) 0 v
  else
    vmassStage (debug cfg)
      (get_label cuts pTBin "massMin") (get_label cuts pTBin "massMax")
      (M2 arrMom ((arrMass3Prong cfg !!! i) !!! 0%nat))
      (M2 arrMom ((arrMass3Prong cfg !!! i) !!! 1%nat)) v.

Definition vis2ProngSelected (pVecCand secVtx primVtx : array3) (i : nat)
    (v : View) : View :=
  let cuts := cut2Prong cfg !!! i in
  let pTBin := findBin (pTBins2Prong cfg !!! i) (Pt [pVecCand]) in
  let v := venter StagePt v in
  if pTBin =? -1 then vreject (debug cfg) 0 v
  else
    vcutStage (debug cfg) StageCosp 3
      (ltb (CPA primVtx secVtx pVecCand) (get_label cuts pTBin "cosp")) v.

Definition vis3ProngSelected (pVecCand secVtx primVtx : array3) (i : nat)
    (v : View) : View :=
  let cuts := cut3Prong cfg !!! i in
  let pTBin := findBin (pTBins3Prong cfg !!! i) (Pt [pVecCand]) in
  let v := venter StagePt v in
  if pTBin =? -1 then vreject (debug cfg) 0 v
  else
    let v := vcutStage (debug cfg) StageCosp 2
               (ltb (CPA primVtx secVtx pVecCand) (get_label cuts pTBin "cosp")) v in
    vcutStage (debug cfg) StageDecL 3
      (ltb (distance primVtx secVtx) (get_label cuts pTBin "decL")) v.

End Views.

(** The arrays of the configuration have the sizes their types give them. *)
Definition wf_config (cfg : Config) : Prop :=
  length (cut2Prong cfg) = n2ProngDecays /\
  length (cut3Prong cfg) = n3ProngDecays.

(** *** Candidates of either kind

    The statements that hold alike for 2-prong and for 3-prong candidates
    are written once, over the kind of candidate. *)
Inductive Candidate :=
| Cand2 (hfTrack0 hfTrack1 : Track)
| Cand3 (hfTrack0 hfTrack1 hfTrack2 : Track).

Definition arrMomOf (c : Candidate) : list array3 :=
  match c with
  | Cand2 t0 t1 => [momentum t0; momentum t1]
  | Cand3 t0 t1 t2 => [momentum t0; momentum t1; momentum t2]
  end.

Definition nDecays (c : Candidate) : nat :=
  match c with Cand2 _ _ => n2ProngDecays | Cand3 _ _ _ => n3ProngDecays end.

Definition cutsOf (cfg : Config) (c : Candidate) (i : nat) : LabeledArray :=
  match c with
  | Cand2 _ _ => cut2Prong cfg !!! i
  | Cand3 _ _ _ => cut3Prong cfg !!! i
  end.

Definition pTBinsOf (cfg : Config) (c : Candidate) (i : nat) : list Q :=
  match c with
  | Cand2 _ _ => pTBins2Prong cfg !!! i
  | Cand3 _ _ _ => pTBins3Prong cfg !!! i
  end.

Definition arrMassOf (cfg : Config) (c : Candidate) (i : nat) : list (list Q) :=
  match c with
  | Cand2 _ _ => arrMass2Prong cfg !!! i
  | Cand3 _ _ _ => arrMass3Prong cfg !!! i
  end.

Section Candidates.

Context {RD : RecoDecay}.
Variable cfg : Config.

(** The pT bin looked up before the vertex fit, and the one looked up
    after it for the fitted momentum [pVecCand]. *)
Definition preBin (c : Candidate) (i : nat) : Z :=
  findBin (pTBinsOf cfg c i) (Pt (arrMomOf c) + pTTolerance cfg)%Q.

Definition postBin (c : Candidate) (pVecCand : array3) (i : nat) : Z :=
  findBin (pTBinsOf cfg c i) (Pt [pVecCand]).

(** The mass thresholds of the row used before the vertex fit. *)
Definition massMinOf (c : Candidate) (i : nat) : Q :=
  get_label (cutsOf cfg c i) (preBin c i) "massMin".

Definition massMaxOf (c : Candidate) (i : nat) : Q :=
  get_label (cutsOf cfg c i) (preBin c i) "massMax".

(** Squared mass of the candidate under ordering [k] of decay [i]. *)
Definition massHypo (c : Candidate) (i k : nat) : Q :=
  M2 (arrMomOf c) (arrMassOf cfg c i !!! k).

Definition preselected (c : Candidate) (sv : Statics) (st : CandState)
  : Statics * CandState :=
  match c with
  | Cand2 t0 t1 => is2ProngPreselected cfg t0 t1 sv st
  | Cand3 t0 t1 t2 => is3ProngPreselected cfg t0 t1 t2 sv st
  end.

Definition selected (c : Candidate) (pVecCand secVtx primVtx : array3)
    (sv : Statics) (st : CandState) : Statics * CandState :=
  match c with
  | Cand2 _ _ => is2ProngSelected cfg pVecCand secVtx primVtx sv st
  | Cand3 _ _ _ => is3ProngSelected cfg pVecCand secVtx primVtx sv st
  end.

Definition vpreselected (c : Candidate) (i : nat) (v : View) : View :=
  match c with
  | Cand2 t0 t1 => vis2ProngPreselected cfg t0 t1 i v
  | Cand3 t0 t1 t2 => vis3ProngPreselected cfg t0 t1 t2 i v
  end.

Definition vselected (c : Candidate) (pVecCand secVtx primVtx : array3)
    (i : nat) (v : View) : View :=
  match c with
  | Cand2 _ _ => vis2ProngSelected cfg pVecCand secVtx primVtx i v
  | Cand3 _ _ _ => vis3ProngSelected cfg pVecCand secVtx primVtx i v
  end.

End Candidates.

(** Ordering [k] of the mass assignment is flagged in a [whichHypo] value
    (1 = first only, 2 = second only, 3 = both). *)
Definition orderingPasses (w : Z) (k : nat) : bool := Z.testbit w (Z.of_nat k).

(** The impact-parameter-product comparison of a 2-prong candidate for
    decay [i]; 3-prong candidates have no such cut before the vertex fit. *)
Definition d0d0Fails {RD : RecoDecay} (cfg : Config) (c : Candidate) (i : nat)
  : bool :=
  match c with
  | Cand2 t0 t1 =>
      gtb (dcaXY t0 * dcaXY t1)%Q
          (get_label (cutsOf cfg c i) (preBin cfg c i) "d0d0")
  | Cand3 _ _ _ => false
  end.

(** *** The stages a selection enters for one decay *)

Section StagesEntered.

Context {RD : RecoDecay}.
Variable cfg : Config.

(** Both mass thresholds of the row enable the cut. *)
Definition massEnabled (c : Candidate) (i : nat) : bool :=
  geb (massMinOf cfg c i) 0 && gtb (massMaxOf cfg c i) 0.

Definition outsideWindow (c : Candidate) (i k : nat) : bool :=
  ltb (massHypo cfg c i k) (massMinOf cfg c i ^ 2)%Q
  || geb (massHypo cfg c i k) (massMaxOf cfg c i ^ 2)%Q.

(** Neither ordering is in the mass window. *)
Definition massFails (c : Candidate) (i : nat) : bool :=
  outsideWindow c i 0 && outsideWindow c i 1.

Definition cospFails (c : Candidate) (pVecCand secVtx primVtx : array3)
    (i : nat) : bool :=
  ltb (CPA primVtx secVtx pVecCand)
      (get_label (cutsOf cfg c i) (postBin cfg c pVecCand i) "cosp").

Definition hasD0D0 (c : Candidate) : bool :=
  match c with Cand2 _ _ => true | Cand3 _ _ _ => false end.

Definition hasDecL (c : Candidate) : bool :=
  match c with Cand2 _ _ => false | Cand3 _ _ _ => true end.

(** The stages the pre-vertex selection enters for decay [i], whose bit is
    [b] on entry. *)
Definition preStages (c : Candidate) (i : nat) (b : bool) : list Stage :=
  if preBin cfg c i =? -1 then [StagePt]
  else
    StagePt
    :: (if (debug cfg || b) && massEnabled c i then [StageMass] else [])
    ++ (if hasD0D0 c
           && (debug cfg || (b && negb (massEnabled c i && massFails c i)))
        then [StageD0D0] else []).

(** The stages the post-vertex selection enters for decay [i], whose bit is
    [b] on entry, when it runs its loop. *)
Definition postStages (c : Candidate) (pVecCand secVtx primVtx : array3)
    (i : nat) (b : bool) : list Stage :=
  if postBin cfg c pVecCand i =? -1 then [StagePt]
  else
    StagePt
    :: (if debug cfg || b then [StageCosp] else [])
    ++ (if hasDecL c
           && (debug cfg || (b && negb (cospFails c pVecCand secVtx primVtx i)))
        then [StageDecL] else []).

End StagesEntered.

(** *** Candidates in [process] *)

Section ProcessCandidates.

Context {RD : RecoDecay} {DF : DCAFitter}.

(** What the fitter answers for the tracks of a candidate. *)
Definition fitOf (c : Candidate) : FitResult :=
  match c with
  | Cand2 t0 t1 => df2_process t0 t1
  | Cand3 t0 t1 t2 => df3_process t0 t1 t2
  end.

(** The part of [process] run for one enumerated combination. *)
Definition processCandidate (cfg : Config) (primVtx : array3) (c : Candidate)
    (ps : ProcessState) : ProcessState :=
  match c with
  | Cand2 t0 t1 => process2Prong cfg primVtx t0 t1 ps
  | Cand3 t0 t1 t2 => process3Prong cfg primVtx t0 t1 t2 ps
  end.

End ProcessCandidates.

(** The four output tables. *)
Definition tables (ps : ProcessState)
  : list (Z * Z * Z) * list (list Z) * list (Z * Z * Z * Z) * list (list Z) :=
  (rowTrackIndexProng2 ps, rowProng2CutStatus ps,
   rowTrackIndexProng3 ps, rowProng3CutStatus ps).

(** *** Rows without a repeated track *)

Definition distinct2 (row : Z * Z * Z) : Prop :=
  let '(i0, i1, _) := row in i0 <> i1.

Definition distinct3 (row : Z * Z * Z * Z) : Prop :=
  let '(i0, i1, i2, _) := row in i0 <> i1 /\ i0 <> i2 /\ i1 <> i2.

Definition rowsDistinct (ps : ProcessState) : Prop :=
  Forall distinct2 (rowTrackIndexProng2 ps)
  /\ Forall distinct3 (rowTrackIndexProng3 ps).

(** *** Cut tables that agree on one row *)

Definition sameRow (a a' : LabeledArray) (y : Z) : Prop :=
  colmap a = colmap a'
  /\ values a !! Z.to_nat y = values a' !! Z.to_nat y.

(** Two configurations that differ at most in their cut tables. *)
Definition sameButCuts (cfg cfg' : Config) : Prop :=
  debug cfg = debug cfg' /\ pTTolerance cfg = pTTolerance cfg'
  /\ arrMass2Prong cfg = arrMass2Prong cfg'
  /\ arrMass3Prong cfg = arrMass3Prong cfg'
  /\ pTBins2Prong cfg = pTBins2Prong cfg'
  /\ pTBins3Prong cfg = pTBins3Prong cfg'.

(** The static index vectors that belong to the pre-vertex selection of a
    candidate of the given kind. *)
Definition ownStatics (c : Candidate) (sv : Statics)
  : list nat * list nat * list nat :=
  match c with
  | Cand2 _ _ => (pre2_massMinIndex sv, pre2_massMaxIndex sv, pre2_d0d0Index sv)
  | Cand3 _ _ _ => (pre3_massMinIndex sv, pre3_massMaxIndex sv, [])
  end.

(* ===================================================================== *)
(** ** Concrete tables and candidates for the examples *)
(* ===================================================================== *)

(** Rounded particle masses (GeV): pion, kaon, proton, electron, muon. *)
Definition massPi : Q := 13957 # 100000.
Definition massK : Q := 49368 # 100000.
Definition massProton : Q := 93827 # 100000.
Definition massElectron : Q := 511 # 1000000.
Definition massMuon : Q := 10566 # 100000.

(** One row per pT bin, columns massMin, massMax, cosp, d0d0. *)
Definition table2 (rows : list (list Q)) : LabeledArray :=
  {| colmap := [("massMin"%string, 0%nat); ("massMax"%string, 1%nat);
                ("cosp"%string, 2%nat); ("d0d0"%string, 3%nat)];
     values := rows |}.

(** One row per pT bin, columns massMin, massMax, cosp, decL. *)
Definition table3 (rows : list (list Q)) : LabeledArray :=
  {| colmap := [("massMin"%string, 0%nat); ("massMax"%string, 1%nat);
                ("cosp"%string, 2%nat); ("decL"%string, 3%nat)];
     values := rows |}.

(** The default of the configurable [pTTolerance]. *)
Definition pTTolerance_default : Q := 1 # 10.

(** A configuration with the same bin edges and the same rows for every
    decay, the default tolerance and the mass assignments of [init]. *)
Definition exampleConfig (dbg : bool) (edges : list Q)
    (rows2 rows3 : list (list Q)) : Config :=
  {| debug := dbg;
     do3prong := 1;
     pTTolerance := pTTolerance_default;
     arrMass2Prong := [ [[massPi; massK]; [massK; massPi]];
                        [[massElectron; massElectron]; [massElectron; massElectron]];
                        [[massMuon; massMuon]; [massMuon; massMuon]] ];
     arrMass3Prong := [ [[massPi; massK; massPi]; [massPi; massK; massPi]];
                        [[massProton; massK; massPi]; [massPi; massK; massProton]];
                        [[massK; massK; massPi]; [massPi; massK; massK]];
                        [[massProton; massK; massPi]; [massPi; massK; massProton]] ];
     cut2Prong := replicate 3 (table2 rows2);
     pTBins2Prong := replicate 3 edges;
     cut3Prong := replicate 4 (table3 rows3);
     pTBins3Prong := replicate 4 edges |}.

(** Kinematics given directly: the candidate has transverse momentum [pt]
    before and after the fit, squared mass [m2First] when the first daughter
    is assigned [firstMass] and [m2Other] otherwise, pointing-angle cosine
    [cpa] and decay length [len]. *)
Definition givenKinematics (pt : Q) (firstMass m2First m2Other cpa len : Q)
  : RecoDecay :=
  {| Pt := fun _ => pt;
     M2 := fun _ masses =>
             match masses with
             | m :: _ => if Qeq_bool m firstMass then m2First else m2Other
             | [] => m2Other
             end;
     CPA := fun _ _ _ => cpa;
     distance := fun _ _ => len |}.

Definition exampleTrack (index : Z) (sign : Q) (sel : Z) (dca : Q) : Track :=
  {| globalIndex := index; signed1Pt := sign; isSelProng := sel;
     pxProng := 1; pyProng := 1; pzProng := 0; dcaXY := dca |}.

Definition noStatics : Statics :=
  {| pre2_massMinIndex := []; pre2_massMaxIndex := []; pre2_d0d0Index := [];
     pre3_massMinIndex := []; pre3_massMaxIndex := [];
     sel2_cospIndex := []; sel3_cospIndex := []; sel3_decLenIndex := [] |}.

(** The state a selection starts from in [process]: every bit set, every
    cut-status entry true, [whichHypo] as the caller left it. *)
Definition freshState (n nCuts : nat) (which : list Z) : CandState :=
  {| cutStatus := allTrue n nCuts; whichHypo := which;
     isSelected := BIT (Z.of_nat n) - 1; evaluated := [] |}.

(** The example candidate of the tests: one pT bin [0, 10), mass window
    [1.8, 1.95), impact-parameter product at most 0.001; candidate pT 2.9
    (3.0 with the tolerance), masses 1.87 and 2.5 under the two orderings
    of the first decay. *)
Definition cfgA (dbg : bool) : Config :=
  exampleConfig dbg [0; 10]%Q
    [[18 # 10; 195 # 100; 0; 1 # 1000]]%Q [[18 # 10; 195 # 100; 0; 0]]%Q.

Definition rdA : RecoDecay :=
  givenKinematics (29 # 10) massPi ((187 # 100) ^ 2) ((25 # 10) ^ 2) 1 1.

Definition trackA : Track := exampleTrack 0 1 7 (1 # 100).
Definition trackB : Track := exampleTrack 1 (-1) 7 (5 # 100).

(** As [cfgA], with the mass cut of every decay disabled by a negative
    lower threshold. *)
Definition cfgNoMass (dbg : bool) : Config :=
  exampleConfig dbg [0; 10]%Q
    [[-1; 195 # 100; 0; 1 # 1000]]%Q [[-1; 195 # 100; 0; 0]]%Q.

(** A fitter that reports [n] vertices, at a fixed position, for every
    combination. *)
Definition fitGiven (n : Z) : DCAFitter :=
  let fit := {| nVertices := n; PCACandidate := (1, 0, 0)%Q;
                trackMomenta := [(1, 0, 0); (0, 1, 0); (0, 0, 1)]%Q |} in
  {| df2_process := fun _ _ => fit; df3_process := fun _ _ _ => fit |}.

Definition emptyTables (which2 which3 : list Z) : ProcessState :=
  {| rowTrackIndexProng2 := []; rowProng2CutStatus := [];
     rowTrackIndexProng3 := []; rowProng3CutStatus := [];
     cutStatus2Prong := allTrue n2ProngDecays nCuts2Prong;
     cutStatus3Prong := allTrue n3ProngDecays nCuts3Prong;
     whichHypo2Prong := which2; whichHypo3Prong := which3;
     statics := noStatics |}.

(** Debug mode; the first 2-prong decay has the single bin [0, 10) and
    asks for a pointing-angle cosine of 0.9, the other two have the bin
    [0, 20) and no pointing-angle requirement; mass cuts disabled. *)
Definition cfgTwoEdges : Config :=
  {| debug := true;
     do3prong := 0;
     pTTolerance := pTTolerance_default;
     arrMass2Prong := arrMass2Prong (cfgA true);
     arrMass3Prong := arrMass3Prong (cfgA true);
     cut2Prong := [ table2 [[-1; 0; 9 # 10; 1 # 1000]]%Q;
                    table2 [[-1; 0; -1; 1 # 1000]]%Q;
                    table2 [[-1; 0; -1; 1 # 1000]]%Q ];
     pTBins2Prong := [ [0; 10]; [0; 20]; [0; 20] ]%Q;
     cut3Prong := cut3Prong (cfgA true);
     pTBins3Prong := pTBins3Prong (cfgA true) |}.

(** A candidate of pT 9.95 before and after the fit, pointing-angle
    cosine 0.5. *)
Definition rdEdge : RecoDecay :=
  givenKinematics (995 # 100) massPi 4 4 (1 # 2) 1.

(** A candidate like that of [rdA] with squared mass 9 under either
    ordering, outside the window of [cfgA]. *)
Definition rdOffMass : RecoDecay :=
  givenKinematics (29 # 10) massPi 9 9 1 1.

(** A candidate of pT 15, outside the single bin [0, 10) of [cfgA]. *)
Definition rdHigh : RecoDecay :=
  givenKinematics 15 massPi ((187 # 100) ^ 2) ((25 # 10) ^ 2) 1 1.

Definition origin : array3 := (0, 0, 0)%Q.

(** Debug mode, one bin [0, 10), a mass window that the example masses of
    a 3-prong miss for every decay. *)
Definition cfgNarrow : Config :=
  exampleConfig true [0; 10]%Q
    [[18 # 10; 195 # 100; 0; 1 # 1000]]%Q [[1; 11 # 10; 0; 0]]%Q.

Definition trackC : Track := exampleTrack 2 1 7 (1 # 100).

(** Mass cuts disabled, no requirement on pointing angle or decay length,
    3-prongs enabled. *)
Definition cfgOpen : Config :=
  exampleConfig false [0; 10]%Q
    [[-1; 0; 0; 1 # 1000]]%Q [[-1; 0; 0; 0]]%Q.

(** A track whose [signed1Pt] is exactly zero, selected for 2- and
    3-prongs. *)
Definition trackZero : Track := exampleTrack 5 0 7 (1 # 100).

(** Debug mode, two bins [0, 10) and [10, 20); the first row asks for a
    pointing-angle cosine of 0.9, the second row is [row1]. *)
Definition cfgTwoRows (row1 : list Q) : Config :=
  exampleConfig true [0; 10; 20]%Q
    [[-1; 0; 9 # 10; 1 # 1000]; row1]%Q [[-1; 0; 9 # 10; 0]; row1]%Q.

(* ===================================================================== *)
(** ** Histogram registry, [SETBIT] and the run-2 track flags *)
(* ===================================================================== *)

(** ROOT's [SETBIT(n, i)]: [n |= BIT(i)]. *)
Definition SETBIT (n i : Z) : Z := Z.lor n (BIT i).

(** A [HistogramRegistry] as the record of the calls to [fill], oldest
    first: the name of the histogram and the values it was filled with. *)
Definition Registry : Type := list (string * list Q).

Definition fill (name : string) (xs : list Q) (registry : Registry) : Registry :=
  registry ++ [(name, xs)].

(** The masks [o2::aod::track::ITSrefit] and [o2::aod::track::TPCrefit] of
    the framework's data model. *)
Class TrackFlagsRun2Enum := {
  ITSrefit : Z;
  TPCrefit : Z
}.

(** enum EventRejection *)
Definition Trigger : Z := 0.
Definition PositionX : Z := 1.
Definition PositionY : Z := 2.
Definition PositionZ : Z := 3.
Definition NContrib : Z := 4.
Definition Chi2 : Z := 5.
Definition NEventRejection : Z := 6.

(** enum CandidateType, last enumerator *)
Definition NCandidateTypes : Z := 3.

(* ===================================================================== *)
(** ** HfTagSelCollisions: event selection *)
(* ===================================================================== *)

Module HfTagSelCollisions.

(** A row of the collision table joined with the event-selection table,
    with the columns the task reads; [alias] holds one entry per trigger
    alias, zero when the alias did not fire. *)
Record Collision := {
  posX : Q;
  posY : Q;
  posZ : Q;
  numContrib : Z;
  chi2 : Q;
  alias : list Z
}.

(** The configurables and [triggerClass], the position of
    [triggerClassName] among the alias labels. *)
Record Config := {
  fillHistograms : bool;
  xVertexMin : Q;
  xVertexMax : Q;
  yVertexMin : Q;
  yVertexMax : Q;
  zVertexMin : Q;
  zVertexMax : Q;
  nContribMin : Z;
  chi2Max : Q;
  triggerClass : nat
}.

(** What the task writes: the table [rowSelectedCollision], oldest row
    first, and the histogram registry. *)
Record Output := {
  rowSelectedCollision : list Z;
  registry : Registry
}.

(** [SETBIT(statusCollision, reason)] followed by the entry of [hEvents]
    for that reason: the body shared by every rejection. *)
Definition rejectEvent (cfg : Config) (reason : Z) (st : Z * Registry)
    : Z * Registry :=
  (SETBIT (fst st) reason,
   if fillHistograms cfg
   then fill "hEvents" [inject_Z (3 + reason)] (snd st)
   else snd st).

(** Lines 130-171.  [statusCollision] is taken by reference; it is
    returned with the registry. *)
Definition selectVertex (cfg : Config) (collision : Collision)
    (statusCollision : Z) (reg : Registry) : Z * Registry :=
  let st := (statusCollision,
             if fillHistograms cfg
             then fill "hNContributors" [inject_Z (numContrib collision)] reg
             else reg) in
  (* x position *)
  let st := if ltb (posX collision) (xVertexMin cfg)
               || gtb (posX collision) (xVertexMax cfg)
            then rejectEvent cfg PositionX st else st in
  (* y position *)
  let st := if ltb (posY collision) (yVertexMin cfg)
               || gtb (posY collision) (yVertexMax cfg)
            then rejectEvent cfg PositionY st else st in
  (* z position *)
  let st := if ltb (posZ collision) (zVertexMin cfg)
               || gtb (posZ collision) (zVertexMax cfg)
            then rejectEvent cfg PositionZ st else st in
  (* number of contributors *)
  let st := if numContrib collision <? nContribMin cfg
            then rejectEvent cfg NContrib st else st in
  (* chi^2 *)
  let st := if gtb (chi2Max cfg) 0%Q && gtb (chi2 collision) (chi2Max cfg)
            then rejectEvent cfg Chi2 st else st in
  st.

(** Lines 174-203: event selection with trigger selection. *)
Definition processTrigSel (cfg : Config) (collision : Collision)
    (out : Output) : Output :=
  let statusCollision := 0 in
  (* processed events *)
  let st := (statusCollision,
             if fillHistograms cfg
             then fill "hEvents" [1%Q] (registry out)
             else registry out) in
  (* trigger selection *)
  let st := if (alias collision !!! triggerClass cfg) =? 0
            then rejectEvent cfg Trigger st else st in
  (* vertex selection *)
  let st := selectVertex cfg collision (fst st) (snd st) in
  (* selected events *)
  let reg := if fillHistograms cfg && (fst st =? 0)
             then fill "hEvents" [2%Q] (snd st)
             else snd st in
  (* fill table row *)
  {| rowSelectedCollision := rowSelectedCollision out ++ [fst st];
     registry := reg |}.

(** Lines 208-227: event selection without trigger selection. *)
Definition processNoTrigSel (cfg : Config) (collision : Collision)
    (out : Output) : Output :=
  let statusCollision := 0 in
  (* processed events *)
  let st := (statusCollision,
             if fillHistograms cfg
             then fill "hEvents" [1%Q] (registry out)
             else registry out) in
  (* vertex selection *)
  let st := selectVertex cfg collision (fst st) (snd st) in
  (* selected events *)
  let reg := if fillHistograms cfg && (fst st =? 0)
             then fill "hEvents" [2%Q] (snd st)
             else snd st in
  (* fill table row *)
  {| rowSelectedCollision := rowSelectedCollision out ++ [fst st];
     registry := reg |}.

(** The framework calls the enabled process function once per collision
    of the table. *)
Definition run (process : Config -> Collision -> Output -> Output)
    (cfg : Config) (collisions : list Collision) (out : Output) : Output :=
  fold_left (fun out collision => process cfg collision out) collisions out.

(** The filter of the downstream tasks on the produced column:
    [aod::hf_selcollision::whyRejectColl == 0]. *)
Definition filterSelectCollisions (whyRejectColl : Z) : bool :=
  whyRejectColl =? 0.

End HfTagSelCollisions.

(* ===================================================================== *)
(** ** HfTagSelTracks: single-track selection *)
(* ===================================================================== *)

Module HfTagSelTracks.

(** A row of [MY_TYPE1], the joined track tables, with the columns the
    task reads. *)
Record MY_TYPE1 := {
  pt : Q;
  eta : Q;
  tpcNClsFound : Z;
  flags : Z;
  itsClusterMap : Z;
  dcaXY : Q;
  dcaZ : Q;
  px : Q;
  py : Q;
  pz : Q
}.

(** The configurables; [tpcNClsFound_value] is the configurable
    [tpcNClsFound], which shares its name with the track column. *)
Record Config := {
  fillHistograms : bool;
  debug : bool;
  doCutQuality : bool;
  tpcNClsFound_value : Z;
  pTBinsTrack : list Q;
  pTMinTrack2Prong : Q;
  cutsTrack2Prong : LabeledArray;
  etaMax2Prong : Q;
  pTMinTrack3Prong : Q;
  cutsTrack3Prong : LabeledArray;
  etaMax3Prong : Q;
  ptMinTrackBach : Q;
  cutsTrackBach : LabeledArray;
  etaMaxBach : Q
}.

Definition nCuts : Z := 4.

(** [init], line 288. *)
Definition cutsSingleTrack (cfg : Config) : list LabeledArray :=
  [cutsTrack2Prong cfg; cutsTrack3Prong cfg; cutsTrackBach cfg].

(** What the task writes: the table [rowSelectedTrack], oldest row first,
    and the histogram registry. *)
Record Output := {
  rowSelectedTrack : list (Z * Q * Q * Q);
  registry : Registry
}.

(** In debug mode, with histograms on, the entry of [hRejTracks] for
    candidate type [candType] and cut [iDebugCut]. *)
Definition fillRejTracks (cfg : Config) (candType iDebugCut : Z)
    (reg : Registry) : Registry :=
  if debug cfg then
    if fillHistograms cfg
    then fill "hRejTracks" [inject_Z ((nCuts + 1) * candType + iDebugCut)] reg
    else reg
  else reg.

(** [CLRBIT(statusProng, candType)] followed by the debug entry: the body
    shared by the pT, eta and DCA rejections. *)
Definition rejectTrack (cfg : Config) (candType iDebugCut : Z)
    (st : Z * Registry) : Z * Registry :=
  (CLRBIT (fst st) candType, fillRejTracks cfg candType iDebugCut (snd st)).

(** Lines 425-427: the quality requirement on a track. *)
Definition passesQuality {TF : TrackFlagsRun2Enum} (cfg : Config)
    (track : MY_TYPE1) : bool :=
  let clustermap := itsClusterMap track in
  (tpcNClsFound track >=? tpcNClsFound_value cfg)
  && negb (Z.land (flags track) ITSrefit =? 0)
  && (TESTBIT clustermap 0 || TESTBIT clustermap 1).

(** Lines 355-385: the pT cut, for the three candidate types. *)
Definition cutPt (cfg : Config) (trackPt : Q) (st : Z * Registry)
    : Z * Registry :=
  let iDebugCut := 2 in
  let st := if ltb trackPt (pTMinTrack2Prong cfg)
            then rejectTrack cfg Cand2Prong iDebugCut st else st in
  let st := if ltb trackPt (pTMinTrack3Prong cfg)
            then rejectTrack cfg Cand3Prong iDebugCut st else st in
  let st := if ltb trackPt (ptMinTrackBach cfg)
            then rejectTrack cfg CandV0bachelor iDebugCut st else st in
  st.

(** Lines 387-417: the eta cut. *)
Definition cutEta (cfg : Config) (trackEta : Q) (st : Z * Registry)
    : Z * Registry :=
  let iDebugCut := 3 in
  let st := if (debug cfg || TESTBIT (fst st) Cand2Prong)
               && gtb (Qabs trackEta) (etaMax2Prong cfg)
            then rejectTrack cfg Cand2Prong iDebugCut st else st in
  let st := if (debug cfg || TESTBIT (fst st) Cand3Prong)
               && gtb (Qabs trackEta) (etaMax3Prong cfg)
            then rejectTrack cfg Cand3Prong iDebugCut st else st in
  let st := if (debug cfg || TESTBIT (fst st) CandV0bachelor)
               && gtb (Qabs trackEta) (etaMaxBach cfg)
            then rejectTrack cfg CandV0bachelor iDebugCut st else st in
  st.

(** Lines 422-439: the quality cut, which clears every bit at once. *)
Definition cutQuality {TF : TrackFlagsRun2Enum} (cfg : Config)
    (track : MY_TYPE1) (st : Z * Registry) : Z * Registry :=
  let iDebugCut := 4 in
  if doCutQuality cfg && (debug cfg || (fst st >? 0)) then
    if negb (passesQuality cfg track) then
      (0,
       if debug cfg then
         fold_left (fun reg iCandType =>
                      if fillHistograms cfg
                      then fill "hRejTracks"
                             [inject_Z ((nCuts + 1) * iCandType + iDebugCut)] reg
                      else reg)
                   [0; 1; 2] (snd st)
       else snd st)
    else st
  else st.

(** Lines 441-472: the DCA cut. *)
Definition cutDCA (cfg : Config) (trackPt : Q) (dca : Q * Q)
    (st : Z * Registry) : Z * Registry :=
  let iDebugCut := 5 in
  let selected candType :=
    isSelectedTrack (pTBinsTrack cfg) (cutsSingleTrack cfg) trackPt dca
                    (Z.to_nat candType) in
  if debug cfg || (fst st >? 0) then
    let st := if (debug cfg || TESTBIT (fst st) Cand2Prong)
                 && negb (selected Cand2Prong)
              then rejectTrack cfg Cand2Prong iDebugCut st else st in
    let st := if (debug cfg || TESTBIT (fst st) Cand3Prong)
                 && negb (selected Cand3Prong)
              then rejectTrack cfg Cand3Prong iDebugCut st else st in
    let st := if (debug cfg || TESTBIT (fst st) CandV0bachelor)
                 && negb (selected CandV0bachelor)
              then rejectTrack cfg CandV0bachelor iDebugCut st else st in
    st
  else st.

(** Lines 478-502, for one candidate type: the three histograms of the
    tracks kept for it, and in debug mode the bin "selected" of
    [hRejTracks]. *)
Definition fillSelected (cfg : Config) (statusProng candType : Z)
    (hPt hEta hDCA : string) (trackPt trackEta : Q) (dca : Q * Q)
    (reg : Registry) : Registry :=
  let iDebugCut := 1 in
  if TESTBIT statusProng candType then
    let reg := fill hPt [trackPt] reg in
    let reg := fill hEta [trackEta] reg in
    let reg := fill hDCA [trackPt; fst dca] reg in
    if debug cfg
    then fill "hRejTracks" [inject_Z ((nCuts + 1) * candType + iDebugCut)] reg
    else reg
  else reg.

(** Lines 338-506: the body of the loop over tracks, up to the table row;
    the result is [statusProng] and the registry. *)
Definition selectTrack {TF : TrackFlagsRun2Enum} (cfg : Config)
    (track : MY_TYPE1) (reg : Registry) : Z * Registry :=
  let statusProng := BIT NCandidateTypes - 1 in
  let trackPt := pt track in
  let trackEta := eta track in
  let st := (statusProng,
             if fillHistograms cfg then fill "hPtNoCuts" [trackPt] reg
             else reg) in
  (* pT cut *)
  let st := cutPt cfg trackPt st in
  (* eta cut *)
  let st := cutEta cfg trackEta st in
  (* quality cut *)
  let st := cutQuality cfg track st in
  (* DCA cut *)
  let dca := (dcaXY track, dcaZ track) in
  let st := cutDCA cfg trackPt dca st in
  (* fill histograms *)
  let statusProng := fst st in
  let reg := snd st in
  let reg :=
    if fillHistograms cfg then
      let reg := fillSelected cfg statusProng Cand2Prong
                   "hPtCuts2Prong" "hEtaCuts2Prong"
                   "hDCAToPrimXYVsPtCuts2Prong" trackPt trackEta dca reg in
      let reg := fillSelected cfg statusProng Cand3Prong
                   "hPtCuts3Prong" "hEtaCuts3Prong"
                   "hDCAToPrimXYVsPtCuts3Prong" trackPt trackEta dca reg in
      let reg := fillSelected cfg statusProng CandV0bachelor
                   "hPtCutsV0bachelor" "hEtaCutsV0bachelor"
                   "hDCAToPrimXYVsPtCutsV0bachelor" trackPt trackEta dca reg in
      reg
    else reg in
  (statusProng, reg).

(** Lines 327-507: the loop over the tracks, one table row per track. *)
Definition process {TF : TrackFlagsRun2Enum} (cfg : Config)
    (tracks : list MY_TYPE1) (out : Output) : Output :=
  fold_left (fun out track =>
               let '(statusProng, reg) := selectTrack cfg track (registry out) in
               {| rowSelectedTrack :=
                    rowSelectedTrack out ++
                      [(statusProng, px track, py track, pz track)];
                  registry := reg |})
            tracks out.

End HfTagSelTracks.

(* ===================================================================== *)
(** ** HfTrackIndexSkimsCreatorCascades: V0-bachelor pairs *)
(* ===================================================================== *)

(** [RecoDecay::M], the invariant mass of momenta under a mass
    assignment; as the other kinematic helpers it is an interface. *)
Class RecoDecayM := {
  M : list array3 -> list Q -> Q
}.

Module HfTrackIndexSkimsCreatorCascades.

(** A row of [MyTracks] with the columns this task reads. *)
Record MyTracks := {
  globalIndex : Z;
  isSelProng : Z;
  trackType : Z;
  tpcNClsCrossedRows : Z;
  pt : Q;
  eta : Q;
  px : Q;
  py : Q;
  pz : Q
}.

(** A row of [aod::V0Datas] with the columns this task reads; the
    projections of the V0 itself carry the prefix [v0_], its daughters are
    the rows [posTrack_as<MyTracks>()] and [negTrack_as<MyTracks>()], and
    [v0cosPA] is the dynamic column, a function of the primary vertex. *)
Record V0Datas := {
  v0_globalIndex : Z;
  posTrack : MyTracks;
  negTrack : MyTracks;
  mK0Short : Q;
  v0cosPA : Q -> Q -> Q -> Q;
  v0_px : Q;
  v0_py : Q;
  v0_pz : Q
}.

(** The configurables read by [process], and the members [massP],
    [massK0s] and [massLc] set from the particle database. *)
Record Config := {
  doValPlots : bool;
  TPCRefitBach : bool;
  minCrossedRowsBach : Z;
  TPCRefitV0Daugh : bool;
  minCrossedRowsV0Daugh : Z;
  etaMax : Q;
  ptMin : Q;
  cosPAV0 : Q;
  cutInvMassV0 : Q;
  cutCascPtCandMin : Q;
  cutCascInvMassLc : Q;
  massP : Q;
  massK0s : Q;
  massLc : Q
}.

(** [fitter.process(trackV0, trackBach)] on the V0 track built from the
    V0 row and the parametrisation of the bachelor: the number of vertex
    candidates, the PCA candidate and the momenta of the propagated
    tracks, the V0 first. *)
Class CascadeFitter := {
  fitter_process : V0Datas -> MyTracks -> FitResult
}.

(** What the task writes: the table [rowTrackIndexCasc], oldest row
    first, and the histogram registry. *)
Record Output := {
  rowTrackIndexCasc : list (Z * Z * Z);
  registry : Registry
}.

(** Lines 1454-1580: the body of the loop over the V0s, for a bachelor
    that passed its selections; every [continue] leaves the output as it
    was. *)
Definition processV0 {TF : TrackFlagsRun2Enum} {RD : RecoDecay}
    {RM : RecoDecayM} {CF : CascadeFitter} (cfg : Config)
    (collision : array3) (bach : MyTracks) (v0 : V0Datas)
    (out : Output) : Output :=
  (* selections on the V0 daughters *)
  let trackV0DaughPos := posTrack v0 in
  let trackV0DaughNeg := negTrack v0 in
  if TPCRefitV0Daugh cfg
     && ((Z.land (trackType trackV0DaughPos) TPCrefit =? 0)
         || (Z.land (trackType trackV0DaughNeg) TPCrefit =? 0))
  then out
  else if (tpcNClsCrossedRows trackV0DaughPos <? minCrossedRowsV0Daugh cfg)
          || (tpcNClsCrossedRows trackV0DaughNeg <? minCrossedRowsV0Daugh cfg)
  then out
  else if ltb (pt trackV0DaughPos) (ptMin cfg)
          || ltb (pt trackV0DaughNeg) (ptMin cfg)
  then out
  else if gtb (Qabs (eta trackV0DaughPos)) (etaMax cfg)
          || gtb (Qabs (eta trackV0DaughNeg)) (etaMax cfg)
  then out
  (* V0 invariant mass selection *)
  else if gtb (Qabs (mK0Short v0 - massK0s cfg)) (cutInvMassV0 cfg)
  then out
  (* V0 cosPointingAngle selection *)
  else if ltb (let '(x, y, z) := collision in v0cosPA v0 x y z) (cosPAV0 cfg)
  then out
  else
    let momentumV0 := (v0_px v0, v0_py v0, v0_pz v0) in
    (* invariant-mass cut, before the fit *)
    let mass2K0sP := M [(px bach, py bach, pz bach); momentumV0]
                       [massP cfg; massK0s cfg] in
    if geb (cutCascInvMassLc cfg) 0%Q
       && gtb (Qabs (mass2K0sP - massLc cfg)) (cutCascInvMassLc cfg)
    then out
    else
      (* DCA between the V0 and the bachelor *)
      let fit := fitter_process v0 bach in
      let nCand2 := nVertices fit in
      if nCand2 =? 0 then out
      else
        let pVecV0 := trackMomenta fit !!! 0%nat in
        let pVecBach := trackMomenta fit !!! 1%nat in
        (* cascade candidate pT cut *)
        let ptCascCand := Pt [pVecBach; pVecV0] in
        if ltb ptCascCand (cutCascPtCandMin cfg) then out
        else
          (* invariant mass with the updated momenta *)
          let mass2K0sP := M [pVecBach; pVecV0] [massP cfg; massK0s cfg] in
          let posCasc := PCACandidate fit in
          {| (* fill table row *)
             rowTrackIndexCasc :=
               rowTrackIndexCasc out ++
                 [(globalIndex bach, v0_globalIndex v0, 1)];
             (* fill histograms *)
             registry :=
               if doValPlots cfg then
                 let reg := fill "hVtx2ProngX" [fst (fst posCasc)] (registry out) in
                 let reg := fill "hVtx2ProngY" [snd (fst posCasc)] reg in
                 let reg := fill "hVtx2ProngZ" [snd posCasc] reg in
                 fill "hmass2" [mass2K0sP] reg
               else registry out |}.

(** Lines 1426-1582: the loop over the bachelor candidates. *)
Definition process {TF : TrackFlagsRun2Enum} {RD : RecoDecay}
    {RM : RecoDecayM} {CF : CascadeFitter} (cfg : Config)
    (collision : array3) (V0s : list V0Datas) (tracks : list MyTracks)
    (out : Output) : Output :=
  fold_left
    (fun out bach =>
       (* selections on the bachelor *)
       if isSelProng bach <? 4 then out
       else if TPCRefitBach cfg && (Z.land (trackType bach) TPCrefit =? 0)
       then out
       else if tpcNClsCrossedRows bach <? minCrossedRowsBach cfg then out
       else
         (* now we loop over the V0s *)
         fold_left (fun out v0 => processV0 cfg collision bach v0 out) V0s out)
    tracks out.

End HfTrackIndexSkimsCreatorCascades.

(* ===================================================================== *)
(** ** qaEventTrack::isSelectedTrack *)
(* ===================================================================== *)

Module qaEventTrack.

(** The configurables read by [isSelectedTrack]: [selectCharge] and
    [selectPID] are integers tested for being non-zero, [selectPrim] and
    [selectSec] are flags. *)
Record Config := {
  selectCharge : Z;
  selectPrim : bool;
  selectSec : bool;
  selectPID : Z
}.

(** A track with its charge sign and, for simulated data, the matched
    particle: whether it is a physical primary and its PDG code. *)
Record TrackRow := {
  sign : Z;
  isPhysicalPrimary : bool;
  pdgCode : Z
}.

(** Lines 2178-2198; [IS_MC] is the template parameter. *)
Definition isSelectedTrack (IS_MC : bool) (cfg : Config) (track : TrackRow)
    : bool :=
  if negb (selectCharge cfg =? 0) && negb (selectCharge cfg =? sign track)
  then false
  else if IS_MC then
    let isPrimary := isPhysicalPrimary track in
    if selectPrim cfg && negb isPrimary then false
    else if selectSec cfg && isPrimary then false
    else if negb (selectPID cfg =? 0)
            && negb (selectPID cfg =? Z.abs (pdgCode track))
    then false
    else true
  else true.

End qaEventTrack.

(* ===================================================================== *)
(** ** Vocabulary of the statements on the event and track selections *)
(* ===================================================================== *)

(** Whether the collision fails the cut behind the rejection [reason] of
    [selectVertex]; no vertex cut stands behind any other bit. *)
Definition failsVertexCut (cfg : HfTagSelCollisions.Config)
    (collision : HfTagSelCollisions.Collision) (reason : Z) : bool :=
  let inside lo x hi := negb (ltb x lo) && negb (gtb x hi) in
  if reason =? PositionX then
    negb (inside (HfTagSelCollisions.xVertexMin cfg)
                 (HfTagSelCollisions.posX collision)
                 (HfTagSelCollisions.xVertexMax cfg))
  else if reason =? PositionY then
    negb (inside (HfTagSelCollisions.yVertexMin cfg)
                 (HfTagSelCollisions.posY collision)
                 (HfTagSelCollisions.yVertexMax cfg))
  else if reason =? PositionZ then
    negb (inside (HfTagSelCollisions.zVertexMin cfg)
                 (HfTagSelCollisions.posZ collision)
                 (HfTagSelCollisions.zVertexMax cfg))
  else if reason =? NContrib then
    HfTagSelCollisions.numContrib collision <? HfTagSelCollisions.nContribMin cfg
  else if reason =? Chi2 then
    gtb (HfTagSelCollisions.chi2Max cfg) 0%Q
    && gtb (HfTagSelCollisions.chi2 collision) (HfTagSelCollisions.chi2Max cfg)
  else false.

(** Whether the trigger alias of the configured class fired. *)
Definition triggerFired (cfg : HfTagSelCollisions.Config)
    (collision : HfTagSelCollisions.Collision) : bool :=
  negb ((HfTagSelCollisions.alias collision
           !!! HfTagSelCollisions.triggerClass cfg) =? 0).

(** The number of entries of the one-dimensional histogram [name] at the
    value [x]. *)
Definition entries (name : string) (x : Q) (reg : Registry) : nat :=
  length (List.filter
            (fun e : string * list Q =>
               String.eqb (fst e) name
               && match snd e with
                  | [y] => Qeq_bool y x
                  | _ => false
                  end)
            reg).

(** The number of rows of a table of bitmaps that are zero. *)
Definition zeroRows (rows : list Z) : nat :=
  length (List.filter (fun s => s =? 0) rows).

(** The thresholds of [HfTagSelTracks] for a candidate type. *)
Definition pTMinTrack (cfg : HfTagSelTracks.Config) (candType : Z) : Q :=
  if candType =? Cand2Prong then HfTagSelTracks.pTMinTrack2Prong cfg
  else if candType =? Cand3Prong then HfTagSelTracks.pTMinTrack3Prong cfg
  else HfTagSelTracks.ptMinTrackBach cfg.

Definition etaMaxTrack (cfg : HfTagSelTracks.Config) (candType : Z) : Q :=
  if candType =? Cand2Prong then HfTagSelTracks.etaMax2Prong cfg
  else if candType =? Cand3Prong then HfTagSelTracks.etaMax3Prong cfg
  else HfTagSelTracks.etaMaxBach cfg.

(** What a track has to fulfil to be kept for a candidate type: the four
    requirements of [HfTagSelTracks::process], outcome by outcome. *)
Definition keptFor {TF : TrackFlagsRun2Enum} (cfg : HfTagSelTracks.Config)
    (track : HfTagSelTracks.MY_TYPE1) (candType : Z) : bool :=
  negb (ltb (HfTagSelTracks.pt track) (pTMinTrack cfg candType))
  && negb (gtb (Qabs (HfTagSelTracks.eta track)) (etaMaxTrack cfg candType))
  && (negb (HfTagSelTracks.doCutQuality cfg)
      || HfTagSelTracks.passesQuality cfg track)
  && isSelectedTrack (HfTagSelTracks.pTBinsTrack cfg)
       (HfTagSelTracks.cutsSingleTrack cfg) (HfTagSelTracks.pt track)
       (HfTagSelTracks.dcaXY track, HfTagSelTracks.dcaZ track)
       (Z.to_nat candType).

(** The number of entries of [hRejTracks] in the bin of candidate type
    [candType] and cut [iDebugCut] (1 for selected, 2 to 5 for the cuts). *)
Definition rejTracks (candType iDebugCut : Z) (reg : Registry) : nat :=
  entries "hRejTracks"
          (inject_Z ((HfTagSelTracks.nCuts + 1) * candType + iDebugCut)) reg.

(** A selection status of a bachelor row that the single-track selection
    may have written. *)
Definition bachelorTagged (isSelProng : Z) : bool :=
  TESTBIT isSelProng CandV0bachelor.

(** The number of rows of a table of bitmaps that have bit [i] set. *)
Definition rowsWithBit (i : Z) (rows : list Z) : nat :=
  length (List.filter (fun s => TESTBIT s i) rows).

(** The entry of [hEvents] made for a rejection, if it is made. *)
Definition hEventsEntry (b : bool) (reason : Z) : Registry :=
  if b then [("hEvents"%string, [inject_Z (3 + reason)])] else [].

(** The status either process function of [HfTagSelCollisions] starts the
    vertex selection with ([trig] for [processTrigSel]), and the one it
    writes. *)
Definition startStatus (trig : bool) (cfg : HfTagSelCollisions.Config)
    (collision : HfTagSelCollisions.Collision) : Z :=
  if trig && negb (triggerFired cfg collision) then SETBIT 0 Trigger else 0.

Definition statusOf (trig : bool) (cfg : HfTagSelCollisions.Config)
    (collision : HfTagSelCollisions.Collision) : Z :=
  fst (HfTagSelCollisions.selectVertex cfg collision
         (startStatus trig cfg collision) []).

(** The value of [statusProng] with the given bits for 2-prongs, 3-prongs
    and bachelors. *)
Definition statusProngOf (k2 k3 kB : bool) : Z :=
  (if k2 then BIT Cand2Prong else 0)
  + (if k3 then BIT Cand3Prong else 0)
  + (if kB then BIT CandV0bachelor else 0).

(** The entry of [hRejTracks] made for a candidate type and a cut, if it
    is made. *)
Definition hRejTracksEntry (b : bool) (candType iDebugCut : Z) : Registry :=
  if b
  then [("hRejTracks"%string,
         [inject_Z ((HfTagSelTracks.nCuts + 1) * candType + iDebugCut)])]
  else [].

(** The configuration of [HfTagSelTracks] with the two flags that steer
    the histograms replaced, and the cuts kept. *)
Definition withFlags (fillHistograms debug : bool)
    (cfg : HfTagSelTracks.Config) : HfTagSelTracks.Config :=
  {| HfTagSelTracks.fillHistograms := fillHistograms;
     HfTagSelTracks.debug := debug;
     HfTagSelTracks.doCutQuality := HfTagSelTracks.doCutQuality cfg;
     HfTagSelTracks.tpcNClsFound_value := HfTagSelTracks.tpcNClsFound_value cfg;
     HfTagSelTracks.pTBinsTrack := HfTagSelTracks.pTBinsTrack cfg;
     HfTagSelTracks.pTMinTrack2Prong := HfTagSelTracks.pTMinTrack2Prong cfg;
     HfTagSelTracks.cutsTrack2Prong := HfTagSelTracks.cutsTrack2Prong cfg;
     HfTagSelTracks.etaMax2Prong := HfTagSelTracks.etaMax2Prong cfg;
     HfTagSelTracks.pTMinTrack3Prong := HfTagSelTracks.pTMinTrack3Prong cfg;
     HfTagSelTracks.cutsTrack3Prong := HfTagSelTracks.cutsTrack3Prong cfg;
     HfTagSelTracks.etaMax3Prong := HfTagSelTracks.etaMax3Prong cfg;
     HfTagSelTracks.ptMinTrackBach := HfTagSelTracks.ptMinTrackBach cfg;
     HfTagSelTracks.cutsTrackBach := HfTagSelTracks.cutsTrackBach cfg;
     HfTagSelTracks.etaMaxBach := HfTagSelTracks.etaMaxBach cfg |}.

(** The row of [rowSelectedTrack] that belongs to a track. *)
Definition rowOfTrack {TF : TrackFlagsRun2Enum} (cfg : HfTagSelTracks.Config)
    (track : HfTagSelTracks.MY_TYPE1) : Z * Q * Q * Q :=
  (statusProngOf (keptFor cfg track Cand2Prong) (keptFor cfg track Cand3Prong)
                 (keptFor cfg track CandV0bachelor),
   HfTagSelTracks.px track, HfTagSelTracks.py track, HfTagSelTracks.pz track).

(* ===================================================================== *)
(** ** Vocabulary of the statements on the tables of [process] *)
(* ===================================================================== *)

(** A row of the 2-prong index table that names a pair the loops of
    [process] can have formed from [tracks]: the first track passed the
    sign test of the positive loop, the second that of the negative loop,
    both are tagged for 2-prongs, and the bitmap keeps at least one of the
    2-prong decays. *)
Definition fromPair (tracks : list Track) (row : Z * Z * Z) : Prop :=
  exists trackPos1 trackNeg1 : Track,
    In trackPos1 tracks /\ In trackNeg1 tracks
    /\ fst row = (globalIndex trackPos1, globalIndex trackNeg1)
    /\ (0 <= signed1Pt trackPos1)%Q /\ (signed1Pt trackNeg1 <= 0)%Q
    /\ TESTBIT (isSelProng trackPos1) Cand2Prong = true
    /\ TESTBIT (isSelProng trackNeg1) Cand2Prong = true
    /\ 0 < snd row < BIT (Z.of_nat n2ProngDecays).

(** A row of the 3-prong index table that names a triple the loops can
    have formed: three tracks tagged for 3-prongs, the middle one taken by
    the loop of the other sign than the outer two; the bitmap is a mask of
    the 3-prong decays, zero only in debug mode. *)
Definition fromTriple (cfg : Config) (tracks : list Track)
    (row : Z * Z * Z * Z) : Prop :=
  exists track0 track1 track2 : Track,
    In track0 tracks /\ In track1 tracks /\ In track2 tracks
    /\ fst row = (globalIndex track0, globalIndex track1, globalIndex track2)
    /\ TESTBIT (isSelProng track0) Cand3Prong = true
    /\ TESTBIT (isSelProng track1) Cand3Prong = true
    /\ TESTBIT (isSelProng track2) Cand3Prong = true
    /\ (((0 <= signed1Pt track0)%Q /\ (signed1Pt track1 <= 0)%Q
         /\ (0 <= signed1Pt track2)%Q)
        \/ ((signed1Pt track0 <= 0)%Q /\ (0 <= signed1Pt track1)%Q
            /\ (signed1Pt track2 <= 0)%Q))
    /\ 0 <= snd row < BIT (Z.of_nat n3ProngDecays)
    /\ (debug cfg = false -> 0 < snd row).

(** What [process] may do to the tables, from [ps] to [ps']: rows are
    only added, after those already there; the new index rows come from
    the given tracks, none of them of a 3-prong unless [do3prong] is 1; in
    debug mode there is one cut-status row, of one word per decay, for
    each new index row, and without debug the cut-status tables are left
    alone. *)
Definition rowsAdded (cfg : Config) (tracks : list Track)
    (ps ps' : ProcessState) : Prop :=
  exists (new2 : list (Z * Z * Z)) (status2 : list (list Z))
         (new3 : list (Z * Z * Z * Z)) (status3 : list (list Z)),
    rowTrackIndexProng2 ps' = rowTrackIndexProng2 ps ++ new2
    /\ rowProng2CutStatus ps' = rowProng2CutStatus ps ++ status2
    /\ rowTrackIndexProng3 ps' = rowTrackIndexProng3 ps ++ new3
    /\ rowProng3CutStatus ps' = rowProng3CutStatus ps ++ status3
    /\ Forall (fromPair tracks) new2
    /\ Forall (fromTriple cfg tracks) new3
    /\ (do3prong cfg <> 1 -> new3 = [])
    /\ length status2 = (if debug cfg then length new2 else 0%nat)
    /\ length status3 = (if debug cfg then length new3 else 0%nat)
    /\ Forall (fun words =>
                 length words = n2ProngDecays
                 /\ Forall (fun w => 0 <= w < BIT (Z.of_nat nCuts2Prong)) words)
              status2
    /\ Forall (fun words =>
                 length words = n3ProngDecays
                 /\ Forall (fun w => 0 <= w < BIT (Z.of_nat nCuts3Prong)) words)
              status3.

(* ===================================================================== *)
(** ** Vocabulary of the statements on the bitmap of a candidate *)
(* ===================================================================== *)

(** The decay-length comparison of a 3-prong candidate for decay [i];
    2-prong candidates have no such cut. *)
Definition decLFails {RD : RecoDecay} (cfg : Config) (c : Candidate)
    (pVecCand secVtx primVtx : array3) (i : nat) : bool :=
  match c with
  | Cand2 _ _ => false
  | Cand3 _ _ _ =>
      ltb (distance primVtx secVtx)
          (get_label (cutsOf cfg c i) (postBin cfg c pVecCand i) "decL")
  end.

(** Decay [i] passes every cut made before the vertex fit: a pT bin is
    found, the mass cut is off or one ordering is in the window, and the
    impact-parameter product of a 2-prong is small enough. *)
Definition passesPre {RD : RecoDecay} (cfg : Config) (c : Candidate)
    (i : nat) : bool :=
  negb (preBin cfg c i =? -1)
  && negb (massEnabled cfg c i && massFails cfg c i)
  && negb (d0d0Fails cfg c i).

(** Decay [i] passes every cut made after the vertex fit: a pT bin is
    found for the fitted momentum, the pointing angle is good enough and
    the decay length of a 3-prong long enough. *)
Definition passesPost {RD : RecoDecay} (cfg : Config) (c : Candidate)
    (pVecCand secVtx primVtx : array3) (i : nat) : bool :=
  negb (postBin cfg c pVecCand i =? -1)
  && negb (cospFails cfg c pVecCand secVtx primVtx i)
  && negb (decLFails cfg c pVecCand secVtx primVtx i).

(** The configuration with the flag [debug] replaced. *)
Definition withDebug (d : bool) (cfg : Config) : Config :=
  {| debug := d;
     do3prong := do3prong cfg;
     pTTolerance := pTTolerance cfg;
     arrMass2Prong := arrMass2Prong cfg;
     arrMass3Prong := arrMass3Prong cfg;
     cut2Prong := cut2Prong cfg;
     pTBins2Prong := pTBins2Prong cfg;
     cut3Prong := cut3Prong cfg;
     pTBins3Prong := pTBins3Prong cfg |}.

(* ===================================================================== *)
(** ** Vocabulary of the statements on the cascade task *)
(* ===================================================================== *)

(** The bachelor passes the selections made on it before the loop over
    the V0s. *)
Definition bachelorPasses {TF : TrackFlagsRun2Enum}
    (cfg : HfTrackIndexSkimsCreatorCascades.Config)
    (bach : HfTrackIndexSkimsCreatorCascades.MyTracks) : bool :=
  negb (HfTrackIndexSkimsCreatorCascades.isSelProng bach <? 4)
  && negb (HfTrackIndexSkimsCreatorCascades.TPCRefitBach cfg
           && (Z.land (HfTrackIndexSkimsCreatorCascades.trackType bach) TPCrefit
               =? 0))
  && negb (HfTrackIndexSkimsCreatorCascades.tpcNClsCrossedRows bach
           <? HfTrackIndexSkimsCreatorCascades.minCrossedRowsBach cfg).

(** The V0-bachelor pair gets a row: the outcome of [processV0]. *)
Definition pairGetsRow {TF : TrackFlagsRun2Enum} {RD : RecoDecay}
    {RM : RecoDecayM} {CF : HfTrackIndexSkimsCreatorCascades.CascadeFitter}
    (cfg : HfTrackIndexSkimsCreatorCascades.Config) (collision : array3)
    (bach : HfTrackIndexSkimsCreatorCascades.MyTracks)
    (v0 : HfTrackIndexSkimsCreatorCascades.V0Datas) : bool :=
  negb (length (HfTrackIndexSkimsCreatorCascades.rowTrackIndexCasc
                  (HfTrackIndexSkimsCreatorCascades.processV0 cfg collision bach v0
                     {| HfTrackIndexSkimsCreatorCascades.rowTrackIndexCasc := [];
                        HfTrackIndexSkimsCreatorCascades.registry := [] |}))
        =? 0)%nat.

(** The requirements on a V0-bachelor pair, as inequalities: on the
    bachelor, on the two daughters of the V0, on the V0 itself, on the
    invariant mass of the pair (no requirement when [cutCascInvMassLc] is
    negative), on the vertex fit and on the fitted pT. *)
Definition pairAccepted {TF : TrackFlagsRun2Enum} {RD : RecoDecay}
    {RM : RecoDecayM} {CF : HfTrackIndexSkimsCreatorCascades.CascadeFitter}
    (cfg : HfTrackIndexSkimsCreatorCascades.Config) (collision : array3)
    (bach : HfTrackIndexSkimsCreatorCascades.MyTracks)
    (v0 : HfTrackIndexSkimsCreatorCascades.V0Datas) : Prop :=
  let pos := HfTrackIndexSkimsCreatorCascades.posTrack v0 in
  let neg := HfTrackIndexSkimsCreatorCascades.negTrack v0 in
  let fit := HfTrackIndexSkimsCreatorCascades.fitter_process v0 bach in
  4 <= HfTrackIndexSkimsCreatorCascades.isSelProng bach
  /\ (HfTrackIndexSkimsCreatorCascades.TPCRefitBach cfg = true ->
      Z.land (HfTrackIndexSkimsCreatorCascades.trackType bach) TPCrefit <> 0)
  /\ HfTrackIndexSkimsCreatorCascades.minCrossedRowsBach cfg
       <= HfTrackIndexSkimsCreatorCascades.tpcNClsCrossedRows bach
  /\ (HfTrackIndexSkimsCreatorCascades.TPCRefitV0Daugh cfg = true ->
      Z.land (HfTrackIndexSkimsCreatorCascades.trackType pos) TPCrefit <> 0
      /\ Z.land (HfTrackIndexSkimsCreatorCascades.trackType neg) TPCrefit <> 0)
  /\ HfTrackIndexSkimsCreatorCascades.minCrossedRowsV0Daugh cfg
       <= HfTrackIndexSkimsCreatorCascades.tpcNClsCrossedRows pos
  /\ HfTrackIndexSkimsCreatorCascades.minCrossedRowsV0Daugh cfg
       <= HfTrackIndexSkimsCreatorCascades.tpcNClsCrossedRows neg
  /\ (HfTrackIndexSkimsCreatorCascades.ptMin cfg
        <= HfTrackIndexSkimsCreatorCascades.pt pos)%Q
  /\ (HfTrackIndexSkimsCreatorCascades.ptMin cfg
        <= HfTrackIndexSkimsCreatorCascades.pt neg)%Q
  /\ (Qabs (HfTrackIndexSkimsCreatorCascades.eta pos)
        <= HfTrackIndexSkimsCreatorCascades.etaMax cfg)%Q
  /\ (Qabs (HfTrackIndexSkimsCreatorCascades.eta neg)
        <= HfTrackIndexSkimsCreatorCascades.etaMax cfg)%Q
  /\ (Qabs (HfTrackIndexSkimsCreatorCascades.mK0Short v0
            - HfTrackIndexSkimsCreatorCascades.massK0s cfg)
        <= HfTrackIndexSkimsCreatorCascades.cutInvMassV0 cfg)%Q
  /\ (HfTrackIndexSkimsCreatorCascades.cosPAV0 cfg
        <= (let '(x, y, z) := collision in
            HfTrackIndexSkimsCreatorCascades.v0cosPA v0 x y z))%Q
  /\ ((HfTrackIndexSkimsCreatorCascades.cutCascInvMassLc cfg < 0)%Q
      \/ (Qabs (M [(HfTrackIndexSkimsCreatorCascades.px bach,
                    HfTrackIndexSkimsCreatorCascades.py bach,
                    HfTrackIndexSkimsCreatorCascades.pz bach);
                   (HfTrackIndexSkimsCreatorCascades.v0_px v0,
                    HfTrackIndexSkimsCreatorCascades.v0_py v0,
                    HfTrackIndexSkimsCreatorCascades.v0_pz v0)]
                  [HfTrackIndexSkimsCreatorCascades.massP cfg;
                   HfTrackIndexSkimsCreatorCascades.massK0s cfg]
                - HfTrackIndexSkimsCreatorCascades.massLc cfg)
            <= HfTrackIndexSkimsCreatorCascades.cutCascInvMassLc cfg)%Q)
  /\ nVertices fit <> 0
  /\ (HfTrackIndexSkimsCreatorCascades.cutCascPtCandMin cfg
        <= Pt [trackMomenta fit !!! 1%nat; trackMomenta fit !!! 0%nat])%Q.

(** The pair passes the sign tests of the two loops and both tracks are
    tagged for 2-prongs. *)
Definition pairEligible (trackPos1 trackNeg1 : Track) : bool :=
  negb (ltb (signed1Pt trackPos1) 0) && negb (gtb (signed1Pt trackNeg1) 0)
  && TESTBIT (isSelProng trackPos1) Cand2Prong
  && TESTBIT (isSelProng trackNeg1) Cand2Prong.

(** The bitmap a pair ends with and whether its row is filled, evaluated
    on its own: from the state a first candidate finds. *)
Definition pairOutcome {RD : RecoDecay} {DF : DCAFitter} (cfg : Config)
    (primVtx : array3) (trackPos1 trackNeg1 : Track) : Z * bool :=
  let r := evaluate2Prong cfg primVtx trackPos1 trackNeg1 noStatics
             (freshState n2ProngDecays nCuts2Prong [0; 0; 0]) in
  (isSelected (snd (fst r)), snd r).

(** The rows of the 2-prong index table for a collision: the eligible
    pairs whose row is filled, each positive track with every negative
    one, in the order of the track table. *)
Definition pairRows {RD : RecoDecay} {DF : DCAFitter} (cfg : Config)
    (primVtx : array3) (tracks : list Track) : list (Z * Z * Z) :=
  flat_map
    (fun trackPos1 =>
       flat_map
         (fun trackNeg1 =>
            if pairEligible trackPos1 trackNeg1
               && snd (pairOutcome cfg primVtx trackPos1 trackNeg1)
            then [(globalIndex trackPos1, globalIndex trackNeg1,
                   fst (pairOutcome cfg primVtx trackPos1 trackNeg1))]
            else [])
         tracks)
    tracks.

(** Decay [i] of the pair passes every cut, before the fit and after it
    at the fitted vertex and momentum. *)
Definition pairKeeps {RD : RecoDecay} {DF : DCAFitter} (cfg : Config)
    (primVtx : array3) (trackPos1 trackNeg1 : Track) (i : nat) : bool :=
  let fit := df2_process trackPos1 trackNeg1 in
  let pVecCandProng2 :=
    PVec [trackMomenta fit !!! 0%nat; trackMomenta fit !!! 1%nat] in
  passesPre cfg (Cand2 trackPos1 trackNeg1) i
  && passesPost cfg (Cand2 trackPos1 trackNeg1) pVecCandProng2
       (PCACandidate fit) primVtx i.

(** Iteration with an iterator, collecting what [f] gives for each row
    and the rows after it. *)
Fixpoint flat_map_after {A B : Type} (f : A -> list A -> list B)
    (rows : list A) : list B :=
  match rows with
  | [] => []
  | row :: after => f row after ++ flat_map_after f after
  end.

(** The bitmap a triple ends with and whether its row is filled,
    evaluated on its own; the tracks are in the order given to the
    fitter. *)
Definition tripleOutcome {RD : RecoDecay} {DF : DCAFitter} (cfg : Config)
    (primVtx : array3) (track0 track1 track2 : Track) : Z * bool :=
  let r := evaluate3Prong cfg primVtx track0 track1 track2 noStatics
             (freshState n3ProngDecays nCuts3Prong [0; 0; 0; 0]) in
  (isSelected (snd (fst r)), snd r).

Definition tripleRow {RD : RecoDecay} {DF : DCAFitter} (cfg : Config)
    (primVtx : array3) (track0 track1 track2 : Track) : list (Z * Z * Z * Z) :=
  if snd (tripleOutcome cfg primVtx track0 track1 track2)
  then [(globalIndex track0, globalIndex track1, globalIndex track2,
         fst (tripleOutcome cfg primVtx track0 track1 track2))]
  else [].

(** The track passes the sign test of a loop over positive (negative)
    tracks and is tagged for 3-prongs. *)
Definition positive3 (t : Track) : bool :=
  negb (ltb (signed1Pt t) 0) && TESTBIT (isSelProng t) Cand3Prong.

Definition negative3 (t : Track) : bool :=
  negb (gtb (signed1Pt t) 0) && TESTBIT (isSelProng t) Cand3Prong.

(** The rows of the 3-prong index table for a collision: for each pair
    of a positive-loop and a negative-loop track, the triples with a
    second positive-loop track taken after the first one in the table,
    then those with a second negative-loop track taken after the first
    one. *)
Definition tripleRows {RD : RecoDecay} {DF : DCAFitter} (cfg : Config)
    (primVtx : array3) (tracks : list Track) : list (Z * Z * Z * Z) :=
  flat_map_after
    (fun trackPos1 afterPos1 =>
       flat_map_after
         (fun trackNeg1 afterNeg1 =>
            if positive3 trackPos1 && negative3 trackNeg1
               && (do3prong cfg =? 1) && negb (length tracks <? 2)%nat
            then
              flat_map (fun trackPos2 =>
                          if positive3 trackPos2
                          then tripleRow cfg primVtx trackPos1 trackNeg1 trackPos2
                          else [])
                       afterPos1
              ++ flat_map (fun trackNeg2 =>
                             if negative3 trackNeg2
                             then tripleRow cfg primVtx trackNeg1 trackPos1 trackNeg2
                             else [])
                          afterNeg1
            else [])
         tracks)
    tracks.

(** Decay [i] of the triple passes every cut, before the fit and after it
    at the fitted vertex and momentum. *)
Definition tripleKeeps {RD : RecoDecay} {DF : DCAFitter} (cfg : Config)
    (primVtx : array3) (track0 track1 track2 : Track) (i : nat) : bool :=
  let fit := df3_process track0 track1 track2 in
  let pVecCandProng3 :=
    PVec [trackMomenta fit !!! 0%nat; trackMomenta fit !!! 1%nat;
          trackMomenta fit !!! 2%nat] in
  passesPre cfg (Cand3 track0 track1 track2) i
  && passesPost cfg (Cand3 track0 track1 track2) pVecCandProng3
       (PCACandidate fit) primVtx i.

(* ===================================================================== *)
(** ** Concrete tracks and cuts for the examples of the track selection *)
(* ===================================================================== *)

(** The run-2 values of the two track flags. *)
Definition run2Flags : TrackFlagsRun2Enum :=
  {| ITSrefit := 1; TPCrefit := 2 |}.

(** One pT bin, with |DCAxy| allowed between 0 and 10. *)
Definition cutsTrackOpen : LabeledArray :=
  {| colmap := [("min_dcaxytoprimary"%string, 0%nat);
                ("max_dcaxytoprimary"%string, 1%nat)];
     values := [[0; 10]]%Q |}.

(** The defaults of the configurables of [HfTagSelTracks], with the single
    pT bin [0, 100) and the cuts of [cutsTrackOpen] for every candidate
    type. *)
Definition selTracksDefaults (dbg : bool) : HfTagSelTracks.Config :=
  {| HfTagSelTracks.fillHistograms := true;
     HfTagSelTracks.debug := dbg;
     HfTagSelTracks.doCutQuality := true;
     HfTagSelTracks.tpcNClsFound_value := 70;
     HfTagSelTracks.pTBinsTrack := [0; 100]%Q;
     HfTagSelTracks.pTMinTrack2Prong := (-1)%Q;
     HfTagSelTracks.cutsTrack2Prong := cutsTrackOpen;
     HfTagSelTracks.etaMax2Prong := 4%Q;
     HfTagSelTracks.pTMinTrack3Prong := (-1)%Q;
     HfTagSelTracks.cutsTrack3Prong := cutsTrackOpen;
     HfTagSelTracks.etaMax3Prong := 4%Q;
     HfTagSelTracks.ptMinTrackBach := (3 # 10)%Q;
     HfTagSelTracks.cutsTrackBach := cutsTrackOpen;
     HfTagSelTracks.etaMaxBach := (8 # 10)%Q |}.

(** A track of pT 1 at pseudorapidity 1, with 100 TPC clusters, the ITS
    refit and a hit in the first ITS layer: good for 2- and 3-prongs, too
    forward for a bachelor. *)
Definition forwardTrack : HfTagSelTracks.MY_TYPE1 :=
  {| HfTagSelTracks.pt := 1%Q;
     HfTagSelTracks.eta := 1%Q;
     HfTagSelTracks.tpcNClsFound := 100;
     HfTagSelTracks.flags := 3;
     HfTagSelTracks.itsClusterMap := 1;
     HfTagSelTracks.dcaXY := (1 # 100)%Q;
     HfTagSelTracks.dcaZ := 0%Q;
     HfTagSelTracks.px := 1%Q;
     HfTagSelTracks.py := 0%Q;
     HfTagSelTracks.pz := 1%Q |}.

(* ===================================================================== *)
(** ** Comparisons and bit macros *)
(* ===================================================================== *)

Lemma ltb_lt (x y : Q) : ltb x y = true <-> (x < y)%Q.
Proof.
  unfold ltb. rewrite Qlt_alt.
  destruct (x ?= y)%Q; split; congruence.
Qed.

Lemma geb_le (x y : Q) : geb x y = true <-> (y <= x)%Q.
Proof.
  unfold geb. rewrite Qge_alt.
  destruct (x ?= y)%Q; split; congruence.
Qed.

Lemma gtb_gt (x y : Q) : gtb x y = true <-> (y < x)%Q.
Proof.
  unfold gtb. rewrite Qgt_alt.
  destruct (x ?= y)%Q; split; congruence.
Qed.

Lemma geb_negb_ltb (x y : Q) : geb x y = negb (ltb x y).
Proof. unfold geb, ltb. destruct (x ?= y)%Q; reflexivity. Qed.

Lemma ltb_false_le (x y : Q) : ltb x y = false <-> (y <= x)%Q.
Proof.
  rewrite <- geb_le, geb_negb_ltb. destruct (ltb x y); simpl; split; congruence.
Qed.

Lemma TESTBIT_testbit (n i : Z) : 0 <= i -> TESTBIT n i = Z.testbit n i.
Proof.
  intros Hi. unfold TESTBIT, BIT. rewrite Z.shiftl_1_l.
  destruct (Z.testbit n i) eqn:E.
  - apply negb_true_iff, Z.eqb_neq. intros H0.
    assert (Hb : Z.testbit (Z.land n (2 ^ i)) i = true).
    { rewrite Z.land_spec, E, Z.pow2_bits_true by assumption. reflexivity. }
    rewrite H0, Z.bits_0 in Hb. discriminate.
  - apply negb_false_iff, Z.eqb_eq. apply Z.bits_inj'. intros m Hm.
    rewrite Z.land_spec, Z.bits_0, Z.pow2_bits_eqb by assumption.
    destruct (Z.eqb_spec i m) as [->|]; [rewrite E; reflexivity | apply andb_false_r].
Qed.

Lemma CLRBIT_clearbit (n i : Z) : CLRBIT n i = Z.clearbit n i.
Proof. unfold CLRBIT, BIT, Z.clearbit. now rewrite Z.ldiff_land. Qed.

Lemma TESTBIT_CLRBIT (n i j : Z) :
  0 <= i -> 0 <= j ->
  TESTBIT (CLRBIT n i) j = TESTBIT n j && negb (i =? j).
Proof.
  intros Hi Hj. rewrite !TESTBIT_testbit, CLRBIT_clearbit by assumption.
  apply Z.clearbit_eqb.
Qed.

Lemma TESTBIT_CLRBIT_nat (n : Z) (i j : nat) :
  TESTBIT (CLRBIT n (Z.of_nat i)) (Z.of_nat j)
  = TESTBIT n (Z.of_nat j) && negb (Nat.eqb i j).
Proof.
  rewrite TESTBIT_CLRBIT by lia. f_equal. f_equal.
  destruct (Nat.eqb_spec i j); [apply Z.eqb_eq | apply Z.eqb_neq]; lia.
Qed.

Lemma TESTBIT_allset (n : nat) (i : nat) :
  (i < n)%nat -> TESTBIT (BIT (Z.of_nat n) - 1) (Z.of_nat i) = true.
Proof.
  intros Hi. rewrite TESTBIT_testbit by lia. unfold BIT.
  rewrite Z.shiftl_1_l, Z.sub_1_r, <- Z.ones_equiv. apply Z.ones_spec_low. lia.
Qed.

(* ===================================================================== *)
(** ** The cached column indices *)
(* ===================================================================== *)

Lemma fold_insert_seq {A : Type} (f : nat -> A) (n k : nat) (v : list A) :
  length v = (k + n)%nat ->
  fold_left (fun v i => <[i := f i]> v) (seq k n) v
  = take k v ++ map f (seq k n).
Proof.
  revert k v. induction n as [|n IH]; intros k v Hlen; simpl.
  - rewrite app_nil_r, take_ge; [reflexivity | lia].
  - rewrite IH by (rewrite length_insert; lia).
    assert (Hk : (k < length v)%nat) by lia.
    rewrite (take_S_r _ _ (f k)) by (apply list_lookup_insert_eq; exact Hk).
    rewrite take_insert_ge by lia.
    rewrite <- app_assoc. reflexivity.
Qed.

Lemma length_resize (n : nat) (v : list nat) : length (resize n v) = n.
Proof.
  unfold resize. rewrite length_app, length_take, length_replicate. lia.
Qed.

(** [cacheIndices] overwrites whatever the static vector held. *)
Lemma cacheColumn_map (cuts : list LabeledArray) (name : string) (v : list nat) :
  cacheColumn cuts name v
  = map (fun i => colmap_find (cuts !!! i) name) (seq 0 (length cuts)).
Proof.
  unfold cacheColumn.
  rewrite (fold_insert_seq (fun i => colmap_find (cuts !!! i) name))
    by (rewrite length_resize; lia).
  reflexivity.
Qed.

Lemma cacheColumn_lookup (cuts : list LabeledArray) (name : string)
    (v : list nat) (i : nat) :
  (i < length cuts)%nat ->
  cacheColumn cuts name v !!! i = colmap_find (cuts !!! i) name.
Proof.
  intros Hi. rewrite cacheColumn_map. apply list_lookup_total_correct.
  rewrite list_lookup_fmap, lookup_seq_lt by exact Hi. reflexivity.
Qed.

(* ===================================================================== *)
(** ** Views of the primitive updates *)
(* ===================================================================== *)

Lemma stagesOf_app (i : nat) (l1 l2 : list (nat * Stage)) :
  stagesOf i (l1 ++ l2) = stagesOf i l1 ++ stagesOf i l2.
Proof. unfold stagesOf. now rewrite filter_app, map_app. Qed.

Lemma stagesOf_one_eq (i : nat) (s : Stage) : stagesOf i [(i, s)] = [s].
Proof.
  unfold stagesOf. rewrite filter_cons_True by reflexivity. reflexivity.
Qed.

Lemma stagesOf_one_ne (i j : nat) (s : Stage) :
  i <> j -> stagesOf i [(j, s)] = [].
Proof.
  intros Hne. unfold stagesOf.
  rewrite filter_cons_False by (simpl; congruence). reflexivity.
Qed.

Lemma insert_lookup_same {A : Type} (l : list A) (i : nat) (x : A) :
  <[i:=x]> l !! i = (fun _ => x) <$> (l !! i).
Proof.
  destruct (l !! i) eqn:E; simpl.
  - apply list_lookup_insert_eq. eapply lookup_lt_Some; eassumption.
  - now apply list_lookup_insert_None.
Qed.

Lemma read_bit (i : nat) (st : CandState) :
  TESTBIT (isSelected st) (Z.of_nat i) = vbit (view i st).
Proof. reflexivity. Qed.

Lemma read_which (i : nat) (st : CandState) :
  whichHypo st !!! i = vwhich (view i st).
Proof. rewrite list_lookup_total_alt. reflexivity. Qed.

Lemma view_if (i : nat) (b : bool) (x y : CandState) :
  view i (if b then x else y) = if b then view i x else view i y.
Proof. now destruct b. Qed.

Lemma view_enter_eq (i : nat) (s : Stage) (st : CandState) :
  view i (enter i s st) = venter s (view i st).
Proof.
  unfold view, enter, venter; simpl.
  now rewrite stagesOf_app, stagesOf_one_eq.
Qed.

Lemma view_enter_ne (i j : nat) (s : Stage) (st : CandState) :
  i <> j -> view i (enter j s st) = view i st.
Proof.
  intros Hne. unfold view, enter; simpl.
  now rewrite stagesOf_app, stagesOf_one_ne, app_nil_r.
Qed.

Lemma view_set_whichHypo_eq (i : nat) (w : Z) (st : CandState) :
  view i (set_whichHypo i w st) = vset_whichHypo w (view i st).
Proof.
  unfold view, set_whichHypo, vset_whichHypo; simpl.
  now rewrite insert_lookup_same.
Qed.

Lemma view_set_whichHypo_ne (i j : nat) (w : Z) (st : CandState) :
  i <> j -> view i (set_whichHypo j w st) = view i st.
Proof.
  intros Hne. unfold view, set_whichHypo; simpl.
  now rewrite list_lookup_insert_ne by congruence.
Qed.

Lemma view_reject_eq (dbg : bool) (i c : nat) (st : CandState) :
  view i (reject dbg i c st) = vreject dbg c (view i st).
Proof.
  unfold view, reject, vreject, clear_cutStatus, clrbit_isSelected.
  destruct dbg; simpl;
    rewrite TESTBIT_CLRBIT_nat, Nat.eqb_refl, andb_false_r;
    [rewrite list_lookup_alter_eq|]; reflexivity.
Qed.

Lemma view_reject_ne (dbg : bool) (i j c : nat) (st : CandState) :
  i <> j -> view i (reject dbg j c st) = view i st.
Proof.
  intros Hne.
  unfold view, reject, clear_cutStatus, clrbit_isSelected.
  assert (Hji : Nat.eqb j i = false) by (apply Nat.eqb_neq; congruence).
  destruct dbg; simpl;
    rewrite TESTBIT_CLRBIT_nat, Hji, andb_true_r;
    [rewrite list_lookup_alter_ne by congruence|]; reflexivity.
Qed.

Create Rewrite HintDb view.
#[local] Hint Rewrite view_if view_enter_eq view_set_whichHypo_eq
  view_reject_eq : view.
#[local] Hint Rewrite view_enter_ne view_set_whichHypo_ne view_reject_ne
  using congruence : view.

(** Every read of the blocks for decay [i] goes through [view i]. *)
Ltac fold_reads i :=
  repeat match goal with
         | |- context [TESTBIT (isSelected ?x) (Z.of_nat i)] =>
             change (TESTBIT (isSelected x) (Z.of_nat i)) with (vbit (view i x))
         end;
  rewrite ?read_which.

Section BlockViews.

Context {RD : RecoDecay}.
Variable cfg : Config.

Ltac block_view i :=
  cbv zeta; fold_reads i; autorewrite with view; reflexivity.

Lemma view_massStage (i : nat) (massMin massMax : Q)
    (arrMom : list array3) (arrMass : list (list Q)) (st : CandState) :
  view i (massStage cfg i massMin massMax arrMom arrMass st)
  = vmassStage (debug cfg) massMin massMax
      (M2 arrMom (arrMass !!! 0%nat)) (M2 arrMom (arrMass !!! 1%nat))
      (view i st).
Proof. unfold massStage, vmassStage. block_view i. Qed.

Lemma view_d0d0Stage (i : nat) (d0d0Max : Q) (t0 t1 : Track) (st : CandState) :
  view i (d0d0Stage cfg i d0d0Max t0 t1 st)
  = vcutStage (debug cfg) StageD0D0 2
      (gtb (dcaXY t0 * dcaXY t1)%Q d0d0Max) (view i st).
Proof. unfold d0d0Stage, vcutStage. block_view i. Qed.

Lemma view_cospStage (i c : nat) (cospMin : Q) (primVtx secVtx pVec : array3)
    (st : CandState) :
  view i (cospStage cfg i c cospMin primVtx secVtx pVec st)
  = vcutStage (debug cfg) StageCosp c
      (ltb (CPA primVtx secVtx pVec) cospMin) (view i st).
Proof. unfold cospStage, vcutStage. block_view i. Qed.

Lemma view_decLStage (i : nat) (decLMin : Q) (primVtx secVtx : array3)
    (st : CandState) :
  view i (decLStage cfg i decLMin primVtx secVtx st)
  = vcutStage (debug cfg) StageDecL 3
      (ltb (distance primVtx secVtx) decLMin) (view i st).
Proof. unfold decLStage, vcutStage. block_view i. Qed.

(** A block for decay [j] leaves the view of any other decay alone. *)
Ltac frame_view :=
  cbv zeta; repeat (rewrite view_if); autorewrite with view;
  repeat match goal with |- context [if ?b then _ else _] => destruct b end;
  reflexivity.

Lemma frame_massStage (i j : nat) (massMin massMax : Q)
    (arrMom : list array3) (arrMass : list (list Q)) (st : CandState) :
  i <> j ->
  view i (massStage cfg j massMin massMax arrMom arrMass st) = view i st.
Proof. intros Hne. unfold massStage. frame_view. Qed.

Lemma frame_d0d0Stage (i j : nat) (d0d0Max : Q) (t0 t1 : Track) (st : CandState) :
  i <> j -> view i (d0d0Stage cfg j d0d0Max t0 t1 st) = view i st.
Proof. intros Hne. unfold d0d0Stage. frame_view. Qed.

Lemma frame_cospStage (i j c : nat) (cospMin : Q)
    (primVtx secVtx pVec : array3) (st : CandState) :
  i <> j -> view i (cospStage cfg j c cospMin primVtx secVtx pVec st) = view i st.
Proof. intros Hne. unfold cospStage. frame_view. Qed.

Lemma frame_decLStage (i j : nat) (decLMin : Q) (primVtx secVtx : array3)
    (st : CandState) :
  i <> j -> view i (decLStage cfg j decLMin primVtx secVtx st) = view i st.
Proof. intros Hne. unfold decLStage. frame_view. Qed.

End BlockViews.

#[local] Hint Rewrite @view_massStage @view_d0d0Stage @view_cospStage
  @view_decLStage : view.
#[local] Hint Rewrite @frame_massStage @frame_d0d0Stage @frame_cospStage
  @frame_decLStage using congruence : view.

(** A loop over the decays, seen from decay [i]: only iteration [i] counts. *)
Lemma view_fold_left (body : CandState -> nat -> CandState)
    (vbody : View -> View) (i : nat) :
  (forall st j, i <> j -> view i (body st j) = view i st) ->
  forall n k,
    ((k <= i < k + n)%nat -> forall st, view i (body st i) = vbody (view i st)) ->
    forall st,
      view i (fold_left body (seq k n) st)
      = if bool_decide (k <= i < k + n)%nat then vbody (view i st) else view i st.
Proof.
  intros Hframe. induction n as [|n IH]; intros k Hown st; simpl.
  - rewrite bool_decide_eq_false_2 by lia. reflexivity.
  - rewrite IH by (intros; apply Hown; lia).
    destruct (decide (i = k)) as [->|Hne].
    + rewrite bool_decide_eq_false_2 by lia.
      rewrite bool_decide_eq_true_2 by lia. apply Hown. lia.
    + rewrite Hframe by exact Hne.
      destruct (decide (S k <= i < S k + n)%nat).
      * rewrite !bool_decide_eq_true_2 by lia. reflexivity.
      * rewrite !bool_decide_eq_false_2 by lia. reflexivity.
Qed.

Section FunctionViews.

Context {RD : RecoDecay}.
Variable cfg : Config.
Hypothesis Hwf : wf_config cfg.

Ltac own_view i :=
  unfold vis2ProngPreselected, vis3ProngPreselected, vis2ProngSelected,
    vis3ProngSelected, get_label;
  cbv zeta; fold_reads i; autorewrite with view;
  rewrite ?cacheColumn_lookup
    by (destruct Hwf; unfold n2ProngDecays, n3ProngDecays in *; lia);
  reflexivity.

Ltac other_view :=
  cbv zeta; repeat (rewrite view_if); autorewrite with view;
  repeat match goal with |- context [if ?b then _ else _] => destruct b end;
  reflexivity.

Ltac loop_view i vbody :=
  rewrite (view_fold_left _ vbody i);
  [ destruct (decide (0 <= i < 0 + n2ProngDecays)%nat);
    destruct (decide (0 <= i < 0 + n3ProngDecays)%nat);
    rewrite ?bool_decide_eq_true_2 by (unfold n2ProngDecays, n3ProngDecays in *; lia);
    rewrite ?bool_decide_eq_false_2 by (unfold n2ProngDecays, n3ProngDecays in *; lia);
    reflexivity
  | intros ? ? ?; other_view
  | intros ? ?; own_view i ].

Lemma view_is2ProngPreselected (t0 t1 : Track) (sv : Statics)
    (st : CandState) (i : nat) :
  view i (snd (is2ProngPreselected cfg t0 t1 sv st))
  = if bool_decide (i < n2ProngDecays)%nat
    then vis2ProngPreselected cfg t0 t1 i (view i st) else view i st.
Proof.
  unfold is2ProngPreselected. cbv zeta. cbn [snd].
  unfold is2ProngPreselected_decay.
  loop_view i (vis2ProngPreselected cfg t0 t1 i).
Qed.

Lemma view_is3ProngPreselected (t0 t1 t2 : Track) (sv : Statics)
    (st : CandState) (i : nat) :
  view i (snd (is3ProngPreselected cfg t0 t1 t2 sv st))
  = if bool_decide (i < n3ProngDecays)%nat
    then vis3ProngPreselected cfg t0 t1 t2 i (view i st) else view i st.
Proof.
  unfold is3ProngPreselected. cbv zeta. cbn [snd].
  unfold is3ProngPreselected_decay.
  loop_view i (vis3ProngPreselected cfg t0 t1 t2 i).
Qed.

Lemma view_is2ProngSelected (pVec secVtx primVtx : array3) (sv : Statics)
    (st : CandState) (i : nat) :
  view i (snd (is2ProngSelected cfg pVec secVtx primVtx sv st))
  = if (debug cfg || (isSelected st >? 0)) && bool_decide (i < n2ProngDecays)%nat
    then vis2ProngSelected cfg pVec secVtx primVtx i (view i st) else view i st.
Proof.
  unfold is2ProngSelected. cbv zeta.
  destruct (debug cfg || (isSelected st >? 0)); [|reflexivity].
  cbn [snd andb]. unfold is2ProngSelected_decay.
  loop_view i (vis2ProngSelected cfg pVec secVtx primVtx i).
Qed.

Lemma view_is3ProngSelected (pVec secVtx primVtx : array3) (sv : Statics)
    (st : CandState) (i : nat) :
  view i (snd (is3ProngSelected cfg pVec secVtx primVtx sv st))
  = if (debug cfg || (isSelected st >? 0)) && bool_decide (i < n3ProngDecays)%nat
    then vis3ProngSelected cfg pVec secVtx primVtx i (view i st) else view i st.
Proof.
  unfold is3ProngSelected. cbv zeta.
  destruct (debug cfg || (isSelected st >? 0)); [|reflexivity].
  cbn [snd andb]. unfold is3ProngSelected_decay.
  loop_view i (vis3ProngSelected cfg pVec secVtx primVtx i).
Qed.

End FunctionViews.

(* ===================================================================== *)
(** ** The invariant-mass block *)
(* ===================================================================== *)

(** The comparison of the source, [m < min2 || m >= max2], is the
    complement of the half-open window. *)
Lemma outside_window_iff (massMin massMax m2 : Q) :
  ltb m2 (massMin ^ 2)%Q || geb m2 (massMax ^ 2)%Q = false
  <-> inMassWindow massMin massMax m2.
Proof.
  unfold inMassWindow. rewrite orb_false_iff, ltb_false_le.
  rewrite geb_negb_ltb, negb_false_iff, ltb_lt. reflexivity.
Qed.

Lemma vwhich_venter (s : Stage) (v : View) : vwhich (venter s v) = vwhich v.
Proof. destruct v as [[[b w] r] l]. reflexivity. Qed.

Lemma vwhich_vreject (dbg : bool) (c : nat) (v : View) :
  vwhich (vreject dbg c v) = vwhich v.
Proof. destruct v as [[[b w] r] l]. reflexivity. Qed.

Lemma vwhich_vcutStage (dbg : bool) (s : Stage) (c : nat) (fails : bool)
    (v : View) :
  vwhich (vcutStage dbg s c fails v) = vwhich v.
Proof.
  unfold vcutStage. destruct (dbg || vbit v), fails;
    rewrite ?vwhich_vreject, ?vwhich_venter; reflexivity.
Qed.

(** When the block is entered, [whichHypo] is 3 minus 1 for a first
    ordering outside the window, minus 2 for a second one outside. *)
Lemma vmassStage_entered (dbg : bool) (massMin massMax m0 m1 : Q) (v : View) :
  is_Some (snd (fst (fst v))) ->
  (dbg || vbit v) && geb massMin 0 && gtb massMax 0 = true ->
  vwhich (vmassStage dbg massMin massMax m0 m1 v)
  = 3 - (if ltb m0 (massMin ^ 2)%Q || geb m0 (massMax ^ 2)%Q then 1 else 0)
      - (if ltb m1 (massMin ^ 2)%Q || geb m1 (massMax ^ 2)%Q then 2 else 0).
Proof.
  destruct v as [[[b w] r] l]. intros [w0 Hw] Hguard. simpl in Hw. subst w.
  unfold vmassStage. cbv zeta. cbn [vset_whichHypo vbit fst snd fmap option_fmap option_map].
  cbn [vbit fst] in Hguard. rewrite Hguard.
  destruct (ltb m0 (massMin ^ 2)%Q || geb m0 (massMax ^ 2)%Q),
           (ltb m1 (massMin ^ 2)%Q || geb m1 (massMax ^ 2)%Q);
    reflexivity.
Qed.

(** When the block is not entered, [whichHypo] stays at its default. *)
Lemma vmassStage_skipped (dbg : bool) (massMin massMax m0 m1 : Q) (v : View) :
  (dbg || vbit v) && geb massMin 0 && gtb massMax 0 = false ->
  vmassStage dbg massMin massMax m0 m1 v = vset_whichHypo 3 v.
Proof.
  destruct v as [[[b w] r] l]. intros Hguard.
  unfold vmassStage. cbv zeta. cbn [vset_whichHypo vbit fst snd].
  cbn [vbit fst] in Hguard. rewrite Hguard. reflexivity.
Qed.

(* ===================================================================== *)
(** ** Either kind of candidate *)
(* ===================================================================== *)

Section CandidateViews.

Context {RD : RecoDecay}.
Variable cfg : Config.
Hypothesis Hwf : wf_config cfg.

Lemma view_preselected (c : Candidate) (sv : Statics) (st : CandState) (i : nat) :
  view i (snd (preselected cfg c sv st))
  = if bool_decide (i < nDecays c)%nat
    then vpreselected cfg c i (view i st) else view i st.
Proof.
  destruct c; simpl.
  - apply view_is2ProngPreselected, Hwf.
  - apply view_is3ProngPreselected, Hwf.
Qed.

Lemma view_selected (c : Candidate) (pVec secVtx primVtx : array3)
    (sv : Statics) (st : CandState) (i : nat) :
  view i (snd (selected cfg c pVec secVtx primVtx sv st))
  = if (debug cfg || (isSelected st >? 0)) && bool_decide (i < nDecays c)%nat
    then vselected cfg c pVec secVtx primVtx i (view i st) else view i st.
Proof.
  destruct c; simpl.
  - apply view_is2ProngSelected, Hwf.
  - apply view_is3ProngSelected, Hwf.
Qed.

(** With a bin found, the pre-vertex selection leaves in [whichHypo] what
    the mass block left there. *)
Lemma vwhich_vpreselected (c : Candidate) (i : nat) (v : View) :
  preBin cfg c i <> -1 ->
  vwhich (vpreselected cfg c i v)
  = vwhich (vmassStage (debug cfg) (massMinOf cfg c i) (massMaxOf cfg c i)
              (massHypo cfg c i 0) (massHypo cfg c i 1) (venter StagePt v)).
Proof.
  intros Hbin. apply Z.eqb_neq in Hbin.
  destruct c; unfold preBin, massMinOf, massMaxOf, massHypo in *;
    simpl in *; unfold vis2ProngPreselected, vis3ProngPreselected;
    cbv zeta; rewrite Hbin; rewrite ?vwhich_vcutStage; reflexivity.
Qed.

End CandidateViews.

Lemma is_Some_which (i : nat) (st : CandState) :
  (i < length (whichHypo st))%nat -> is_Some (snd (fst (fst (view i st)))).
Proof. intros Hi. simpl. now apply lookup_lt_is_Some. Qed.

Lemma venter_parts (s : Stage) (v : View) :
  vbit (venter s v) = vbit v /\
  snd (fst (fst (venter s v))) = snd (fst (fst v)) /\
  vrow (venter s v) = vrow v.
Proof. destruct v as [[[b w] r] l]. repeat split. Qed.

(* ===================================================================== *)
(** ** C1: the mass window is half open *)
(* ===================================================================== *)



(** The candidate of the tests: mass 1.87 under the first ordering, 2.5
    under the second, window [1.8, 1.95), product of impact parameters
    0.0005 against 0.001: the bit of the first decay stays set and
    [whichHypo] is 1. *)
Example first_ordering_only :
  TESTBIT (isSelected (snd (@preselected rdA (cfgA false) (Cand2 trackA trackB)
                              noStatics (freshState 3 4 [0; 0; 0])))) 0
  = true
  /\ whichHypo (snd (@preselected rdA (cfgA false) (Cand2 trackA trackB)
                       noStatics (freshState 3 4 [0; 0; 0]))) !! 0%nat
     = Some 1.
Proof. vm_compute. split; reflexivity. Qed.

(** The edges of the window [1, 2), squared [1, 4): a squared mass of 1
    passes (first ordering) and a squared mass of 4 does not (second). *)
Example window_edges :
  whichHypo
    (snd (@preselected (givenKinematics (29 # 10) massPi 1 4 1 1)
            (exampleConfig false [0; 10]%Q [[1; 2; 0; 1 # 1000]]%Q [])
            (Cand2 trackA trackB) noStatics (freshState 3 4 [0; 0; 0])))
    !! 0%nat
  = Some 1.
Proof. vm_compute. reflexivity. Qed.

(* ===================================================================== *)
(** ** C2: bits are only ever cleared *)
(* ===================================================================== *)

Lemma csc_refl (a : Z) : cleared_stays_cleared a a.
Proof. intros j H. exact H. Qed.

Lemma csc_trans (a b c : Z) :
  cleared_stays_cleared a b -> cleared_stays_cleared b c ->
  cleared_stays_cleared a c.
Proof. intros Hab Hbc j H. apply Hbc, Hab, H. Qed.

Lemma csc_CLRBIT (a : Z) (i : nat) :
  cleared_stays_cleared a (CLRBIT a (Z.of_nat i)).
Proof.
  intros j H. rewrite TESTBIT_CLRBIT_nat, H. reflexivity.
Qed.

Lemma csc_fold_left (body : CandState -> nat -> CandState) :
  (forall st i, cleared_stays_cleared (isSelected st) (isSelected (body st i))) ->
  forall l st,
    cleared_stays_cleared (isSelected st) (isSelected (fold_left body l st)).
Proof.
  intros Hbody. induction l as [|i l IH]; intros st; simpl.
  - apply csc_refl.
  - eapply csc_trans; [apply Hbody | apply IH].
Qed.

Lemma isSelected_reject (dbg : bool) (i c : nat) (st : CandState) :
  isSelected (reject dbg i c st) = CLRBIT (isSelected st) (Z.of_nat i).
Proof. unfold reject. destruct dbg; reflexivity. Qed.

(** A block either leaves the bitmap alone or clears the bit of its decay. *)
Ltac same_or_cleared :=
  cbv zeta;
  repeat match goal with
         | |- context [if ?b then _ else _] => destruct b
         end;
  rewrite ?isSelected_reject; simpl; auto.

Section Monotone.

Context {RD : RecoDecay}.
Variable cfg : Config.

Lemma isSelected_massStage (i : nat) (massMin massMax : Q)
    (arrMom : list array3) (arrMass : list (list Q)) (st : CandState) :
  let st' := massStage cfg i massMin massMax arrMom arrMass st in
  isSelected st' = isSelected st \/
  isSelected st' = CLRBIT (isSelected st) (Z.of_nat i).
Proof. unfold massStage. same_or_cleared. Qed.

Lemma isSelected_d0d0Stage (i : nat) (d0d0Max : Q) (t0 t1 : Track)
    (st : CandState) :
  let st' := d0d0Stage cfg i d0d0Max t0 t1 st in
  isSelected st' = isSelected st \/
  isSelected st' = CLRBIT (isSelected st) (Z.of_nat i).
Proof. unfold d0d0Stage. same_or_cleared. Qed.

Lemma isSelected_cospStage (i c : nat) (cospMin : Q)
    (primVtx secVtx pVec : array3) (st : CandState) :
  let st' := cospStage cfg i c cospMin primVtx secVtx pVec st in
  isSelected st' = isSelected st \/
  isSelected st' = CLRBIT (isSelected st) (Z.of_nat i).
Proof. unfold cospStage. same_or_cleared. Qed.

Lemma isSelected_decLStage (i : nat) (decLMin : Q) (primVtx secVtx : array3)
    (st : CandState) :
  let st' := decLStage cfg i decLMin primVtx secVtx st in
  isSelected st' = isSelected st \/
  isSelected st' = CLRBIT (isSelected st) (Z.of_nat i).
Proof. unfold decLStage. same_or_cleared. Qed.

Lemma csc_same_or_cleared (a b : Z) (i : nat) :
  b = a \/ b = CLRBIT a (Z.of_nat i) -> cleared_stays_cleared a b.
Proof. intros [-> | ->]; [apply csc_refl | apply csc_CLRBIT]. Qed.

Lemma csc_reject (i c : nat) (st : CandState) :
  cleared_stays_cleared (isSelected st) (isSelected (reject (debug cfg) i c st)).
Proof. rewrite isSelected_reject. apply csc_CLRBIT. Qed.

Lemma csc_massStage (i : nat) (massMin massMax : Q)
    (arrMom : list array3) (arrMass : list (list Q)) (st : CandState) :
  cleared_stays_cleared (isSelected st)
    (isSelected (massStage cfg i massMin massMax arrMom arrMass st)).
Proof. eapply csc_same_or_cleared, isSelected_massStage. Qed.

Lemma csc_d0d0Stage (i : nat) (d0d0Max : Q) (t0 t1 : Track) (st : CandState) :
  cleared_stays_cleared (isSelected st)
    (isSelected (d0d0Stage cfg i d0d0Max t0 t1 st)).
Proof. eapply csc_same_or_cleared, isSelected_d0d0Stage. Qed.

Lemma csc_cospStage (i c : nat) (cospMin : Q) (primVtx secVtx pVec : array3)
    (st : CandState) :
  cleared_stays_cleared (isSelected st)
    (isSelected (cospStage cfg i c cospMin primVtx secVtx pVec st)).
Proof. eapply csc_same_or_cleared, isSelected_cospStage. Qed.

Lemma csc_decLStage (i : nat) (decLMin : Q) (primVtx secVtx : array3)
    (st : CandState) :
  cleared_stays_cleared (isSelected st)
    (isSelected (decLStage cfg i decLMin primVtx secVtx st)).
Proof. eapply csc_same_or_cleared, isSelected_decLStage. Qed.

(** The loop bodies: the pT-bin rejection, or the blocks in sequence. *)
Ltac csc_body :=
  cbv zeta;
  match goal with
  | |- context [if ?b then _ else _] => destruct b
  end;
  [ apply (csc_reject _ _ (enter _ _ _))
  | repeat first
      [ apply (csc_massStage _ _ _ _ _ (enter _ _ _))
      | apply (csc_cospStage _ _ _ _ _ _ (enter _ _ _))
      | eapply csc_trans; [| first [apply csc_d0d0Stage | apply csc_decLStage]] ] ].

Lemma csc_preselected (c : Candidate) (sv : Statics) (st : CandState) :
  cleared_stays_cleared (isSelected st)
    (isSelected (snd (preselected cfg c sv st))).
Proof.
  destruct c; unfold preselected, is2ProngPreselected, is3ProngPreselected;
    cbv zeta; cbn [snd]; apply csc_fold_left; intros st' i.
  - unfold is2ProngPreselected_decay. csc_body.
  - unfold is3ProngPreselected_decay. csc_body.
Qed.

Lemma csc_selected (c : Candidate) (pVec secVtx primVtx : array3)
    (sv : Statics) (st : CandState) :
  cleared_stays_cleared (isSelected st)
    (isSelected (snd (selected cfg c pVec secVtx primVtx sv st))).
Proof.
  destruct c; unfold selected, is2ProngSelected, is3ProngSelected; cbv zeta;
    (destruct (debug cfg || (isSelected st >? 0)); [|apply csc_refl]);
    cbn [snd]; apply csc_fold_left; intros st' i.
  - unfold is2ProngSelected_decay. csc_body.
  - unfold is3ProngSelected_decay. csc_body.
Qed.

End Monotone.

(** C2.  The bitmap of a candidate starts with the bit of every decay set
    ([n2ProngBit], [n3ProngBit]).  Every block of the selections (the
    rejection itself, the mass, impact-parameter, pointing-angle and
    decay-length blocks) and every selection function, before or after the
    vertex fit, leaves clear each bit that was clear before it; so does the
    post-vertex selection run on the outcome of the pre-vertex one. *)
Theorem bitmask_monotone_clearing {RD : RecoDecay} (cfg : Config) :
  (forall i : nat, (i < n2ProngDecays)%nat -> TESTBIT n2ProngBit (Z.of_nat i) = true)
  /\ (forall i : nat, (i < n3ProngDecays)%nat -> TESTBIT n3ProngBit (Z.of_nat i) = true)
  /\ (forall i c st,
        cleared_stays_cleared (isSelected st)
          (isSelected (reject (debug cfg) i c st)))
  /\ (forall i massMin massMax arrMom arrMass st,
        cleared_stays_cleared (isSelected st)
          (isSelected (massStage cfg i massMin massMax arrMom arrMass st)))
  /\ (forall i d0d0Max t0 t1 st,
        cleared_stays_cleared (isSelected st)
          (isSelected (d0d0Stage cfg i d0d0Max t0 t1 st)))
  /\ (forall i c cospMin primVtx secVtx pVec st,
        cleared_stays_cleared (isSelected st)
          (isSelected (cospStage cfg i c cospMin primVtx secVtx pVec st)))
  /\ (forall i decLMin primVtx secVtx st,
        cleared_stays_cleared (isSelected st)
          (isSelected (decLStage cfg i decLMin primVtx secVtx st)))
  /\ (forall c sv st,
        cleared_stays_cleared (isSelected st)
          (isSelected (snd (preselected cfg c sv st))))
  /\ (forall c pVec secVtx primVtx sv st,
        cleared_stays_cleared (isSelected st)
          (isSelected (snd (selected cfg c pVec secVtx primVtx sv st))))
  /\ (forall c pVec secVtx primVtx sv sv' st,
        cleared_stays_cleared (isSelected st)
          (isSelected (snd (selected cfg c pVec secVtx primVtx sv'
                              (snd (preselected cfg c sv st)))))).
Proof.
  repeat split.
  - intros i Hi. apply TESTBIT_allset, Hi.
  - intros i Hi. apply TESTBIT_allset, Hi.
  - intros. apply csc_reject.
  - intros. apply csc_massStage.
  - intros. apply csc_d0d0Stage.
  - intros. apply csc_cospStage.
  - intros. apply csc_decLStage.
  - intros. apply csc_preselected.
  - intros. apply csc_selected.
  - intros. eapply csc_trans; [apply csc_preselected | apply csc_selected].
Qed.

(* ===================================================================== *)
(** ** C3: a disabled mass cut *)
(* ===================================================================== *)

Lemma mass_guard_disabled (b : bool) (massMin massMax : Q) :
  (massMin < 0)%Q \/ (massMax <= 0)%Q ->
  b && geb massMin 0 && gtb massMax 0 = false.
Proof.
  intros [Hmin | Hmax].
  - apply ltb_lt in Hmin. rewrite geb_negb_ltb, Hmin. simpl.
    now rewrite andb_false_r.
  - destruct (gtb massMax 0) eqn:E; [|apply andb_false_r].
    apply gtb_gt in E. exfalso. exact (Qlt_not_le _ _ E Hmax).
Qed.

Lemma massStage_disabled {RD : RecoDecay} (cfg : Config) (i : nat)
    (massMin massMax : Q) (arrMom : list array3) (arrMass : list (list Q))
    (st : CandState) :
  (massMin < 0)%Q \/ (massMax <= 0)%Q ->
  massStage cfg i massMin massMax arrMom arrMass st = set_whichHypo i 3 st.
Proof.
  intros H. unfold massStage. cbv zeta.
  rewrite mass_guard_disabled by exact H. reflexivity.
Qed.

(** The view after a pre-vertex selection whose mass cut is disabled. *)
Lemma vpreselected_disabled {RD : RecoDecay} (cfg : Config) (c : Candidate)
    (i : nat) (v : View) :
  preBin cfg c i <> -1 ->
  (massMinOf cfg c i < 0)%Q \/ (massMaxOf cfg c i <= 0)%Q ->
  vpreselected cfg c i v
  = match c with
    | Cand2 _ _ =>
        vcutStage (debug cfg) StageD0D0 2 (d0d0Fails cfg c i)
                  (vset_whichHypo 3 (venter StagePt v))
    | Cand3 _ _ _ => vset_whichHypo 3 (venter StagePt v)
    end.
Proof.
  intros Hbin Hoff. apply Z.eqb_neq in Hbin.
  destruct c; unfold preBin, massMinOf, massMaxOf, d0d0Fails in *;
    simpl in *; unfold vis2ProngPreselected, vis3ProngPreselected;
    cbv zeta; rewrite Hbin, vmassStage_skipped; auto using mass_guard_disabled.
Qed.



(* ===================================================================== *)
(** ** C4: which stages are entered *)
(* ===================================================================== *)

Ltac case_ifs :=
  repeat match goal with
         | |- context [if ?b then _ else _] => destruct b eqn:?
         end.

Section Stages.

Context {RD : RecoDecay}.
Variable cfg : Config.

Lemma vstages_vpreselected (c : Candidate) (i : nat) (v : View) :
  is_Some (snd (fst (fst v))) ->
  vstages (vpreselected cfg c i v) = vstages v ++ preStages cfg c i (vbit v).
Proof.
  destruct v as [[[b w] r] l]. intros [w0 Hw]. simpl in Hw. subst w.
  unfold preStages, massEnabled, massFails, outsideWindow.
  destruct c; unfold vpreselected, vis2ProngPreselected, vis3ProngPreselected,
    massMinOf, massMaxOf, massHypo, preBin, hasD0D0, vmassStage, vcutStage;
    cbn [cutsOf pTBinsOf arrMomOf arrMassOf venter vset_whichHypo vbit vwhich
         vstages fst snd fmap option_fmap option_map default andb];
    cbv zeta.
  - destruct (findBin _ _ =? -1); [reflexivity|].
    destruct (debug cfg), b, (geb _ 0), (gtb _ 0); cbn [orb andb negb];
      repeat match goal with
             | |- context [ltb ?x ?y || geb ?x ?z] =>
                 destruct (ltb x y || geb x z)
             end;
      try destruct (gtb _ _); simpl; rewrite <- ?app_assoc; reflexivity.
  - destruct (findBin _ _ =? -1); [reflexivity|].
    destruct (debug cfg), b, (geb _ 0), (gtb _ 0); cbn [orb andb negb];
      repeat match goal with
             | |- context [ltb ?x ?y || geb ?x ?z] =>
                 destruct (ltb x y || geb x z)
             end;
      simpl; rewrite <- ?app_assoc; reflexivity.
Qed.

Lemma vstages_vselected (c : Candidate) (pVec secVtx primVtx : array3)
    (i : nat) (v : View) :
  vstages (vselected cfg c pVec secVtx primVtx i v)
  = vstages v ++ postStages cfg c pVec secVtx primVtx i (vbit v).
Proof.
  destruct v as [[[b w] r] l].
  unfold postStages, cospFails.
  destruct c; unfold vselected, vis2ProngSelected, vis3ProngSelected,
    postBin, hasDecL, vcutStage;
    cbn [cutsOf pTBinsOf venter vbit vstages fst snd andb]; cbv zeta.
  - destruct (findBin _ _ =? -1); [reflexivity|].
    destruct (debug cfg), b; cbn [orb andb negb]; try destruct (ltb _ _);
      simpl; rewrite <- ?app_assoc; reflexivity.
  - destruct (findBin _ _ =? -1); [reflexivity|].
    destruct (debug cfg), b; cbn [orb andb negb];
      try destruct (ltb (CPA _ _ _) _); try destruct (ltb (distance _ _) _);
      simpl; rewrite <- ?app_assoc; reflexivity.
Qed.

(** With the sentinel bin, the pre-vertex selection only rejects. *)
Lemma vpreselected_sentinel (c : Candidate) (i : nat) (v : View) :
  preBin cfg c i = -1 ->
  vpreselected cfg c i v = vreject (debug cfg) 0 (venter StagePt v).
Proof.
  intros Hbin. apply Z.eqb_eq in Hbin.
  destruct c; unfold preBin in Hbin; simpl in *;
    unfold vis2ProngPreselected, vis3ProngPreselected; cbv zeta;
    rewrite Hbin; reflexivity.
Qed.

End Stages.




(** The candidate of the tests with pT 15, outside the bin [0, 10), in
    debug mode: the bit is cleared, only the pT-bin lookup is entered and
    the pre-vertex selection marks column 0 of the row, and nothing else,
    false. *)
Example outside_every_bin :
  TESTBIT (isSelected (snd (@preselected rdHigh (cfgA true) (Cand2 trackA trackB)
                              noStatics (freshState 3 4 [0; 0; 0])))) 0
  = false
  /\ cutStatus (snd (@preselected rdHigh (cfgA true) (Cand2 trackA trackB)
                       noStatics (freshState 3 4 [0; 0; 0]))) !! 0%nat
     = Some [false; true; true; true].
Proof. vm_compute. split; reflexivity. Qed.

(* ===================================================================== *)
(** ** C5: a track never paired with itself *)
(* ===================================================================== *)

(** An invariant of the state is kept by a loop whose body keeps it for
    every row, given what comes before and after the row. *)
Lemma for_each_invariant {S : Type} (Inv : S -> Prop)
    (body : Track -> list Track -> S -> S) (all : list Track) :
  (forall before row after s,
      all = before ++ row :: after -> Inv s -> Inv (body row after s)) ->
  forall s, Inv s -> Inv (for_each body all s).
Proof.
  intros Hbody.
  assert (H : forall rows before s,
             all = before ++ rows -> Inv s -> Inv (for_each body rows s)).
  { induction rows as [|row after IH]; intros before s Hall Hs; simpl.
    - exact Hs.
    - apply (IH (before ++ [row])).
      + rewrite <- app_assoc. exact Hall.
      + eapply Hbody; eassumption. }
  intros s. apply (H all []). reflexivity.
Qed.

Lemma NoDup_map_eq {A B : Type} (f : A -> B) (l : list A) (a b : A) :
  List.NoDup (map f l) -> In a l -> In b l -> f a = f b -> a = b.
Proof.
  induction l as [|x l IH]; intros Hnd Ha Hb Hf; [easy|].
  simpl in Hnd. apply List.NoDup_cons_iff in Hnd. destruct Hnd as [Hx Hnd].
  destruct Ha as [-> | Ha], Hb as [-> | Hb]; auto.
  - exfalso. apply Hx. rewrite Hf. now apply in_map.
  - exfalso. apply Hx. rewrite <- Hf. now apply in_map.
Qed.

Lemma NoDup_map_after {A B : Type} (f : A -> B) (before after : list A)
    (a b : A) :
  List.NoDup (map f (before ++ a :: after)) -> In b after -> f a <> f b.
Proof.
  rewrite map_app. simpl. intros Hnd Hb Hf.
  apply List.NoDup_remove_2 in Hnd. apply Hnd.
  apply in_or_app. right. rewrite Hf. now apply in_map.
Qed.

Section Distinct.

Context {RD : RecoDecay} {DF : DCAFitter}.
Variable cfg : Config.
Variable primVtx : array3.

Lemma rowsDistinct_process2Prong (t0 t1 : Track) (ps : ProcessState) :
  globalIndex t0 <> globalIndex t1 ->
  rowsDistinct ps -> rowsDistinct (process2Prong cfg primVtx t0 t1 ps).
Proof.
  intros Hne [H2 H3]. unfold process2Prong. cbv zeta.
  destruct (TESTBIT (isSelProng t0) Cand2Prong && TESTBIT (isSelProng t1) Cand2Prong);
    [|split; assumption].
  destruct (evaluate2Prong _ _ _ _ _ _) as [[sv' st'] fill].
  split; simpl; [|assumption].
  destruct fill; [|assumption].
  apply Forall_app. split; [assumption|]. now constructor.
Qed.

Lemma rowsDistinct_process3Prong (t0 t1 t2 : Track) (ps : ProcessState) :
  globalIndex t0 <> globalIndex t1 ->
  globalIndex t0 <> globalIndex t2 ->
  globalIndex t1 <> globalIndex t2 ->
  rowsDistinct ps -> rowsDistinct (process3Prong cfg primVtx t0 t1 t2 ps).
Proof.
  intros H01 H02 H12 [H2 H3]. unfold process3Prong.
  destruct (evaluate3Prong _ _ _ _ _ _ _) as [[sv' st'] fill].
  split; simpl; [assumption|].
  destruct fill; [|assumption].
  apply Forall_app. split; [assumption|]. now constructor.
Qed.

(** The sign tests of the loops, for a track whose [signed1Pt] is not 0. *)
Lemma positive_of_test (t : Track) :
  ~ (signed1Pt t == 0)%Q -> ltb (signed1Pt t) 0 = false -> (0 < signed1Pt t)%Q.
Proof.
  intros Hnz H. apply ltb_false_le in H.
  destruct (Qlt_le_dec 0 (signed1Pt t)) as [|Hle]; [assumption|].
  exfalso. apply Hnz. now apply Qle_antisym.
Qed.

Lemma negative_of_test (t : Track) :
  ~ (signed1Pt t == 0)%Q -> gtb (signed1Pt t) 0 = false -> (signed1Pt t < 0)%Q.
Proof.
  intros Hnz H.
  destruct (Qlt_le_dec (signed1Pt t) 0) as [|Hle]; [assumption|].
  destruct (Qlt_le_dec 0 (signed1Pt t)) as [Hlt|Hle'].
  - apply gtb_gt in Hlt. congruence.
  - exfalso. apply Hnz. now apply Qle_antisym.
Qed.

Lemma opposite_signs_differ (tracks : list Track) (p n : Track) :
  List.NoDup (map globalIndex tracks) -> In p tracks -> In n tracks ->
  (0 < signed1Pt p)%Q -> (signed1Pt n < 0)%Q ->
  globalIndex p <> globalIndex n.
Proof.
  intros Hnd Hp Hn Hpos Hneg Heq.
  assert (p = n) by (eapply NoDup_map_eq; eauto). subst n. lra.
Qed.

Variable tracks : list Track.
Hypothesis Hnd : List.NoDup (map globalIndex tracks).
Hypothesis Hnz : Forall (fun t => ~ (signed1Pt t == 0)%Q) tracks.

Lemma nonzero_in (t : Track) : In t tracks -> ~ (signed1Pt t == 0)%Q.
Proof. intros Hin. rewrite List.Forall_forall in Hnz. now apply Hnz. Qed.

Lemma rowsDistinct_loopPos2 (before1 after1 : list Track) (p1 n1 : Track)
    (ps : ProcessState) :
  tracks = before1 ++ p1 :: after1 ->
  In n1 tracks -> (0 < signed1Pt p1)%Q -> (signed1Pt n1 < 0)%Q ->
  rowsDistinct ps -> rowsDistinct (loopPos2 cfg primVtx p1 n1 after1 ps).
Proof.
  intros Htr Hn1 Hpos Hneg. unfold loopPos2.
  apply for_each_invariant. intros before2 p2 after2 s Hafter Hs.
  destruct (ltb (signed1Pt p2) 0) eqn:Esign; [exact Hs|].
  destruct (negb (TESTBIT (isSelProng p2) Cand3Prong)); [exact Hs|].
  assert (Hp2after : In p2 after1)
    by (rewrite Hafter; apply in_or_app; right; now left).
  assert (Hp1 : In p1 tracks)
    by (rewrite Htr; apply in_or_app; right; now left).
  assert (Hp2 : In p2 tracks)
    by (rewrite Htr; apply in_or_app; right; now right).
  apply rowsDistinct_process3Prong; [| |intros E; symmetry in E; revert E|exact Hs].
  - eapply opposite_signs_differ; eauto.
  - rewrite Htr in Hnd. eapply NoDup_map_after; eauto.
  - eapply opposite_signs_differ; eauto.
    apply positive_of_test; [now apply nonzero_in | exact Esign].
Qed.

Lemma rowsDistinct_loopNeg2 (before1 after1 : list Track) (p1 n1 : Track)
    (ps : ProcessState) :
  tracks = before1 ++ n1 :: after1 ->
  In p1 tracks -> (0 < signed1Pt p1)%Q -> (signed1Pt n1 < 0)%Q ->
  rowsDistinct ps -> rowsDistinct (loopNeg2 cfg primVtx p1 n1 after1 ps).
Proof.
  intros Htr Hp1 Hpos Hneg. unfold loopNeg2.
  apply for_each_invariant. intros before2 n2 after2 s Hafter Hs.
  destruct (gtb (signed1Pt n2) 0) eqn:Esign; [exact Hs|].
  destruct (negb (TESTBIT (isSelProng n2) Cand3Prong)); [exact Hs|].
  assert (Hn2after : In n2 after1)
    by (rewrite Hafter; apply in_or_app; right; now left).
  assert (Hn1 : In n1 tracks)
    by (rewrite Htr; apply in_or_app; right; now left).
  assert (Hn2 : In n2 tracks)
    by (rewrite Htr; apply in_or_app; right; now right).
  apply rowsDistinct_process3Prong; [intros E; symmetry in E; revert E| | |exact Hs].
  - eapply opposite_signs_differ; eauto.
  - rewrite Htr in Hnd. eapply NoDup_map_after; eauto.
  - eapply opposite_signs_differ; eauto.
    apply negative_of_test; [now apply nonzero_in | exact Esign].
Qed.

Lemma rowsDistinct_loopNeg1 (before1 after1 : list Track) (p1 : Track)
    (ps : ProcessState) :
  tracks = before1 ++ p1 :: after1 -> (0 < signed1Pt p1)%Q ->
  rowsDistinct ps -> rowsDistinct (loopNeg1 cfg primVtx tracks p1 after1 ps).
Proof.
  intros Htr Hpos. unfold loopNeg1. cbv zeta.
  apply for_each_invariant. intros beforeN n1 afterN s HtrN Hs.
  destruct (gtb (signed1Pt n1) 0) eqn:Esign; [exact Hs|].
  destruct (negb (TESTBIT (isSelProng n1) Cand2Prong)
            && negb (TESTBIT (isSelProng n1) Cand3Prong)); [exact Hs|].
  assert (Hp1 : In p1 tracks)
    by (rewrite Htr; apply in_or_app; right; now left).
  assert (Hn1 : In n1 tracks)
    by (rewrite HtrN; apply in_or_app; right; now left).
  assert (Hneg : (signed1Pt n1 < 0)%Q)
    by (apply negative_of_test; [now apply nonzero_in | exact Esign]).
  assert (Hs2 : rowsDistinct (process2Prong cfg primVtx p1 n1 s)).
  { apply rowsDistinct_process2Prong; [|exact Hs].
    eapply opposite_signs_differ; eauto. }
  destruct (do3prong cfg =? 1); [|exact Hs2].
  destruct (negb (TESTBIT (isSelProng p1) Cand3Prong)
            || negb (TESTBIT (isSelProng n1) Cand3Prong)); [exact Hs2|].
  destruct (length tracks <? 2)%nat; [exact Hs2|].
  eapply rowsDistinct_loopNeg2; eauto.
  eapply rowsDistinct_loopPos2; eauto.
Qed.

(** Away from [signed1Pt = 0] the loops never fill a row that names a
    track twice. *)
Lemma rowsDistinct_process (ps : ProcessState) :
  rowsDistinct ps -> rowsDistinct (process cfg primVtx tracks ps).
Proof.
  unfold process. apply for_each_invariant.
  intros before1 p1 after1 s Htr Hs.
  destruct (ltb (signed1Pt p1) 0) eqn:Esign; [exact Hs|].
  destruct (negb (TESTBIT (isSelProng p1) Cand2Prong)
            && negb (TESTBIT (isSelProng p1) Cand3Prong)); [exact Hs|].
  eapply rowsDistinct_loopNeg1; eauto.
  apply positive_of_test; [|exact Esign].
  apply nonzero_in. rewrite Htr. apply in_or_app. right. now left.
Qed.

End Distinct.

(** Three tracks of non-zero [signed1Pt]: every row names distinct tracks. *)
Example rows_of_three_tracks :
  tables (@process rdA (fitGiven 1) cfgOpen origin [trackA; trackB; trackC]
            (emptyTables [0; 0; 0] [0; 0; 0; 0]))
  = ([(0, 1, 7); (2, 1, 7)], [], [(0, 1, 2, 15)], []).
Proof. vm_compute. reflexivity. Qed.

(** C5, at the input where it fails.  A track whose [signed1Pt] is exactly
    0 passes both sign tests ([< 0] skips in the loops over positive
    tracks, [> 0] skips in the loops over negative tracks): with the tracks
    5 (zero) and 2 (positive), [process] fills the 2-prong row (5, 5) and
    the 3-prong row (5, 5, 2). *)
Theorem self_pairing_at_zero_signed1Pt :
  List.NoDup (map globalIndex [trackZero; trackC])
  /\ tables (@process rdA (fitGiven 1) cfgOpen origin [trackZero; trackC]
               (emptyTables [0; 0; 0] [0; 0; 0; 0]))
     = ([(5, 5, 7); (2, 5, 7)], [], [(5, 5, 2, 15)], []).
Proof.
  split.
  - repeat constructor; simpl; intuition discriminate.
  - vm_compute. reflexivity.
Qed.

(* ===================================================================== *)
(** ** C6: the pT-bin lookup *)
(* ===================================================================== *)

Lemma increasing_tail (e : Q) (edges : list Q) :
  increasing (e :: edges) -> increasing edges.
Proof. destruct edges; simpl; tauto. Qed.

Lemma increasing_lookup (edges : list Q) (a b : nat) (x y : Q) :
  increasing edges -> (a < b)%nat ->
  edges !! a = Some x -> edges !! b = Some y -> (x < y)%Q.
Proof.
  revert a b x. induction edges as [|e edges IH]; intros a b x Hinc Hab Ha Hb.
  - discriminate.
  - destruct b as [|b]; [lia|]. simpl in Hb.
    destruct edges as [|e' edges']; [discriminate|].
    destruct Hinc as [Hlt Hinc].
    destruct a as [|a]; simpl in Ha.
    + injection Ha as <-.
      destruct b as [|b]; simpl in Hb.
      * injection Hb as <-. exact Hlt.
      * assert (e' < y)%Q by (eapply (IH 0%nat (S b)); eauto; lia). lra.
    + eapply (IH a b); eauto. lia.
Qed.

Lemma increasing_le_last (e : Q) (edges : list Q) :
  increasing (e :: edges) -> (e <= lastEdge (e :: edges))%Q.
Proof.
  revert e. induction edges as [|e' edges IH]; intros e Hinc.
  - unfold lastEdge; simpl. lra.
  - destruct Hinc as [Hlt Hinc]. specialize (IH e' Hinc).
    unfold lastEdge in *. simpl in *. lra.
Qed.

Lemma lastEdge_cons (e e' : Q) (edges : list Q) :
  lastEdge (e :: e' :: edges) = lastEdge (e' :: edges).
Proof. reflexivity. Qed.

Lemma in_bin_iff (pT lo hi : Q) :
  geb pT lo && ltb pT hi = true <-> (lo <= pT)%Q /\ (pT < hi)%Q.
Proof. now rewrite andb_true_iff, geb_le, ltb_lt. Qed.

(** A result other than the sentinel names a bin that holds [pT]. *)
Lemma findBin_from_found (edges : list Q) (pT : Q) (i : Z) :
  0 <= i -> findBin_from i edges pT <> -1 ->
  exists (k : nat) (lo hi : Q),
    findBin_from i edges pT = i + Z.of_nat k
    /\ edges !! k = Some lo /\ edges !! S k = Some hi
    /\ (lo <= pT)%Q /\ (pT < hi)%Q.
Proof.
  revert i. induction edges as [|lo edges IH]; intros i Hi Hne; [easy|].
  destruct edges as [|hi edges]; [easy|]. simpl in *.
  destruct (geb pT lo && ltb pT hi) eqn:E.
  - apply in_bin_iff in E. exists 0%nat, lo, hi.
    repeat split; try tauto. lia.
  - destruct (IH (i + 1)) as (k & lo' & hi' & Hr & Hk & HSk & Hb);
      [lia | exact Hne |].
    exists (S k), lo', hi'. repeat split; try tauto. rewrite Hr. lia.
Qed.

(** The bin that holds [pT] is the result. *)
Lemma findBin_from_bin (edges : list Q) (pT : Q) (i : Z) (k : nat) (lo hi : Q) :
  increasing edges ->
  edges !! k = Some lo -> edges !! S k = Some hi ->
  (lo <= pT)%Q -> (pT < hi)%Q ->
  findBin_from i edges pT = i + Z.of_nat k.
Proof.
  revert i k. induction edges as [|e0 edges IH]; intros i k Hinc Hk HSk Hlo Hhi;
    [discriminate|].
  destruct edges as [|e1 edges]; [discriminate|].
  destruct k as [|k].
  - simpl in Hk, HSk. injection Hk as <-. injection HSk as <-.
    simpl. rewrite (proj2 (in_bin_iff pT e0 e1)) by tauto. lia.
  - assert (He1 : (e1 <= lo)%Q).
    { destruct k as [|k].
      - simpl in Hk. injection Hk as <-. lra.
      - assert (e1 < lo)%Q; [|lra].
        apply (increasing_lookup (e0 :: e1 :: edges) 1 (S (S k)));
          auto; lia. }
    change (findBin_from i (e0 :: e1 :: edges) pT)
      with (if geb pT e0 && ltb pT e1 then i
            else findBin_from (i + 1) (e1 :: edges) pT).
    destruct (geb pT e0 && ltb pT e1) eqn:E.
    + apply in_bin_iff in E. lra.
    + rewrite (IH (i + 1) k); eauto using increasing_tail. lia.
Qed.

(** The sentinel is returned exactly outside [edges[0], edges[last]). *)
Lemma findBin_from_sentinel (e0 : Q) (edges : list Q) (pT : Q) (i : Z) :
  increasing (e0 :: edges) -> 0 <= i ->
  findBin_from i (e0 :: edges) pT = -1
  <-> (pT < e0)%Q \/ (lastEdge (e0 :: edges) <= pT)%Q.
Proof.
  revert e0 i. induction edges as [|e1 edges IH]; intros e0 i Hinc Hi.
  - unfold lastEdge; simpl. split; [intros _|reflexivity].
    destruct (Qlt_le_dec pT e0); auto.
  - change (findBin_from i (e0 :: e1 :: edges) pT)
      with (if geb pT e0 && ltb pT e1 then i
            else findBin_from (i + 1) (e1 :: edges) pT).
    rewrite lastEdge_cons.
    pose proof (increasing_le_last e1 edges (increasing_tail _ _ Hinc)) as Hlast.
    destruct Hinc as [Hlt Hinc].
    destruct (geb pT e0 && ltb pT e1) eqn:E.
    + apply in_bin_iff in E. split; [lia | intros [H | H]; lra].
    + rewrite IH by (auto; lia).
      assert (Hout : ~ ((e0 <= pT)%Q /\ (pT < e1)%Q)).
      { rewrite <- in_bin_iff, E. discriminate. }
      split; intros [H | H]; auto.
      * left. destruct (Qlt_le_dec pT e0); [assumption | tauto].
      * left. lra.
Qed.




(* ===================================================================== *)
(** ** C7: a failed vertex fit *)
(* ===================================================================== *)

Section FitFailure.

Context {RD : RecoDecay} {DF : DCAFitter}.
Variable cfg : Config.
Variable primVtx : array3.

Lemma evaluate2Prong_fit_failed (t0 t1 : Track) (sv : Statics) (st : CandState) :
  nVertices (df2_process t0 t1) = 0 ->
  snd (evaluate2Prong cfg primVtx t0 t1 sv st) = false.
Proof.
  intros Hfit. unfold evaluate2Prong.
  destruct (is2ProngPreselected cfg t0 t1 sv st) as [sv1 st1].
  rewrite Hfit. change (0 >? 0) with false. rewrite andb_false_r. reflexivity.
Qed.

Lemma evaluate3Prong_fit_failed (t0 t1 t2 : Track) (sv : Statics)
    (st : CandState) :
  nVertices (df3_process t0 t1 t2) = 0 ->
  snd (evaluate3Prong cfg primVtx t0 t1 t2 sv st) = false.
Proof.
  intros Hfit. unfold evaluate3Prong.
  destruct (is3ProngPreselected cfg t0 t1 t2 sv st) as [sv1 st1].
  rewrite Hfit. change (0 =? 0) with true.
  destruct (negb (debug cfg) && (isSelected st1 =? 0)); reflexivity.
Qed.

Lemma tables_process2Prong (t0 t1 : Track) (ps : ProcessState) :
  snd (evaluate2Prong cfg primVtx t0 t1 (statics ps) (start2Prong cfg ps)) = false ->
  tables (process2Prong cfg primVtx t0 t1 ps) = tables ps.
Proof.
  intros Hfill. unfold process2Prong. cbv zeta.
  destruct (TESTBIT (isSelProng t0) Cand2Prong && TESTBIT (isSelProng t1) Cand2Prong);
    [|reflexivity].
  destruct (evaluate2Prong cfg primVtx t0 t1 (statics ps) (start2Prong cfg ps))
    as [[sv' st'] fill].
  simpl in Hfill. subst fill. reflexivity.
Qed.

Lemma tables_process3Prong (t0 t1 t2 : Track) (ps : ProcessState) :
  snd (evaluate3Prong cfg primVtx t0 t1 t2 (statics ps) (start3Prong cfg ps)) = false ->
  tables (process3Prong cfg primVtx t0 t1 t2 ps) = tables ps.
Proof.
  intros Hfill. unfold process3Prong.
  destruct (evaluate3Prong cfg primVtx t0 t1 t2 (statics ps) (start3Prong cfg ps))
    as [[sv' st'] fill].
  simpl in Hfill. subst fill. reflexivity.
Qed.

End FitFailure.

(** C7.  When the fitter reports no vertex for the tracks of an enumerated
    combination, the part of [process] run for that combination leaves the
    four output tables as they were; it is a total function, and either
    second loop goes on with the rows after the third track, from a state
    with the same tables. *)
Theorem fit_failure_fills_no_row {RD : RecoDecay} {DF : DCAFitter}
    (cfg : Config) (primVtx : array3) (c : Candidate) (ps : ProcessState) :
  nVertices (fitOf c) = 0 ->
  tables (processCandidate cfg primVtx c ps) = tables ps
  /\ (forall t0 t1 t2 rest,
        c = Cand3 t0 t1 t2 ->
        (exists ps',
           tables ps' = tables ps
           /\ loopPos2 cfg primVtx t0 t1 (t2 :: rest) ps
              = loopPos2 cfg primVtx t0 t1 rest ps')
        /\ (exists ps',
              tables ps' = tables ps
              /\ loopNeg2 cfg primVtx t1 t0 (t2 :: rest) ps
                 = loopNeg2 cfg primVtx t1 t0 rest ps')).
Proof.
  intros Hfit. split.
  - destruct c; simpl in *.
    + apply tables_process2Prong. now apply evaluate2Prong_fit_failed.
    + apply tables_process3Prong. now apply evaluate3Prong_fit_failed.
  - intros t0 t1 t2 rest ->. simpl in Hfit.
    pose proof (tables_process3Prong cfg primVtx t0 t1 t2 ps
                  (evaluate3Prong_fit_failed cfg primVtx t0 t1 t2 _ _ Hfit))
      as Htab.
    unfold loopPos2, loopNeg2. simpl. split.
    + destruct (ltb (signed1Pt t2) 0);
        [|destruct (negb (TESTBIT (isSelProng t2) Cand3Prong))];
        eexists; (split; [|reflexivity]); auto.
    + destruct (gtb (signed1Pt t2) 0);
        [|destruct (negb (TESTBIT (isSelProng t2) Cand3Prong))];
        eexists; (split; [|reflexivity]); auto.
Qed.

(** The theorem at the example pair with a fitter that finds no vertex. *)
Lemma fit_failure_fills_no_row_witness :
  tables (@processCandidate rdA (fitGiven 0) (cfgA false) origin
            (Cand2 trackA trackB) (emptyTables [0; 0; 0] [0; 0; 0; 0]))
  = ([], [], [], []).
Proof.
  apply (@fit_failure_fills_no_row rdA (fitGiven 0) (cfgA false) origin
           (Cand2 trackA trackB) (emptyTables [0; 0; 0] [0; 0; 0; 0])).
  reflexivity.
Defined.

(* ===================================================================== *)
(** ** C8: what the selection depends on *)
(* ===================================================================== *)

Section Determinism.

Context {RD : RecoDecay}.
Variable cfg : Config.

(** The bit a pre-vertex selection leaves for decay [i] depends on the
    bit it found; with a bin found, so does [whichHypo[i]]. *)
Lemma vpreselected_bit_which (c : Candidate) (i : nat) (b : bool)
    (w1 w2 : Z) (r1 r2 : option (list bool)) (l1 l2 : list Stage) :
  let v1 := vpreselected cfg c i (b, Some w1, r1, l1) in
  let v2 := vpreselected cfg c i (b, Some w2, r2, l2) in
  vbit v1 = vbit v2
  /\ (preBin cfg c i <> -1 -> snd (fst (fst v1)) = snd (fst (fst v2))).
Proof.
  destruct c; unfold vpreselected, vis2ProngPreselected, vis3ProngPreselected,
    preBin, vmassStage, vcutStage;
    cbn [cutsOf pTBinsOf arrMomOf arrMassOf venter vset_whichHypo vbit vwhich
         vstages fst snd fmap option_fmap option_map default andb];
    cbv zeta.
  - destruct (findBin _ _ =? -1) eqn:Ebin.
    + apply Z.eqb_eq in Ebin. split; [reflexivity | congruence].
    + destruct (debug cfg), b, (geb _ 0), (gtb _ 0); cbn [orb andb negb];
        repeat match goal with
               | |- context [ltb ?x ?y || geb ?x ?z] =>
                   destruct (ltb x y || geb x z)
               end;
        try destruct (gtb _ _); simpl; split; reflexivity.
  - destruct (findBin _ _ =? -1) eqn:Ebin.
    + apply Z.eqb_eq in Ebin. split; [reflexivity | congruence].
    + destruct (debug cfg), b, (geb _ 0), (gtb _ 0); cbn [orb andb negb];
        repeat match goal with
               | |- context [ltb ?x ?y || geb ?x ?z] =>
                   destruct (ltb x y || geb x z)
               end;
        simpl; split; reflexivity.
Qed.

End Determinism.

Lemma TESTBIT_inj (a b : Z) :
  (forall j : nat, TESTBIT a (Z.of_nat j) = TESTBIT b (Z.of_nat j)) -> a = b.
Proof.
  intros H. apply Z.bits_inj'. intros n Hn.
  specialize (H (Z.to_nat n)). rewrite Z2Nat.id in H by exact Hn.
  now rewrite !TESTBIT_testbit in H by exact Hn.
Qed.





(* ===================================================================== *)
(** ** C9: the pT bin before and after the vertex fit *)
(* ===================================================================== *)

Lemma get_label_sameRow (a a' : LabeledArray) (y : Z) (name : string) :
  sameRow a a' y -> get_label a y name = get_label a' y name.
Proof.
  intros [Hcol Hrow]. unfold get_label, get, colmap_find.
  rewrite Hcol, !(list_lookup_total_alt (values _)), Hrow. reflexivity.
Qed.

Section Rows.

Context {RD : RecoDecay}.
Variables cfg cfg' : Config.
Hypothesis Hsame : sameButCuts cfg cfg'.

Lemma preBin_sameButCuts (c : Candidate) (i : nat) :
  preBin cfg c i = preBin cfg' c i.
Proof.
  destruct Hsame as (_ & Htol & _ & _ & Hb2 & Hb3).
  destruct c; unfold preBin; simpl; now rewrite Htol, ?Hb2, ?Hb3.
Qed.

Lemma postBin_sameButCuts (c : Candidate) (pVec : array3) (i : nat) :
  postBin cfg c pVec i = postBin cfg' c pVec i.
Proof.
  destruct Hsame as (_ & _ & _ & _ & Hb2 & Hb3).
  destruct c; unfold postBin; simpl; now rewrite ?Hb2, ?Hb3.
Qed.

(** Before the fit, decay [i] is judged with the row of [preBin] only. *)
Lemma vpreselected_row (c : Candidate) (i : nat) (v : View) :
  sameRow (cutsOf cfg c i) (cutsOf cfg' c i) (preBin cfg c i) ->
  vpreselected cfg c i v = vpreselected cfg' c i v.
Proof.
  intros Hrow. pose proof (preBin_sameButCuts c i) as Hbin.
  destruct Hsame as (Hdbg & Htol & Hm2 & Hm3 & Hb2 & Hb3).
  destruct c; unfold preBin in *; simpl in *;
    unfold vis2ProngPreselected, vis3ProngPreselected; cbv zeta;
    rewrite <- ?Hbin, <- ?Hdbg, <- ?Hm2, <- ?Hm3, <- ?Hb2, <- ?Hb3, <- ?Htol;
    rewrite <- !(get_label_sameRow _ _ _ _ Hrow); reflexivity.
Qed.

(** After the fit, it is judged with the row of [postBin] only. *)
Lemma vselected_row (c : Candidate) (pVec secVtx primVtx : array3)
    (i : nat) (v : View) :
  sameRow (cutsOf cfg c i) (cutsOf cfg' c i) (postBin cfg c pVec i) ->
  vselected cfg c pVec secVtx primVtx i v
  = vselected cfg' c pVec secVtx primVtx i v.
Proof.
  intros Hrow. pose proof (postBin_sameButCuts c pVec i) as Hbin.
  destruct Hsame as (Hdbg & Htol & Hm2 & Hm3 & Hb2 & Hb3).
  destruct c; unfold postBin in *; simpl in *;
    unfold vis2ProngSelected, vis3ProngSelected; cbv zeta;
    rewrite <- ?Hbin, <- ?Hdbg, <- ?Hb2, <- ?Hb3;
    rewrite <- !(get_label_sameRow _ _ _ _ Hrow); reflexivity.
Qed.

End Rows.



(** The same candidate: bin 1 before the fit, bin 0 after it. *)
Example bins_of_the_edge_candidate :
  @preBin rdEdge (cfgTwoRows [-1; 0; 0; 0]%Q) (Cand2 trackA trackB) 0 = 1
  /\ @postBin rdEdge (cfgTwoRows [-1; 0; 0; 0]%Q) (Cand2 trackA trackB)
       origin 0 = 0.
Proof. vm_compute. split; reflexivity. Qed.

(* ===================================================================== *)
(** ** C10: rows for a zero bitmap *)
(* ===================================================================== *)

(** With a vertex found, the example pair fills the row of its bitmap. *)
Example example_pair_is_filled :
  tables (@processCandidate rdA (fitGiven 1) (cfgA false) origin
            (Cand2 trackA trackB) (emptyTables [0; 0; 0] [0; 0; 0; 0]))
  = ([(0, 1, 1)], [], [], []).
Proof. vm_compute. reflexivity. Qed.

Section ZeroBitmap.

Context {RD : RecoDecay} {DF : DCAFitter}.
Variable cfg : Config.
Variable primVtx : array3.

Lemma evaluate3Prong_debug (t0 t1 t2 : Track) (sv : Statics) (st : CandState) :
  debug cfg = true ->
  nVertices (df3_process t0 t1 t2) <> 0 ->
  snd (evaluate3Prong cfg primVtx t0 t1 t2 sv st) = true.
Proof.
  intros Hdbg Hfit. apply Z.eqb_neq in Hfit. unfold evaluate3Prong.
  destruct (is3ProngPreselected cfg t0 t1 t2 sv st) as [sv1 st1].
  rewrite Hdbg, Hfit. simpl.
  destruct (is3ProngSelected _ _ _ _ _ _) as [sv2 st2]. reflexivity.
Qed.

Lemma evaluate2Prong_filled (t0 t1 : Track) (sv : Statics) (st : CandState) :
  snd (evaluate2Prong cfg primVtx t0 t1 sv st) = true ->
  0 < isSelected (snd (fst (evaluate2Prong cfg primVtx t0 t1 sv st))).
Proof.
  unfold evaluate2Prong.
  destruct (is2ProngPreselected cfg t0 t1 sv st) as [sv1 st1].
  destruct ((isSelected st1 >? 0) && _); [|discriminate].
  destruct (is2ProngSelected _ _ _ _ _ _) as [sv2 st2]. simpl.
  intros H. apply Z.gtb_lt in H. exact H.
Qed.

End ZeroBitmap.

(** C10.  In debug mode a 3-prong combination for which the fitter found a
    vertex fills one row of the 3-prong index table, with the bitmap its
    selections ended with, and one row of the cut status, also when that
    bitmap is zero.  A 2-prong combination leaves its index table alone or
    fills one row with a positive bitmap, with debug on or off. *)
Theorem zero_bitmap_rows {RD : RecoDecay} {DF : DCAFitter}
    (cfg : Config) (primVtx : array3) (t0 t1 t2 : Track) (ps : ProcessState) :
  debug cfg = true ->
  nVertices (df3_process t0 t1 t2) <> 0 ->
  let ps3 := process3Prong cfg primVtx t0 t1 t2 ps in
  let mask := isSelected (snd (fst (evaluate3Prong cfg primVtx t0 t1 t2
                                      (statics ps) (start3Prong cfg ps)))) in
  rowTrackIndexProng3 ps3
  = rowTrackIndexProng3 ps
    ++ [(globalIndex t0, globalIndex t1, globalIndex t2, mask)]
  /\ (exists status, rowProng3CutStatus ps3 = rowProng3CutStatus ps ++ [status])
  /\ (forall cfg' ps',
        let ps2 := process2Prong cfg' primVtx t0 t1 ps' in
        rowTrackIndexProng2 ps2 = rowTrackIndexProng2 ps'
        \/ exists mask2,
             0 < mask2
             /\ rowTrackIndexProng2 ps2
                = rowTrackIndexProng2 ps'
                  ++ [(globalIndex t0, globalIndex t1, mask2)]).
Proof.
  intros Hdbg Hfit ps3 mask. subst ps3 mask.
  pose proof (evaluate3Prong_debug cfg primVtx t0 t1 t2 (statics ps)
                (start3Prong cfg ps) Hdbg Hfit) as Hfill.
  unfold process3Prong.
  destruct (evaluate3Prong cfg primVtx t0 t1 t2 (statics ps) (start3Prong cfg ps))
    as [[sv' st'] fill].
  simpl in Hfill. subst fill. rewrite Hdbg. simpl.
  split; [reflexivity|]. split; [eexists; reflexivity|].
  intros cfg' ps'. unfold process2Prong. cbv zeta.
  destruct (TESTBIT (isSelProng t0) Cand2Prong && TESTBIT (isSelProng t1) Cand2Prong);
    [|left; reflexivity].
  pose proof (evaluate2Prong_filled cfg' primVtx t0 t1 (statics ps')
                (start2Prong cfg' ps')) as Hpos.
  destruct (evaluate2Prong cfg' primVtx t0 t1 (statics ps') (start2Prong cfg' ps'))
    as [[sv2 st2] fill2].
  simpl in *. destruct fill2.
  - right. exists (isSelected st2). split; [now apply Hpos | reflexivity].
  - left. reflexivity.
Qed.

(** The theorem at a 3-prong combination that every decay rejects on its
    mass: the row is filled with bitmap 0. *)
Lemma zero_bitmap_rows_witness :
  rowTrackIndexProng3
    (@process3Prong rdA (fitGiven 1) cfgNarrow origin trackA trackB trackC
       (emptyTables [0; 0; 0] [0; 0; 0; 0]))
  = [(0, 1, 2, 0)].
Proof.
  apply (@zero_bitmap_rows rdA (fitGiven 1) cfgNarrow origin
           trackA trackB trackC (emptyTables [0; 0; 0] [0; 0; 0; 0])).
  - reflexivity.
  - discriminate.
Defined.

(* ===================================================================== *)
(** * Event selection: HfTagSelCollisions *)
(* ===================================================================== *)

Lemma BIT_pow2 (i : Z) : 0 <= i -> BIT i = 2 ^ i.
Proof. intros Hi. unfold BIT. rewrite Z.shiftl_1_l. reflexivity. Qed.

Lemma TESTBIT_SETBIT (n i j : Z) :
  0 <= i -> 0 <= j -> TESTBIT (SETBIT n i) j = TESTBIT n j || (j =? i).
Proof.
  intros Hi Hj. rewrite !TESTBIT_testbit by assumption.
  unfold SETBIT. rewrite Z.lor_spec, BIT_pow2 by assumption.
  f_equal. destruct (Z.eqb_spec j i) as [->|Hne].
  - apply Z.pow2_bits_true; assumption.
  - apply Z.pow2_bits_false; congruence.
Qed.

Lemma SETBIT_range (n i k : Z) :
  0 <= i < k -> 0 <= n < 2 ^ k -> 0 <= SETBIT n i < 2 ^ k.
Proof.
  intros Hi [Hn Hk]. unfold SETBIT. rewrite BIT_pow2 by lia.
  assert (H2 : 0 <= 2 ^ i) by (apply Z.pow_nonneg; lia).
  split; [apply Z.lor_nonneg; lia|].
  destruct (Z.eq_dec (Z.lor n (2 ^ i)) 0) as [->|Hnz].
  - apply Z.pow_pos_nonneg; lia.
  - apply Z.log2_lt_pow2; [pose proof (proj2 (Z.lor_nonneg n (2 ^ i))); lia|].
    rewrite Z.log2_lor by lia.
    apply Z.max_lub_lt.
    + destruct (Z.eq_dec n 0) as [->|Hn0]; [simpl; lia|].
      apply Z.log2_lt_pow2; lia.
    + rewrite Z.log2_pow2 by lia. lia.
Qed.

Lemma SETBIT_nonzero (n i : Z) : 0 <= i -> SETBIT n i <> 0.
Proof.
  intros Hi H. unfold SETBIT in H. apply Z.lor_eq_0_iff in H as [_ H].
  rewrite BIT_pow2 in H by assumption.
  pose proof (Z.pow_pos_nonneg 2 i). lia.
Qed.

Section CollisionFacts.
Import HfTagSelCollisions.

Lemma fst_rejectEvent (cfg : Config) (reason : Z) (st : Z * Registry) :
  fst (rejectEvent cfg reason st) = SETBIT (fst st) reason.
Proof. reflexivity. Qed.

Lemma fst_if_rejectEvent (cfg : Config) (b : bool) (reason : Z)
    (st : Z * Registry) :
  fst (if b then rejectEvent cfg reason st else st)
  = if b then SETBIT (fst st) reason else fst st.
Proof. destruct b; reflexivity. Qed.

(** The status [selectVertex] returns does not depend on the registry. *)
Lemma fst_selectVertex (cfg : Config) (collision : Collision) (s : Z)
    (reg : Registry) :
  fst (selectVertex cfg collision s reg)
  = let s := if failsVertexCut cfg collision PositionX
             then SETBIT s PositionX else s in
    let s := if failsVertexCut cfg collision PositionY
             then SETBIT s PositionY else s in
    let s := if failsVertexCut cfg collision PositionZ
             then SETBIT s PositionZ else s in
    let s := if failsVertexCut cfg collision NContrib
             then SETBIT s NContrib else s in
    if failsVertexCut cfg collision Chi2 then SETBIT s Chi2 else s.
Proof.
  unfold selectVertex, failsVertexCut. cbv zeta.
  rewrite !fst_if_rejectEvent. cbn [fst Z.eqb PositionX PositionY PositionZ
    NContrib Chi2 Pos.eqb].
  rewrite !negb_andb, !negb_involutive. reflexivity.
Qed.


Lemma failsVertexCut_cases (cfg : Config) (collision : Collision) (reason : Z) :
  failsVertexCut cfg collision reason
  = if reason =? PositionX then failsVertexCut cfg collision PositionX
    else if reason =? PositionY then failsVertexCut cfg collision PositionY
    else if reason =? PositionZ then failsVertexCut cfg collision PositionZ
    else if reason =? NContrib then failsVertexCut cfg collision NContrib
    else if reason =? Chi2 then failsVertexCut cfg collision Chi2
    else false.
Proof.
  unfold failsVertexCut.
  repeat match goal with
         | |- context [reason =? ?c] => destruct (Z.eqb_spec reason c) as [->|?]
         end; reflexivity.
Qed.

Lemma failsVertexCut_Trigger (cfg : Config) (collision : Collision) :
  failsVertexCut cfg collision Trigger = false.
Proof. reflexivity. Qed.

End CollisionFacts.

Lemma selectVertex_sets_bits_aux
    (cfg : HfTagSelCollisions.Config)
    (collision : HfTagSelCollisions.Collision)
    (statusCollision : Z) (reg : Registry) (reason : nat) :
  TESTBIT (fst (HfTagSelCollisions.selectVertex cfg collision
                  statusCollision reg)) (Z.of_nat reason)
  = TESTBIT statusCollision (Z.of_nat reason)
    || failsVertexCut cfg collision (Z.of_nat reason).
Proof.
  rewrite fst_selectVertex, (failsVertexCut_cases cfg collision (Z.of_nat reason)).
  cbv zeta.
  generalize (failsVertexCut cfg collision PositionX)
             (failsVertexCut cfg collision PositionY)
             (failsVertexCut cfg collision PositionZ)
             (failsVertexCut cfg collision NContrib)
             (failsVertexCut cfg collision Chi2).
  intros bX bY bZ bN bC.
  assert (Hr : 0 <= Z.of_nat reason) by lia.
  revert Hr. generalize (Z.of_nat reason). intros r Hr.
  unfold PositionX, PositionY, PositionZ, NContrib, Chi2.
  destruct bX, bY, bZ, bN, bC; rewrite ?TESTBIT_SETBIT by lia;
    repeat match goal with
           | |- context [r =? ?c] => destruct (Z.eqb_spec r c); try lia
           end;
    rewrite ?orb_false_r, ?orb_true_r; reflexivity.
Qed.

(** X1 -- [selectVertex] only ever sets bits of [statusCollision]: after
    the call a rejection bit is set exactly when it was set before or the
    collision fails the cut behind it (x, y, z window, number of
    contributors, chi2); the bits of the caller, the trigger bit among
    them, are kept, and the registry has no influence. *)
Theorem selectVertex_sets_the_failed_cuts
    (cfg : HfTagSelCollisions.Config)
    (collision : HfTagSelCollisions.Collision)
    (statusCollision : Z) (reg : Registry) (reason : nat) :
  TESTBIT (fst (HfTagSelCollisions.selectVertex cfg collision
                  statusCollision reg)) (Z.of_nat reason)
  = TESTBIT statusCollision (Z.of_nat reason)
    || failsVertexCut cfg collision (Z.of_nat reason).
Proof. apply selectVertex_sets_bits_aux. Qed.

Section CollisionRows.
Import HfTagSelCollisions.

(** The status written by either process function, as a function of the
    collision alone. *)
Lemma rows_processNoTrigSel (cfg : Config) (collision : Collision) (out : Output) :
  rowSelectedCollision (processNoTrigSel cfg collision out)
  = rowSelectedCollision out ++ [fst (selectVertex cfg collision 0 [])].
Proof.
  unfold processNoTrigSel. cbn [rowSelectedCollision fst snd].
  rewrite !fst_selectVertex. reflexivity.
Qed.

Lemma rows_processTrigSel (cfg : Config) (collision : Collision) (out : Output) :
  rowSelectedCollision (processTrigSel cfg collision out)
  = rowSelectedCollision out
      ++ [fst (selectVertex cfg collision
                 (if triggerFired cfg collision then 0 else SETBIT 0 Trigger) [])].
Proof.
  unfold processTrigSel, triggerFired. cbn [rowSelectedCollision].
  rewrite !fst_selectVertex, fst_if_rejectEvent. cbn [fst].
  destruct (_ =? 0); reflexivity.
Qed.

Lemma selectVertex_zero_iff (cfg : Config) (collision : Collision) (s : Z)
    (reg : Registry) :
  fst (selectVertex cfg collision s reg) = 0
  <-> s = 0
      /\ failsVertexCut cfg collision PositionX = false
      /\ failsVertexCut cfg collision PositionY = false
      /\ failsVertexCut cfg collision PositionZ = false
      /\ failsVertexCut cfg collision NContrib = false
      /\ failsVertexCut cfg collision Chi2 = false.
Proof.
  rewrite fst_selectVertex. cbv zeta.
  generalize (failsVertexCut cfg collision PositionX)
             (failsVertexCut cfg collision PositionY)
             (failsVertexCut cfg collision PositionZ)
             (failsVertexCut cfg collision NContrib)
             (failsVertexCut cfg collision Chi2).
  intros bX bY bZ bN bC.
  destruct bC; [split; [intros H; apply SETBIT_nonzero in H; [tauto|unfold Chi2; lia]
                       |intros (_ & _ & _ & _ & _ & H); discriminate]|].
  destruct bN; [split; [intros H; apply SETBIT_nonzero in H; [tauto|unfold NContrib; lia]
                       |intros (_ & _ & _ & _ & H & _); discriminate]|].
  destruct bZ; [split; [intros H; apply SETBIT_nonzero in H; [tauto|unfold PositionZ; lia]
                       |intros (_ & _ & _ & H & _); discriminate]|].
  destruct bY; [split; [intros H; apply SETBIT_nonzero in H; [tauto|unfold PositionY; lia]
                       |intros (_ & _ & H & _); discriminate]|].
  destruct bX; [split; [intros H; apply SETBIT_nonzero in H; [tauto|unfold PositionX; lia]
                       |intros (_ & H & _); discriminate]|].
  tauto.
Qed.

Lemma gtb_false_le (x y : Q) : gtb x y = false <-> (x <= y)%Q.
Proof.
  unfold gtb. rewrite Qle_alt.
  destruct (x ?= y)%Q; split; intros H; try reflexivity; try discriminate;
    try congruence; exfalso; apply H; reflexivity.
Qed.

Lemma inside_iff (lo x hi : Q) :
  negb (negb (ltb x lo) && negb (gtb x hi)) = false <-> (lo <= x <= hi)%Q.
Proof.
  rewrite negb_false_iff, andb_true_iff, !negb_true_iff.
  rewrite ltb_false_le, gtb_false_le. tauto.
Qed.

Lemma failsVertexCut_false_iff (cfg : Config) (collision : Collision) :
  failsVertexCut cfg collision PositionX = false
  /\ failsVertexCut cfg collision PositionY = false
  /\ failsVertexCut cfg collision PositionZ = false
  /\ failsVertexCut cfg collision NContrib = false
  /\ failsVertexCut cfg collision Chi2 = false
  <-> (xVertexMin cfg <= posX collision <= xVertexMax cfg)%Q
      /\ (yVertexMin cfg <= posY collision <= yVertexMax cfg)%Q
      /\ (zVertexMin cfg <= posZ collision <= zVertexMax cfg)%Q
      /\ nContribMin cfg <= numContrib collision
      /\ ((chi2Max cfg <= 0)%Q \/ (chi2 collision <= chi2Max cfg)%Q).
Proof.
  unfold failsVertexCut. cbn [Z.eqb PositionX PositionY PositionZ NContrib Chi2 Pos.eqb].
  rewrite !inside_iff, Z.ltb_ge, andb_false_iff.
  rewrite !gtb_false_le. tauto.
Qed.

End CollisionRows.

(** X2 -- Without trigger selection, [processNoTrigSel] appends one row
    to the table, and that row passes the downstream filter
    [whyRejectColl == 0] exactly when the vertex lies inside the three
    position windows, both ends included, the number of contributors is at
    least [nContribMin], and the chi2 is at most [chi2Max] or [chi2Max] is
    not positive (the chi2 cut is off at its default of 0). *)
Theorem collision_selected_without_trigger
    (cfg : HfTagSelCollisions.Config)
    (collision : HfTagSelCollisions.Collision)
    (out : HfTagSelCollisions.Output) :
  exists statusCollision : Z,
    HfTagSelCollisions.rowSelectedCollision
      (HfTagSelCollisions.processNoTrigSel cfg collision out)
    = HfTagSelCollisions.rowSelectedCollision out ++ [statusCollision]
    /\ (HfTagSelCollisions.filterSelectCollisions statusCollision = true
        <-> (HfTagSelCollisions.xVertexMin cfg
               <= HfTagSelCollisions.posX collision
               <= HfTagSelCollisions.xVertexMax cfg)%Q
            /\ (HfTagSelCollisions.yVertexMin cfg
                  <= HfTagSelCollisions.posY collision
                  <= HfTagSelCollisions.yVertexMax cfg)%Q
            /\ (HfTagSelCollisions.zVertexMin cfg
                  <= HfTagSelCollisions.posZ collision
                  <= HfTagSelCollisions.zVertexMax cfg)%Q
            /\ HfTagSelCollisions.nContribMin cfg
                 <= HfTagSelCollisions.numContrib collision
            /\ ((HfTagSelCollisions.chi2Max cfg <= 0)%Q
                \/ (HfTagSelCollisions.chi2 collision
                      <= HfTagSelCollisions.chi2Max cfg)%Q)).
Proof.
  eexists. split; [apply rows_processNoTrigSel|].
  unfold HfTagSelCollisions.filterSelectCollisions.
  rewrite Z.eqb_eq, selectVertex_zero_iff, <- failsVertexCut_false_iff.
  tauto.
Qed.

Section TriggerSelection.
Import HfTagSelCollisions.

Lemma selectVertex_lor (cfg : Config) (collision : Collision) (s : Z)
    (reg : Registry) :
  fst (selectVertex cfg collision s reg)
  = Z.lor s (fst (selectVertex cfg collision 0 [])).
Proof.
  rewrite !fst_selectVertex. cbv zeta. unfold SETBIT.
  destruct (failsVertexCut cfg collision PositionX),
           (failsVertexCut cfg collision PositionY),
           (failsVertexCut cfg collision PositionZ),
           (failsVertexCut cfg collision NContrib),
           (failsVertexCut cfg collision Chi2);
    rewrite ?Z.lor_0_l, ?Z.lor_0_r, ?Z.lor_assoc; reflexivity.
Qed.

Lemma selectVertex_range (cfg : Config) (collision : Collision) (s : Z)
    (reg : Registry) :
  0 <= s < 2 ^ NEventRejection ->
  0 <= fst (selectVertex cfg collision s reg) < 2 ^ NEventRejection.
Proof.
  intros Hs. rewrite fst_selectVertex. cbv zeta.
  repeat match goal with
         | |- context [if ?b then SETBIT ?x ?i else ?x] =>
             let s' := fresh "s" in
             let Hs' := fresh "Hs" in
             assert (Hs' : 0 <= (if b then SETBIT x i else x) < 2 ^ NEventRejection)
               by (destruct b; [apply SETBIT_range; [vm_compute; split; congruence|]|];
                   assumption);
             set (s' := if b then SETBIT x i else x) in *;
             clearbody s'
         end.
  assumption.
Qed.

End TriggerSelection.

(** X3 -- With trigger selection the row written for a collision is the
    row written without it, with the trigger bit set in addition when the
    alias of the configured trigger class did not fire: the vertex cuts
    never touch the trigger bit, the status is a mask of the six rejection
    bits, and a collision passes the filter [whyRejectColl == 0] exactly
    when its trigger fired and it passes without trigger selection. *)
Theorem trigger_selection_adds_the_trigger_bit
    (cfg : HfTagSelCollisions.Config)
    (collision : HfTagSelCollisions.Collision)
    (out : HfTagSelCollisions.Output) :
  exists statusNoTrig statusTrig : Z,
    HfTagSelCollisions.rowSelectedCollision
      (HfTagSelCollisions.processNoTrigSel cfg collision out)
    = HfTagSelCollisions.rowSelectedCollision out ++ [statusNoTrig]
    /\ HfTagSelCollisions.rowSelectedCollision
         (HfTagSelCollisions.processTrigSel cfg collision out)
       = HfTagSelCollisions.rowSelectedCollision out ++ [statusTrig]
    /\ statusTrig = (if triggerFired cfg collision then statusNoTrig
                     else SETBIT statusNoTrig Trigger)
    /\ TESTBIT statusNoTrig Trigger = false
    /\ TESTBIT statusTrig Trigger = negb (triggerFired cfg collision)
    /\ 0 <= statusTrig < BIT NEventRejection
    /\ HfTagSelCollisions.filterSelectCollisions statusTrig
       = triggerFired cfg collision
         && HfTagSelCollisions.filterSelectCollisions statusNoTrig.
Proof.
  exists (fst (HfTagSelCollisions.selectVertex cfg collision 0 [])).
  eexists. split; [apply rows_processNoTrigSel|].
  split; [apply rows_processTrigSel|].
  assert (HN : TESTBIT (fst (HfTagSelCollisions.selectVertex cfg collision 0 []))
                 Trigger = false).
  { change Trigger with (Z.of_nat 0).
    rewrite selectVertex_sets_bits_aux. reflexivity. }
  set (sN := fst (HfTagSelCollisions.selectVertex cfg collision 0 [])) in *.
  assert (HsN : 0 <= sN < 2 ^ NEventRejection).
  { apply selectVertex_range. vm_compute. split; congruence. }
  rewrite (selectVertex_lor cfg collision _ []). fold sN.
  assert (Hpow : BIT NEventRejection = 2 ^ NEventRejection)
    by (apply BIT_pow2; vm_compute; congruence).
  destruct (triggerFired cfg collision) eqn:Hfired.
  - rewrite Z.lor_0_l, Hpow. repeat split; tauto.
  - assert (HT : Z.lor (SETBIT 0 Trigger) sN = SETBIT sN Trigger).
    { unfold SETBIT. rewrite Z.lor_0_l. apply Z.lor_comm. }
    rewrite HT, Hpow.
    assert (Hr : 0 <= SETBIT sN Trigger < 2 ^ NEventRejection)
      by (apply SETBIT_range; [vm_compute; split; congruence|assumption]).
    assert (Hbit : TESTBIT (SETBIT sN Trigger) Trigger = true).
    { rewrite TESTBIT_SETBIT by (unfold Trigger; lia). apply orb_true_r. }
    assert (Hnz : HfTagSelCollisions.filterSelectCollisions (SETBIT sN Trigger)
                  = false).
    { apply Z.eqb_neq, SETBIT_nonzero. unfold Trigger. lia. }
    rewrite Hbit, Hnz. repeat split; tauto.
Qed.

Lemma entries_app (name : string) (x : Q) (r1 r2 : Registry) :
  entries name x (r1 ++ r2) = (entries name x r1 + entries name x r2)%nat.
Proof. unfold entries. rewrite List.filter_app, length_app. reflexivity. Qed.

Lemma zeroRows_app (r1 r2 : list Z) :
  zeroRows (r1 ++ r2) = (zeroRows r1 + zeroRows r2)%nat.
Proof. unfold zeroRows. rewrite List.filter_app, length_app. reflexivity. Qed.

Lemma rowsWithBit_app (i : Z) (r1 r2 : list Z) :
  rowsWithBit i (r1 ++ r2) = (rowsWithBit i r1 + rowsWithBit i r2)%nat.
Proof. unfold rowsWithBit. rewrite List.filter_app, length_app. reflexivity. Qed.

Section EventHistograms.
Import HfTagSelCollisions.

(** What [selectVertex] adds to the registry. *)
Lemma snd_selectVertex (cfg : Config) (collision : Collision) (s : Z)
    (reg : Registry) :
  snd (selectVertex cfg collision s reg)
  = reg ++ (if fillHistograms cfg
            then [("hNContributors"%string, [inject_Z (numContrib collision)])]
                 ++ hEventsEntry (failsVertexCut cfg collision PositionX) PositionX
                 ++ hEventsEntry (failsVertexCut cfg collision PositionY) PositionY
                 ++ hEventsEntry (failsVertexCut cfg collision PositionZ) PositionZ
                 ++ hEventsEntry (failsVertexCut cfg collision NContrib) NContrib
                 ++ hEventsEntry (failsVertexCut cfg collision Chi2) Chi2
            else []).
Proof.
  unfold selectVertex, failsVertexCut, rejectEvent.
  cbn [fst Z.eqb PositionX PositionY PositionZ NContrib Chi2 Pos.eqb].
  rewrite !negb_andb, !negb_involutive.
  destruct (fillHistograms cfg);
    destruct (ltb (posX collision) (xVertexMin cfg) || gtb (posX collision) (xVertexMax cfg)),
             (ltb (posY collision) (yVertexMin cfg) || gtb (posY collision) (yVertexMax cfg)),
             (ltb (posZ collision) (zVertexMin cfg) || gtb (posZ collision) (zVertexMax cfg)),
             (numContrib collision <? nContribMin cfg),
             (gtb (chi2Max cfg) 0 && gtb (chi2 collision) (chi2Max cfg));
    cbn [fst snd hEventsEntry app]; unfold fill; rewrite <- ?app_assoc;
    try (symmetry; apply app_nil_r); reflexivity.
Qed.

Lemma process_rows (trig : bool) (cfg : Config) (collision : Collision)
    (out : Output) :
  rowSelectedCollision
    ((if trig then processTrigSel else processNoTrigSel) cfg collision out)
  = rowSelectedCollision out ++ [statusOf trig cfg collision].
Proof.
  unfold statusOf, startStatus. destruct trig.
  - rewrite rows_processTrigSel. cbn [andb].
    destruct (triggerFired cfg collision); reflexivity.
  - apply rows_processNoTrigSel.
Qed.

Lemma process_registry (trig : bool) (cfg : Config) (collision : Collision)
    (out : Output) :
  registry
    ((if trig then processTrigSel else processNoTrigSel) cfg collision out)
  = registry out
      ++ (if fillHistograms cfg
          then [("hEvents"%string, [1%Q])]
               ++ hEventsEntry (trig && negb (triggerFired cfg collision)) Trigger
               ++ [("hNContributors"%string, [inject_Z (numContrib collision)])]
               ++ hEventsEntry (failsVertexCut cfg collision PositionX) PositionX
               ++ hEventsEntry (failsVertexCut cfg collision PositionY) PositionY
               ++ hEventsEntry (failsVertexCut cfg collision PositionZ) PositionZ
               ++ hEventsEntry (failsVertexCut cfg collision NContrib) NContrib
               ++ hEventsEntry (failsVertexCut cfg collision Chi2) Chi2
               ++ (if statusOf trig cfg collision =? 0
                   then [("hEvents"%string, [2%Q])] else [])
          else []).
Proof.
  unfold statusOf, startStatus, triggerFired.
  destruct trig; unfold processTrigSel, processNoTrigSel; cbn [registry andb];
    rewrite !snd_selectVertex, !fst_selectVertex, ?fst_if_rejectEvent;
    unfold rejectEvent; cbn [fst snd]; rewrite ?negb_involutive;
    destruct (fillHistograms cfg); cbn [andb];
    try destruct (alias collision !!! triggerClass cfg =? 0);
    cbn [fst snd hEventsEntry app]; unfold fill;
    repeat match goal with
           | |- context [if ?b then _ ++ [(_, [2%Q])] else _] => destruct b
           end;
    repeat (rewrite <- ?app_assoc; cbn [app]); rewrite ?app_nil_r; reflexivity.
Qed.

Lemma statusOf_bit (trig : bool) (cfg : Config) (collision : Collision)
    (reason : nat) :
  TESTBIT (statusOf trig cfg collision) (Z.of_nat reason)
  = (trig && negb (triggerFired cfg collision) && (Z.of_nat reason =? Trigger))
    || failsVertexCut cfg collision (Z.of_nat reason).
Proof.
  unfold statusOf, startStatus. rewrite selectVertex_sets_bits_aux. f_equal.
  destruct (trig && negb (triggerFired cfg collision)).
  - rewrite TESTBIT_SETBIT by (unfold Trigger; lia).
    rewrite TESTBIT_testbit, Z.bits_0 by lia. reflexivity.
  - rewrite TESTBIT_testbit, Z.bits_0 by lia. reflexivity.
Qed.

Lemma entries_hEventsEntry (b : bool) (reason : Z) (x : Q) :
  entries "hEvents" x (hEventsEntry b reason)
  = if b && Qeq_bool (inject_Z (3 + reason)) x then 1%nat else 0%nat.
Proof. destruct b; [|reflexivity]. unfold hEventsEntry, entries. cbn.
  destruct (Qeq_bool _ _); reflexivity. Qed.

(** What one call of a process function adds to the table and to the
    registry. *)
Lemma process_step (trig : bool) (cfg : Config) (collision : Collision)
    (out : Output) :
  let out' := (if trig then processTrigSel else processNoTrigSel)
                cfg collision out in
  exists s : Z,
    rowSelectedCollision out' = rowSelectedCollision out ++ [s]
    /\ if fillHistograms cfg
       then entries "hEvents" 1 (registry out')
            = (entries "hEvents" 1 (registry out) + 1)%nat
            /\ entries "hEvents" 2 (registry out')
               = (entries "hEvents" 2 (registry out) + zeroRows [s])%nat
            /\ forall reason : nat,
                 (reason < 6)%nat ->
                 entries "hEvents" (inject_Z (3 + Z.of_nat reason)) (registry out')
                 = (entries "hEvents" (inject_Z (3 + Z.of_nat reason)) (registry out)
                    + rowsWithBit (Z.of_nat reason) [s])%nat
       else registry out' = registry out.
Proof.
  intros out'. exists (statusOf trig cfg collision).
  split; [apply process_rows|].
  subst out'. rewrite process_registry.
  destruct (fillHistograms cfg); [|apply app_nil_r].
  split; [|split].
  - rewrite !entries_app, !entries_hEventsEntry.
    repeat match goal with
           | |- context [?b && Qeq_bool ?x ?y] =>
               let v := eval vm_compute in (Qeq_bool x y) in
               change (Qeq_bool x y) with v; rewrite (andb_false_r b)
           end.
    destruct (statusOf trig cfg collision =? 0); reflexivity.
  - rewrite !entries_app, !entries_hEventsEntry.
    repeat match goal with
           | |- context [?b && Qeq_bool ?x ?y] =>
               let v := eval vm_compute in (Qeq_bool x y) in
               change (Qeq_bool x y) with v; rewrite (andb_false_r b)
           end.
    unfold zeroRows. cbn [List.filter].
    destruct (statusOf trig cfg collision =? 0); reflexivity.
  - intros reason Hr.
    rewrite !entries_app, !entries_hEventsEntry.
    unfold rowsWithBit. cbn [List.filter]. rewrite statusOf_bit.
    rewrite (failsVertexCut_cases cfg collision (Z.of_nat reason)).
    destruct reason as [|[|[|[|[|[|]]]]]]; try lia;
      repeat match goal with
             | |- context [Qeq_bool ?x ?y] =>
                 let v := eval vm_compute in (Qeq_bool x y) in
                 change (Qeq_bool x y) with v
             end;
      repeat match goal with
             | |- context [Z.eqb ?x ?y] =>
                 lazymatch x with
                 | statusOf _ _ _ => fail
                 | _ => let v := eval vm_compute in (Z.eqb x y) in
                        change (Z.eqb x y) with v
                 end
             end;
      rewrite ?andb_false_r, ?andb_true_r, ?orb_false_r; cbv iota;
      destruct (statusOf trig cfg collision =? 0);
      destruct trig, (triggerFired cfg collision);
      repeat match goal with
             | |- context [failsVertexCut ?a ?b ?c] =>
                 destruct (failsVertexCut a b c)
             end; reflexivity.
Qed.

End EventHistograms.

Section EventRun.
Import HfTagSelCollisions.

Lemma run_cons (process : Config -> Collision -> Output -> Output)
    (cfg : Config) (collision : Collision) (collisions : list Collision)
    (out : Output) :
  run process cfg (collision :: collisions) out
  = run process cfg collisions (process cfg collision out).
Proof. reflexivity. Qed.

End EventRun.

(** X4 -- Over any table of collisions, either process function writes
    exactly one row per collision, after the rows already there.  With
    [fillHistograms] on, the histogram [hEvents] agrees with the rows
    written: bin 1 (processed) grows by the number of collisions, bin 2
    (selected) by the number of new rows that are zero, and the bin
    [3 + reason] of each of the six rejections by the number of new rows
    with that bit set.  With [fillHistograms] off the registry is left as
    it was. *)
Theorem hEvents_agrees_with_the_rows (trig : bool)
    (cfg : HfTagSelCollisions.Config)
    (collisions : list HfTagSelCollisions.Collision)
    (out : HfTagSelCollisions.Output) :
  let out' :=
    HfTagSelCollisions.run
      (if trig then HfTagSelCollisions.processTrigSel
       else HfTagSelCollisions.processNoTrigSel) cfg collisions out in
  exists rows : list Z,
    HfTagSelCollisions.rowSelectedCollision out'
    = HfTagSelCollisions.rowSelectedCollision out ++ rows
    /\ length rows = length collisions
    /\ if HfTagSelCollisions.fillHistograms cfg
       then entries "hEvents" 1 (HfTagSelCollisions.registry out')
            = (entries "hEvents" 1 (HfTagSelCollisions.registry out)
               + length collisions)%nat
            /\ entries "hEvents" 2 (HfTagSelCollisions.registry out')
               = (entries "hEvents" 2 (HfTagSelCollisions.registry out)
                  + zeroRows rows)%nat
            /\ forall reason : nat,
                 (reason < 6)%nat ->
                 entries "hEvents" (inject_Z (3 + Z.of_nat reason))
                         (HfTagSelCollisions.registry out')
                 = (entries "hEvents" (inject_Z (3 + Z.of_nat reason))
                            (HfTagSelCollisions.registry out)
                    + rowsWithBit (Z.of_nat reason) rows)%nat
       else HfTagSelCollisions.registry out' = HfTagSelCollisions.registry out.
Proof.
  cbv zeta. revert out.
  induction collisions as [|collision collisions IH]; intros out.
  - exists []. cbn [HfTagSelCollisions.run fold_left length].
    rewrite app_nil_r. split; [reflexivity|split; [reflexivity|]].
    destruct (HfTagSelCollisions.fillHistograms cfg); [|reflexivity].
    unfold zeroRows, rowsWithBit. cbn [List.filter length].
    rewrite !Nat.add_0_r. split; [reflexivity|split; [reflexivity|]].
    intros reason _. apply eq_sym, Nat.add_0_r.
  - rewrite run_cons.
    destruct (process_step trig cfg collision out) as (s & Hrows & Hreg).
    destruct (IH ((if trig then HfTagSelCollisions.processTrigSel
                   else HfTagSelCollisions.processNoTrigSel) cfg collision out))
      as (rows & Hrows' & Hlen & Hreg').
    exists (s :: rows).
    split; [rewrite Hrows', Hrows, <- app_assoc; reflexivity|].
    split; [cbn [length]; rewrite Hlen; reflexivity|].
    destruct (HfTagSelCollisions.fillHistograms cfg).
    + destruct Hreg as (H1 & H2 & H3). destruct Hreg' as (H1' & H2' & H3').
      split; [|split].
      * rewrite H1', H1. cbn [length]. lia.
      * rewrite H2', H2. change (s :: rows) with ([s] ++ rows).
        rewrite zeroRows_app. lia.
      * intros reason Hr. rewrite (H3' reason Hr), (H3 reason Hr).
        change (s :: rows) with ([s] ++ rows).
        rewrite rowsWithBit_app. lia.
    + rewrite Hreg'. exact Hreg.
Qed.

(* ===================================================================== *)
(** * Single-track selection: HfTagSelTracks *)
(* ===================================================================== *)

Lemma TESTBIT_statusProngOf (k2 k3 kB : bool) :
  TESTBIT (statusProngOf k2 k3 kB) Cand2Prong = k2
  /\ TESTBIT (statusProngOf k2 k3 kB) Cand3Prong = k3
  /\ TESTBIT (statusProngOf k2 k3 kB) CandV0bachelor = kB.
Proof. destruct k2, k3, kB; repeat split; reflexivity. Qed.

Lemma CLRBIT_statusProngOf (k2 k3 kB : bool) :
  CLRBIT (statusProngOf k2 k3 kB) Cand2Prong = statusProngOf false k3 kB
  /\ CLRBIT (statusProngOf k2 k3 kB) Cand3Prong = statusProngOf k2 false kB
  /\ CLRBIT (statusProngOf k2 k3 kB) CandV0bachelor = statusProngOf k2 k3 false.
Proof. destruct k2, k3, kB; repeat split; reflexivity. Qed.

Lemma statusProngOf_positive (k2 k3 kB : bool) :
  (statusProngOf k2 k3 kB >? 0) = k2 || k3 || kB.
Proof. destruct k2, k3, kB; reflexivity. Qed.

Lemma statusProngOf_bachelor (k2 k3 kB : bool) :
  (statusProngOf k2 k3 kB <? 4) = negb kB.
Proof. destruct k2, k3, kB; reflexivity. Qed.

Lemma statusProngOf_range (k2 k3 kB : bool) :
  0 <= statusProngOf k2 k3 kB < BIT NCandidateTypes.
Proof. destruct k2, k3, kB; vm_compute; split; congruence. Qed.

Section TrackStages.
Import HfTagSelTracks.
Context {TF : TrackFlagsRun2Enum}.
Variable cfg : Config.

Lemma fst_if_rejectTrack (b : bool) (candType iDebugCut : Z) (st : Z * Registry) :
  fst (if b then rejectTrack cfg candType iDebugCut st else st)
  = if b then CLRBIT (fst st) candType else fst st.
Proof. destruct b; reflexivity. Qed.

Lemma fst_cutPt (trackPt : Q) (st : Z * Registry) (k2 k3 kB : bool) :
  fst st = statusProngOf k2 k3 kB ->
  fst (cutPt cfg trackPt st)
  = statusProngOf (k2 && negb (ltb trackPt (pTMinTrack2Prong cfg)))
                  (k3 && negb (ltb trackPt (pTMinTrack3Prong cfg)))
                  (kB && negb (ltb trackPt (ptMinTrackBach cfg))).
Proof.
  intros Hst. unfold cutPt. cbv zeta. rewrite !fst_if_rejectTrack, Hst.
  destruct (ltb trackPt (pTMinTrack2Prong cfg)),
           (ltb trackPt (pTMinTrack3Prong cfg)),
           (ltb trackPt (ptMinTrackBach cfg)), k2, k3, kB; reflexivity.
Qed.

Lemma fst_cutEta (trackEta : Q) (st : Z * Registry) (k2 k3 kB : bool) :
  fst st = statusProngOf k2 k3 kB ->
  fst (cutEta cfg trackEta st)
  = statusProngOf (k2 && negb (gtb (Qabs trackEta) (etaMax2Prong cfg)))
                  (k3 && negb (gtb (Qabs trackEta) (etaMax3Prong cfg)))
                  (kB && negb (gtb (Qabs trackEta) (etaMaxBach cfg))).
Proof.
  intros Hst. unfold cutEta. cbv zeta. rewrite !fst_if_rejectTrack, Hst.
  destruct (debug cfg),
           (gtb (Qabs trackEta) (etaMax2Prong cfg)),
           (gtb (Qabs trackEta) (etaMax3Prong cfg)),
           (gtb (Qabs trackEta) (etaMaxBach cfg)), k2, k3, kB; reflexivity.
Qed.

Lemma fst_cutQuality (track : MY_TYPE1) (st : Z * Registry) (k2 k3 kB : bool) :
  fst st = statusProngOf k2 k3 kB ->
  fst (cutQuality cfg track st)
  = statusProngOf (k2 && (negb (doCutQuality cfg) || passesQuality cfg track))
                  (k3 && (negb (doCutQuality cfg) || passesQuality cfg track))
                  (kB && (negb (doCutQuality cfg) || passesQuality cfg track)).
Proof.
  intros Hst. unfold cutQuality. cbv zeta. rewrite Hst.
  destruct (debug cfg), (doCutQuality cfg), (passesQuality cfg track),
           k2, k3, kB; try reflexivity; cbn; exact Hst.
Qed.

Lemma fst_cutDCA (trackPt : Q) (dca : Q * Q) (st : Z * Registry)
    (k2 k3 kB : bool) :
  fst st = statusProngOf k2 k3 kB ->
  fst (cutDCA cfg trackPt dca st)
  = statusProngOf
      (k2 && isSelectedTrack (pTBinsTrack cfg) (cutsSingleTrack cfg) trackPt dca
               (Z.to_nat Cand2Prong))
      (k3 && isSelectedTrack (pTBinsTrack cfg) (cutsSingleTrack cfg) trackPt dca
               (Z.to_nat Cand3Prong))
      (kB && isSelectedTrack (pTBinsTrack cfg) (cutsSingleTrack cfg) trackPt dca
               (Z.to_nat CandV0bachelor)).
Proof.
  intros Hst. unfold cutDCA. cbv zeta.
  generalize (isSelectedTrack (pTBinsTrack cfg) (cutsSingleTrack cfg) trackPt dca
                (Z.to_nat Cand2Prong))
             (isSelectedTrack (pTBinsTrack cfg) (cutsSingleTrack cfg) trackPt dca
                (Z.to_nat Cand3Prong))
             (isSelectedTrack (pTBinsTrack cfg) (cutsSingleTrack cfg) trackPt dca
                (Z.to_nat CandV0bachelor)).
  intros d2 d3 dB.
  destruct (debug cfg); cbn [orb]; [|rewrite Hst, statusProngOf_positive];
    [|destruct (k2 || k3 || kB) eqn:Hk];
    rewrite ?fst_if_rejectTrack, Hst;
    destruct d2, d3, dB, k2, k3, kB; try reflexivity; try discriminate Hk.
Qed.

(** The status the body of the loop computes, in closed form. *)
Lemma fst_selectTrack (track : MY_TYPE1) (reg : Registry) :
  fst (selectTrack cfg track reg)
  = statusProngOf (keptFor cfg track Cand2Prong) (keptFor cfg track Cand3Prong)
                  (keptFor cfg track CandV0bachelor).
Proof.
  unfold selectTrack. cbv zeta. cbn [fst].
  erewrite fst_cutDCA;
    [|erewrite fst_cutQuality;
      [|erewrite fst_cutEta;
        [|erewrite fst_cutPt; [|cbn [fst]; instantiate (1 := true);
           instantiate (1 := true); instantiate (1 := true); reflexivity];
         reflexivity]; reflexivity]; reflexivity].
  unfold keptFor, pTMinTrack, etaMaxTrack.
  cbn [Z.eqb Cand2Prong Cand3Prong CandV0bachelor Pos.eqb andb].
  reflexivity.
Qed.

End TrackStages.

Lemma isSelectedTrack_iff (pTBinsTrack : list Q) (cuts : list LabeledArray)
    (trackPt : Q) (dca : Q * Q) (candType : nat) :
  isSelectedTrack pTBinsTrack cuts trackPt dca candType = true
  <-> let pTBinTrack := findBin pTBinsTrack trackPt in
      pTBinTrack <> -1
      /\ (get_label (cuts !!! candType) pTBinTrack "min_dcaxytoprimary"
            <= Qabs (fst dca)
            <= get_label (cuts !!! candType) pTBinTrack "max_dcaxytoprimary")%Q.
Proof.
  unfold isSelectedTrack. cbv zeta.
  destruct (Z.eqb_spec (findBin pTBinsTrack trackPt) (-1)) as [E|E].
  - split; [discriminate|]. intros [H _]. contradiction.
  - destruct (ltb _ _) eqn:Hmin.
    + split; [discriminate|]. intros (_ & H & _).
      apply ltb_false_le in H. congruence.
    + destruct (gtb _ _) eqn:Hmax.
      * split; [discriminate|]. intros (_ & _ & H).
        apply gtb_false_le in H. congruence.
      * apply ltb_false_le in Hmin. apply gtb_false_le in Hmax. tauto.
Qed.

(** X5 -- The bit of a candidate type (2-prong, 3-prong, bachelor) is set
    in the [statusProng] of a track exactly when the track passes the four
    cuts for that type: pT at least the minimum, |eta| at most the
    maximum, the quality requirement when [doCutQuality] is on, and a pT
    bin found with |DCAxy| between the two thresholds of that bin, ends
    included.  This holds in debug mode as out of it, with histograms on
    or off. *)
Theorem track_kept_iff {TF : TrackFlagsRun2Enum}
    (cfg : HfTagSelTracks.Config) (track : HfTagSelTracks.MY_TYPE1)
    (reg : Registry) (candType : Z) :
  0 <= candType < NCandidateTypes ->
  TESTBIT (fst (HfTagSelTracks.selectTrack cfg track reg)) candType = true
  <-> (pTMinTrack cfg candType <= HfTagSelTracks.pt track)%Q
      /\ (Qabs (HfTagSelTracks.eta track) <= etaMaxTrack cfg candType)%Q
      /\ (HfTagSelTracks.doCutQuality cfg = true ->
          HfTagSelTracks.passesQuality cfg track = true)
      /\ let pTBinTrack :=
           findBin (HfTagSelTracks.pTBinsTrack cfg) (HfTagSelTracks.pt track) in
         let cuts := HfTagSelTracks.cutsSingleTrack cfg !!! Z.to_nat candType in
         pTBinTrack <> -1
         /\ (get_label cuts pTBinTrack "min_dcaxytoprimary"
               <= Qabs (HfTagSelTracks.dcaXY track)
               <= get_label cuts pTBinTrack "max_dcaxytoprimary")%Q.
Proof.
  intros Hc. rewrite fst_selectTrack.
  pose proof (TESTBIT_statusProngOf (keptFor cfg track Cand2Prong)
                (keptFor cfg track Cand3Prong)
                (keptFor cfg track CandV0bachelor)) as (H2 & H3 & HB).
  assert (Hbit : TESTBIT (statusProngOf (keptFor cfg track Cand2Prong)
                            (keptFor cfg track Cand3Prong)
                            (keptFor cfg track CandV0bachelor)) candType
                 = keptFor cfg track candType).
  { unfold NCandidateTypes in Hc.
    assert (Hcase : candType = 0 \/ candType = 1 \/ candType = 2) by lia.
    destruct Hcase as [->|[->| ->]]; assumption. }
  rewrite Hbit. unfold keptFor.
  rewrite !andb_true_iff, !negb_true_iff, ltb_false_le, gtb_false_le,
    isSelectedTrack_iff, orb_true_iff, negb_true_iff.
  cbv zeta. cbn [fst].
  destruct (HfTagSelTracks.doCutQuality cfg);
    destruct (HfTagSelTracks.passesQuality cfg track);
    intuition congruence.
Qed.

(** X6 -- The status written for a track is a mask of the three
    candidate-type bits, so the tests the consumers make on the column
    mean what they are meant to: the filter [isSelProng > 0] keeps the
    tracks kept for at least one type, and the test [isSelProng < 4] of the
    cascade task rejects exactly the tracks whose bachelor bit is clear. *)
Theorem status_tests_of_the_consumers {TF : TrackFlagsRun2Enum}
    (cfg : HfTagSelTracks.Config) (track : HfTagSelTracks.MY_TYPE1)
    (reg : Registry) :
  let statusProng := fst (HfTagSelTracks.selectTrack cfg track reg) in
  0 <= statusProng < BIT NCandidateTypes
  /\ (statusProng >? 0)
     = TESTBIT statusProng Cand2Prong || TESTBIT statusProng Cand3Prong
       || TESTBIT statusProng CandV0bachelor
  /\ (statusProng <? 4) = negb (TESTBIT statusProng CandV0bachelor).
Proof.
  cbv zeta. rewrite fst_selectTrack.
  generalize (keptFor cfg track Cand2Prong) (keptFor cfg track Cand3Prong)
             (keptFor cfg track CandV0bachelor).
  intros k2 k3 kB.
  pose proof (TESTBIT_statusProngOf k2 k3 kB) as (H2 & H3 & HB).
  rewrite H2, H3, HB, statusProngOf_positive, statusProngOf_bachelor.
  split; [apply statusProngOf_range|]. split; reflexivity.
Qed.

Section TrackRegistry.
Import HfTagSelTracks.
Context {TF : TrackFlagsRun2Enum}.
Variable cfg : Config.

Lemma snd_if_rejectTrack (b : bool) (candType iDebugCut : Z) (st : Z * Registry) :
  snd (if b then rejectTrack cfg candType iDebugCut st else st)
  = snd st
      ++ hRejTracksEntry (b && debug cfg && fillHistograms cfg) candType iDebugCut.
Proof.
  unfold rejectTrack, fillRejTracks, hRejTracksEntry, fill.
  destruct b, (debug cfg), (fillHistograms cfg); cbn [snd andb];
    rewrite ?app_nil_r; reflexivity.
Qed.

Lemma hRejTracksEntry_debug (b c : bool) (candType iDebugCut : Z) :
  hRejTracksEntry ((debug cfg || c) && b && debug cfg && fillHistograms cfg)
                  candType iDebugCut
  = hRejTracksEntry (debug cfg && fillHistograms cfg && b) candType iDebugCut.
Proof. destruct (debug cfg), c, b, (fillHistograms cfg); reflexivity. Qed.

Lemma hRejTracksEntry_order (b : bool) (candType iDebugCut : Z) :
  hRejTracksEntry (b && debug cfg && fillHistograms cfg) candType iDebugCut
  = hRejTracksEntry (debug cfg && fillHistograms cfg && b) candType iDebugCut.
Proof. destruct (debug cfg), b, (fillHistograms cfg); reflexivity. Qed.

Lemma snd_cutPt (trackPt : Q) (st : Z * Registry) :
  snd (cutPt cfg trackPt st)
  = snd st
      ++ hRejTracksEntry (debug cfg && fillHistograms cfg
                          && ltb trackPt (pTMinTrack2Prong cfg)) Cand2Prong 2
      ++ hRejTracksEntry (debug cfg && fillHistograms cfg
                          && ltb trackPt (pTMinTrack3Prong cfg)) Cand3Prong 2
      ++ hRejTracksEntry (debug cfg && fillHistograms cfg
                          && ltb trackPt (ptMinTrackBach cfg)) CandV0bachelor 2.
Proof.
  unfold cutPt. cbv zeta.
  rewrite !snd_if_rejectTrack, !hRejTracksEntry_order, <- !app_assoc.
  reflexivity.
Qed.

Lemma snd_cutEta (trackEta : Q) (st : Z * Registry) :
  snd (cutEta cfg trackEta st)
  = snd st
      ++ hRejTracksEntry (debug cfg && fillHistograms cfg
                          && gtb (Qabs trackEta) (etaMax2Prong cfg)) Cand2Prong 3
      ++ hRejTracksEntry (debug cfg && fillHistograms cfg
                          && gtb (Qabs trackEta) (etaMax3Prong cfg)) Cand3Prong 3
      ++ hRejTracksEntry (debug cfg && fillHistograms cfg
                          && gtb (Qabs trackEta) (etaMaxBach cfg)) CandV0bachelor 3.
Proof.
  unfold cutEta. cbv zeta.
  rewrite !snd_if_rejectTrack, !hRejTracksEntry_debug, <- !app_assoc.
  reflexivity.
Qed.

Lemma snd_cutQuality (track : MY_TYPE1) (st : Z * Registry) :
  snd (cutQuality cfg track st)
  = snd st
      ++ hRejTracksEntry (debug cfg && fillHistograms cfg && doCutQuality cfg
                          && negb (passesQuality cfg track)) Cand2Prong 4
      ++ hRejTracksEntry (debug cfg && fillHistograms cfg && doCutQuality cfg
                          && negb (passesQuality cfg track)) Cand3Prong 4
      ++ hRejTracksEntry (debug cfg && fillHistograms cfg && doCutQuality cfg
                          && negb (passesQuality cfg track)) CandV0bachelor 4.
Proof.
  unfold cutQuality, hRejTracksEntry, fill. cbv zeta.
  destruct (debug cfg), (fillHistograms cfg), (doCutQuality cfg),
           (passesQuality cfg track);
    cbn [andb orb negb snd fold_left]; try destruct (fst st >? 0);
    cbn [snd]; rewrite <- ?app_assoc, ?app_nil_r; reflexivity.
Qed.

Lemma snd_cutDCA (trackPt : Q) (dca : Q * Q) (st : Z * Registry) :
  snd (cutDCA cfg trackPt dca st)
  = snd st
      ++ hRejTracksEntry
           (debug cfg && fillHistograms cfg
            && negb (isSelectedTrack (pTBinsTrack cfg) (cutsSingleTrack cfg)
                       trackPt dca (Z.to_nat Cand2Prong))) Cand2Prong 5
      ++ hRejTracksEntry
           (debug cfg && fillHistograms cfg
            && negb (isSelectedTrack (pTBinsTrack cfg) (cutsSingleTrack cfg)
                       trackPt dca (Z.to_nat Cand3Prong))) Cand3Prong 5
      ++ hRejTracksEntry
           (debug cfg && fillHistograms cfg
            && negb (isSelectedTrack (pTBinsTrack cfg) (cutsSingleTrack cfg)
                       trackPt dca (Z.to_nat CandV0bachelor))) CandV0bachelor 5.
Proof.
  unfold cutDCA. cbv zeta.
  destruct (debug cfg || (fst st >? 0)) eqn:Hguard.
  - rewrite !snd_if_rejectTrack, !hRejTracksEntry_debug, <- !app_assoc.
    reflexivity.
  - apply orb_false_iff in Hguard as [-> _]. cbn [andb hRejTracksEntry].
    rewrite !app_nil_r. reflexivity.
Qed.

Lemma entries_hRejTracksEntry (b : bool) (candType iDebugCut : Z) (x : Q) :
  entries "hRejTracks" x (hRejTracksEntry b candType iDebugCut)
  = if b && Qeq_bool (inject_Z ((nCuts + 1) * candType + iDebugCut)) x
    then 1%nat else 0%nat.
Proof.
  destruct b; [|reflexivity]. unfold hRejTracksEntry, entries. cbn.
  destruct (Qeq_bool _ _); reflexivity.
Qed.

Lemma entries_fillSelected (statusProng candType : Z) (hPt hEta hDCA : string)
    (trackPt trackEta : Q) (dca : Q * Q) (reg : Registry) (x : Q) :
  String.eqb hPt "hRejTracks" = false ->
  String.eqb hEta "hRejTracks" = false ->
  String.eqb hDCA "hRejTracks" = false ->
  entries "hRejTracks" x
    (fillSelected cfg statusProng candType hPt hEta hDCA trackPt trackEta dca reg)
  = (entries "hRejTracks" x reg
     + entries "hRejTracks" x
         (hRejTracksEntry (debug cfg && TESTBIT statusProng candType)
                          candType 1))%nat.
Proof.
  intros H1 H2 H3. unfold fillSelected, fill. cbv zeta.
  destruct (TESTBIT statusProng candType), (debug cfg); cbn [andb hRejTracksEntry];
    rewrite ?entries_app; unfold entries; cbn [List.filter fst snd];
    rewrite ?H1, ?H2, ?H3; cbn [andb length]; lia.
Qed.

End TrackRegistry.

Ltac eval_Qeq_bool :=
  repeat match goal with
         | |- context [Qeq_bool ?x ?y] =>
             let v := eval vm_compute in (Qeq_bool x y) in
             change (Qeq_bool x y) with v
         end.

(** X7 -- [hRejTracks] is filled in debug mode with histograms on, and
    only then.  In that mode every cut is evaluated for every track, so
    for each candidate type a track adds one entry to the bin of each cut
    it fails (pT, eta, quality, DCA), whatever the other cuts say, and one
    entry to the bin "selected" exactly when it is kept for that type. *)
Theorem hRejTracks_counts {TF : TrackFlagsRun2Enum}
    (cfg : HfTagSelTracks.Config) (track : HfTagSelTracks.MY_TYPE1)
    (reg : Registry) (candType : Z) :
  0 <= candType < NCandidateTypes ->
  let reg' := snd (HfTagSelTracks.selectTrack cfg track reg) in
  let count (b : bool) :=
    if HfTagSelTracks.debug cfg && HfTagSelTracks.fillHistograms cfg && b
    then 1%nat else 0%nat in
  rejTracks candType 1 reg'
  = (rejTracks candType 1 reg + count (keptFor cfg track candType))%nat
  /\ rejTracks candType 2 reg'
     = (rejTracks candType 2 reg
        + count (ltb (HfTagSelTracks.pt track) (pTMinTrack cfg candType)))%nat
  /\ rejTracks candType 3 reg'
     = (rejTracks candType 3 reg
        + count (gtb (Qabs (HfTagSelTracks.eta track))
                     (etaMaxTrack cfg candType)))%nat
  /\ rejTracks candType 4 reg'
     = (rejTracks candType 4 reg
        + count (HfTagSelTracks.doCutQuality cfg
                 && negb (HfTagSelTracks.passesQuality cfg track)))%nat
  /\ rejTracks candType 5 reg'
     = (rejTracks candType 5 reg
        + count (negb (isSelectedTrack (HfTagSelTracks.pTBinsTrack cfg)
                         (HfTagSelTracks.cutsSingleTrack cfg)
                         (HfTagSelTracks.pt track)
                         (HfTagSelTracks.dcaXY track, HfTagSelTracks.dcaZ track)
                         (Z.to_nat candType))))%nat.
Proof.
  intros Hc. cbv beta zeta.
  pose proof (fst_selectTrack cfg track reg) as Hfst.
  unfold HfTagSelTracks.selectTrack in *. cbv zeta in *. cbn [fst snd] in *.
  pose proof (TESTBIT_statusProngOf (keptFor cfg track Cand2Prong)
                (keptFor cfg track Cand3Prong)
                (keptFor cfg track CandV0bachelor)) as (H2 & H3 & HB).
  unfold rejTracks.
  assert (Hcase : candType = 0 \/ candType = 1 \/ candType = 2)
    by (unfold NCandidateTypes in Hc; lia).
  destruct (HfTagSelTracks.fillHistograms cfg) eqn:Hfh;
    rewrite ?entries_fillSelected by reflexivity;
    rewrite ?Hfst, ?H2, ?H3, ?HB;
    rewrite snd_cutDCA, snd_cutQuality, snd_cutEta, snd_cutPt; cbn [snd];
    unfold fill; rewrite !entries_app, !entries_hRejTracksEntry, ?Hfh;
    unfold Cand2Prong, Cand3Prong, CandV0bachelor;
    destruct Hcase as [->|[->| ->]];
    cbn [pTMinTrack etaMaxTrack Z.eqb Cand2Prong Cand3Prong Pos.eqb];
    eval_Qeq_bool;
    rewrite ?andb_false_r, ?andb_true_r; cbv iota;
    unfold entries; cbn [List.filter fst snd String.eqb Ascii.eqb Bool.eqb andb length];
    destruct (HfTagSelTracks.debug cfg); cbn [andb];
    rewrite ?Nat.add_0_r; repeat split; reflexivity.
Qed.

Section TrackRows.
Import HfTagSelTracks.
Context {TF : TrackFlagsRun2Enum}.

Lemma rows_process (cfg : Config) (tracks : list MY_TYPE1) (out : Output) :
  rowSelectedTrack (process cfg tracks out)
  = rowSelectedTrack out ++ map (rowOfTrack cfg) tracks.
Proof.
  unfold process. revert out.
  induction tracks as [|track tracks IH]; intros out.
  - cbn. rewrite app_nil_r. reflexivity.
  - cbn [fold_left map]. rewrite IH.
    destruct (selectTrack cfg track (registry out)) as [statusProng reg] eqn:E.
    cbn [rowSelectedTrack]. rewrite <- app_assoc. cbn [app].
    apply (f_equal fst) in E. rewrite fst_selectTrack in E. cbn [fst] in E.
    subst statusProng. reflexivity.
Qed.

End TrackRows.

(** X8 -- [HfTagSelTracks::process] appends exactly one row per track, in
    the order of the track table, so that the produced table can be joined
    to it index by index; the row of a track carries its status and its
    momentum and depends on the track and on the cuts only: neither the
    rows written before, nor the registry, nor the flags [debug] and
    [fillHistograms] change it. *)
Theorem one_row_per_track {TF : TrackFlagsRun2Enum}
    (cfg : HfTagSelTracks.Config) (tracks : list HfTagSelTracks.MY_TYPE1)
    (out : HfTagSelTracks.Output) (fillHistograms debug : bool) :
  HfTagSelTracks.rowSelectedTrack (HfTagSelTracks.process cfg tracks out)
  = HfTagSelTracks.rowSelectedTrack out ++ map (rowOfTrack cfg) tracks
  /\ HfTagSelTracks.rowSelectedTrack
       (HfTagSelTracks.process (withFlags fillHistograms debug cfg) tracks out)
     = HfTagSelTracks.rowSelectedTrack (HfTagSelTracks.process cfg tracks out)
  /\ forall (i : nat) (track : HfTagSelTracks.MY_TYPE1),
       tracks !! i = Some track ->
       HfTagSelTracks.rowSelectedTrack (HfTagSelTracks.process cfg tracks out)
         !! (length (HfTagSelTracks.rowSelectedTrack out) + i)%nat
       = Some (fst (HfTagSelTracks.selectTrack cfg track []),
               HfTagSelTracks.px track, HfTagSelTracks.py track,
               HfTagSelTracks.pz track).
Proof.
  split; [apply rows_process|]. split.
  - rewrite !rows_process. reflexivity.
  - intros i track Hi. rewrite rows_process.
    rewrite lookup_app_r by lia.
    replace (length (HfTagSelTracks.rowSelectedTrack out) + i
             - length (HfTagSelTracks.rowSelectedTrack out))%nat with i by lia.
    rewrite list_lookup_fmap, Hi, fst_selectTrack. reflexivity.
Qed.

(* ===================================================================== *)
(** * More on HfTrackIndexSkimsCreator: tables and bitmaps *)
(* ===================================================================== *)

(** A number whose bits from [k] on are all clear lies in [0, 2^k). *)
Lemma bits_bounded (k x : Z) :
  0 <= k -> (forall l, k <= l -> Z.testbit x l = false) -> 0 <= x < 2 ^ k.
Proof.
  intros Hk Hbits.
  assert (Hx : 0 <= x).
  { apply (Z.bits_iff_nonneg x (Z.max k (Z.succ (Z.log2 (Z.abs x))))); [lia|].
    apply Hbits. lia. }
  apply Z.bounded_iff_bits_nonneg'; assumption.
Qed.

Lemma TESTBIT_allset_nat (n i : nat) :
  TESTBIT (BIT (Z.of_nat n) - 1) (Z.of_nat i) = (i <? n)%nat.
Proof.
  rewrite TESTBIT_testbit by lia. unfold BIT.
  rewrite Z.shiftl_1_l, Z.sub_1_r, <- Z.ones_equiv.
  rewrite Z.testbit_ones_nonneg by lia.
  destruct (Nat.ltb_spec i n); [apply Z.ltb_lt | apply Z.ltb_ge]; lia.
Qed.

Lemma TESTBIT_bounded (n : nat) (x : Z) :
  (forall j : nat, (n <= j)%nat -> TESTBIT x (Z.of_nat j) = false) ->
  0 <= x < BIT (Z.of_nat n).
Proof.
  intros H. rewrite BIT_pow2 by lia. apply bits_bounded; [lia|].
  intros l Hl. specialize (H (Z.to_nat l)).
  rewrite Z2Nat.id, TESTBIT_testbit in H by lia. apply H. lia.
Qed.

Lemma TESTBIT_fold_CLRBIT (row : list bool) (l : list nat) (b : Z) (c : nat) :
  TESTBIT (fold_left (fun b iCut => if negb (row !!! iCut)
                                    then CLRBIT b (Z.of_nat iCut) else b) l b)
          (Z.of_nat c)
  = TESTBIT b (Z.of_nat c)
    && forallb (fun iCut => negb (Nat.eqb iCut c) || (row !!! iCut)) l.
Proof.
  revert b. induction l as [|iCut l IH]; intros b; cbn [fold_left forallb].
  - rewrite andb_true_r. reflexivity.
  - rewrite IH. destruct (row !!! iCut) eqn:E; cbn [negb].
    + rewrite orb_true_r. reflexivity.
    + rewrite TESTBIT_CLRBIT_nat, orb_false_r, andb_assoc. reflexivity.
Qed.

Lemma forallb_seq_row (row : list bool) (n c : nat) :
  forallb (fun iCut => negb (Nat.eqb iCut c) || (row !!! iCut)) (seq 0 n)
  = negb (c <? n)%nat || (row !!! c).
Proof.
  induction n as [|n IH]; [reflexivity|].
  rewrite seq_S, forallb_app, IH. cbn [forallb Nat.add]. rewrite andb_true_r.
  destruct (Nat.eqb_spec n c) as [->|Hne].
  - replace (c <? c)%nat with false by (symmetry; apply Nat.ltb_ge; lia).
    replace (c <? S c)%nat with true by (symmetry; apply Nat.ltb_lt; lia).
    reflexivity.
  - cbn [negb orb]. rewrite andb_true_r.
    destruct (Nat.ltb_spec c n), (Nat.ltb_spec c (S n)); try lia; reflexivity.
Qed.

Lemma TESTBIT_cutStatusBits (nCuts : nat) (row : list bool) (iCut : nat) :
  TESTBIT (cutStatusBits nCuts row) (Z.of_nat iCut)
  = (iCut <? nCuts)%nat && (row !!! iCut).
Proof.
  unfold cutStatusBits.
  rewrite TESTBIT_fold_CLRBIT, forallb_seq_row, TESTBIT_allset_nat.
  destruct (iCut <? nCuts)%nat; reflexivity.
Qed.

Lemma cutStatusBits_range (nCuts : nat) (row : list bool) :
  0 <= cutStatusBits nCuts row < BIT (Z.of_nat nCuts).
Proof.
  apply TESTBIT_bounded. intros j Hj. rewrite TESTBIT_cutStatusBits.
  replace (j <? nCuts)%nat with false by (symmetry; apply Nat.ltb_ge; lia).
  reflexivity.
Qed.

(** X9 -- The cut-status word written beside a candidate row encodes the
    row of the boolean cut-status matrix bit by bit: bit [iCut] is set
    exactly when [iCut] is one of the [nCuts] selections and its entry is
    true, no other bit is set, and two rows of [nCuts] entries with the
    same word are the same row. *)
Theorem cutStatusBits_encodes_the_row (nCuts : nat) (row row' : list bool) :
  (forall iCut : nat,
      TESTBIT (cutStatusBits nCuts row) (Z.of_nat iCut)
      = (iCut <? nCuts)%nat && (row !!! iCut))
  /\ 0 <= cutStatusBits nCuts row < BIT (Z.of_nat nCuts)
  /\ (length row = nCuts -> length row' = nCuts ->
      cutStatusBits nCuts row = cutStatusBits nCuts row' -> row = row').
Proof.
  split; [apply TESTBIT_cutStatusBits|]. split; [apply cutStatusBits_range|].
  intros Hlen Hlen' Heq. apply list_eq_same_length with nCuts; try assumption.
  intros i x y Hi Hx Hy.
  pose proof (TESTBIT_cutStatusBits nCuts row i) as H.
  rewrite Heq, TESTBIT_cutStatusBits in H.
  replace (i <? nCuts)%nat with true in H by (symmetry; apply Nat.ltb_lt; lia).
  cbn [andb] in H.
  rewrite (list_lookup_total_correct _ _ _ Hx),
          (list_lookup_total_correct _ _ _ Hy) in H.
  congruence.
Qed.

Lemma rowsAdded_refl (cfg : Config) (tracks : list Track) (ps : ProcessState) :
  rowsAdded cfg tracks ps ps.
Proof.
  exists [], [], [], []. rewrite !app_nil_r.
  repeat split; try reflexivity; try constructor.
  all: destruct (debug cfg); reflexivity.
Qed.

Lemma rowsAdded_trans (cfg : Config) (tracks : list Track)
    (ps1 ps2 ps3 : ProcessState) :
  rowsAdded cfg tracks ps1 ps2 -> rowsAdded cfg tracks ps2 ps3 ->
  rowsAdded cfg tracks ps1 ps3.
Proof.
  intros (a2 & s2 & a3 & s3 & Ha2 & Hs2 & Ha3 & Hs3 & HP2 & HP3 & Hno & Hl2
          & Hl3 & Hw2 & Hw3)
         (b2 & t2 & b3 & t3 & Hb2 & Ht2 & Hb3 & Ht3 & HQ2 & HQ3 & Hno' & Hm2
          & Hm3 & Hv2 & Hv3).
  exists (a2 ++ b2), (s2 ++ t2), (a3 ++ b3), (s3 ++ t3).
  rewrite Hb2, Ht2, Hb3, Ht3, Ha2, Hs2, Ha3, Hs3, <- !app_assoc.
  repeat split; try reflexivity; try (apply Forall_app; split; assumption).
  - intros H. rewrite (Hno H), (Hno' H). reflexivity.
  - rewrite !length_app, Hl2, Hm2. destruct (debug cfg); reflexivity.
  - rewrite !length_app, Hl3, Hm3. destruct (debug cfg); reflexivity.
Qed.

Section RowsAdded.

Context {RD : RecoDecay} {DF : DCAFitter}.
Variable cfg : Config.
Variable primVtx : array3.

Lemma csc_evaluate2Prong (t0 t1 : Track) (sv : Statics) (st : CandState) :
  cleared_stays_cleared (isSelected st)
    (isSelected (snd (fst (evaluate2Prong cfg primVtx t0 t1 sv st)))).
Proof.
  unfold evaluate2Prong.
  pose proof (csc_preselected cfg (Cand2 t0 t1) sv st) as Hpre.
  cbn [preselected] in Hpre.
  destruct (is2ProngPreselected cfg t0 t1 sv st) as [sv1 st1]. cbn [snd] in Hpre.
  destruct ((isSelected st1 >? 0) && _); [|exact Hpre].
  match goal with
  | |- context [is2ProngSelected cfg ?p ?s ?v sv1 st1] =>
      pose proof (csc_selected cfg (Cand2 t0 t1) p s v sv1 st1) as Hpost;
      cbn [selected] in Hpost;
      destruct (is2ProngSelected cfg p s v sv1 st1) as [sv2 st2]
  end.
  cbn [fst snd] in *. eapply csc_trans; eassumption.
Qed.

Lemma csc_evaluate3Prong (t0 t1 t2 : Track) (sv : Statics) (st : CandState) :
  cleared_stays_cleared (isSelected st)
    (isSelected (snd (fst (evaluate3Prong cfg primVtx t0 t1 t2 sv st)))).
Proof.
  unfold evaluate3Prong.
  pose proof (csc_preselected cfg (Cand3 t0 t1 t2) sv st) as Hpre.
  cbn [preselected] in Hpre.
  destruct (is3ProngPreselected cfg t0 t1 t2 sv st) as [sv1 st1].
  cbn [snd] in Hpre.
  destruct (negb (debug cfg) && (isSelected st1 =? 0)); [exact Hpre|].
  destruct (nVertices _ =? 0); [exact Hpre|].
  match goal with
  | |- context [is3ProngSelected cfg ?p ?s ?v sv1 st1] =>
      pose proof (csc_selected cfg (Cand3 t0 t1 t2) p s v sv1 st1) as Hpost;
      cbn [selected] in Hpost;
      destruct (is3ProngSelected cfg p s v sv1 st1) as [sv2 st2]
  end.
  cbn [fst snd] in *.
  destruct (negb (debug cfg) && (isSelected st2 =? 0));
    eapply csc_trans; eassumption.
Qed.

(** The bitmap a candidate ends with is a mask of its decays. *)
Lemma mask_range (n : nat) (m : Z) :
  cleared_stays_cleared (BIT (Z.of_nat n) - 1) m -> 0 <= m < BIT (Z.of_nat n).
Proof.
  intros Hcsc. apply TESTBIT_bounded. intros j Hj. apply Hcsc.
  rewrite TESTBIT_allset_nat. apply Nat.ltb_ge. exact Hj.
Qed.

Lemma evaluate3Prong_filled (t0 t1 t2 : Track) (sv : Statics) (st : CandState) :
  debug cfg = false ->
  snd (evaluate3Prong cfg primVtx t0 t1 t2 sv st) = true ->
  isSelected (snd (fst (evaluate3Prong cfg primVtx t0 t1 t2 sv st))) <> 0.
Proof.
  intros Hdbg. unfold evaluate3Prong. rewrite Hdbg. cbn [negb andb].
  destruct (is3ProngPreselected cfg t0 t1 t2 sv st) as [sv1 st1].
  destruct (isSelected st1 =? 0); [discriminate|].
  destruct (nVertices _ =? 0); [discriminate|].
  destruct (is3ProngSelected _ _ _ _ _ _) as [sv2 st2].
  destruct (Z.eqb_spec (isSelected st2) 0); [discriminate|].
  intros _. assumption.
Qed.

Lemma words_range (nCuts n : nat) (rows : list (list bool)) :
  length (map (fun iDecay => cutStatusBits nCuts (rows !!! iDecay)) (seq 0 n)) = n
  /\ Forall (fun w => 0 <= w < BIT (Z.of_nat nCuts))
       (map (fun iDecay => cutStatusBits nCuts (rows !!! iDecay)) (seq 0 n)).
Proof.
  split; [rewrite length_map, length_seq; reflexivity|].
  apply List.Forall_forall. intros w Hw. apply in_map_iff in Hw as (i & <- & _).
  apply cutStatusBits_range.
Qed.

Variable tracks : list Track.

Lemma rowsAdded_process2Prong (p n : Track) (ps : ProcessState) :
  In p tracks -> In n tracks ->
  (0 <= signed1Pt p)%Q -> (signed1Pt n <= 0)%Q ->
  rowsAdded cfg tracks ps (process2Prong cfg primVtx p n ps).
Proof.
  intros Hp Hn Hpos Hneg. unfold process2Prong. cbv zeta.
  destruct (TESTBIT (isSelProng p) Cand2Prong) eqn:Ep;
    [|exists [], [], [], []; cbn; rewrite !app_nil_r;
      repeat split; try reflexivity; try constructor;
      destruct (debug cfg); reflexivity].
  destruct (TESTBIT (isSelProng n) Cand2Prong) eqn:En;
    [|exists [], [], [], []; cbn; rewrite !app_nil_r;
      repeat split; try reflexivity; try constructor;
      destruct (debug cfg); reflexivity].
  cbn [andb].
  pose proof (csc_evaluate2Prong p n (statics ps) (start2Prong cfg ps)) as Hcsc.
  pose proof (evaluate2Prong_filled cfg primVtx p n (statics ps)
                (start2Prong cfg ps)) as Hfilled.
  destruct (evaluate2Prong cfg primVtx p n (statics ps) (start2Prong cfg ps))
    as [[sv' st'] fill].
  cbn [fst snd rowTrackIndexProng2 rowProng2CutStatus rowTrackIndexProng3
       rowProng3CutStatus] in *.
  destruct fill.
  - exists [(globalIndex p, globalIndex n, isSelected st')],
           (if debug cfg
            then [map (fun iDecay2P =>
                         cutStatusBits nCuts2Prong (cutStatus st' !!! iDecay2P))
                      (seq 0 n2ProngDecays)]
            else []), [], [].
    rewrite !app_nil_r. cbn [andb].
    split; [reflexivity|].
    split; [destruct (debug cfg); [reflexivity|rewrite app_nil_r; reflexivity]|].
    split; [reflexivity|]. split; [reflexivity|].
    split.
    { constructor; [|constructor]. exists p, n. cbn [fst snd].
      repeat split; try assumption; try reflexivity.
      - apply Hfilled. reflexivity.
      - apply (mask_range n2ProngDecays), Hcsc. }
    split; [constructor|]. split; [reflexivity|].
    split; [destruct (debug cfg); reflexivity|].
    split; [destruct (debug cfg); reflexivity|].
    split; [|constructor].
    destruct (debug cfg); [|constructor].
    constructor; [|constructor]. apply words_range.
  - exists [], [], [], []. cbn [andb]. rewrite !app_nil_r.
    repeat split; try reflexivity; try constructor;
      destruct (debug cfg); reflexivity.
Qed.

Lemma rowsAdded_process3Prong (t0 t1 t2 : Track) (ps : ProcessState) :
  In t0 tracks -> In t1 tracks -> In t2 tracks ->
  TESTBIT (isSelProng t0) Cand3Prong = true ->
  TESTBIT (isSelProng t1) Cand3Prong = true ->
  TESTBIT (isSelProng t2) Cand3Prong = true ->
  (((0 <= signed1Pt t0)%Q /\ (signed1Pt t1 <= 0)%Q /\ (0 <= signed1Pt t2)%Q)
   \/ ((signed1Pt t0 <= 0)%Q /\ (0 <= signed1Pt t1)%Q
       /\ (signed1Pt t2 <= 0)%Q)) ->
  do3prong cfg = 1 ->
  rowsAdded cfg tracks ps (process3Prong cfg primVtx t0 t1 t2 ps).
Proof.
  intros H0 H1 H2 E0 E1 E2 Hsigns Hdo. unfold process3Prong.
  pose proof (csc_evaluate3Prong t0 t1 t2 (statics ps) (start3Prong cfg ps))
    as Hcsc.
  pose proof (evaluate3Prong_filled t0 t1 t2 (statics ps) (start3Prong cfg ps))
    as Hfilled.
  destruct (evaluate3Prong cfg primVtx t0 t1 t2 (statics ps) (start3Prong cfg ps))
    as [[sv' st'] fill].
  cbn [fst snd rowTrackIndexProng2 rowProng2CutStatus rowTrackIndexProng3
       rowProng3CutStatus] in *.
  assert (Hrange : 0 <= isSelected st' < BIT (Z.of_nat n3ProngDecays))
    by apply (mask_range n3ProngDecays), Hcsc.
  destruct fill.
  - exists [], [], [(globalIndex t0, globalIndex t1, globalIndex t2, isSelected st')],
           (if debug cfg
            then [map (fun iDecay3P =>
                         cutStatusBits nCuts3Prong (cutStatus st' !!! iDecay3P))
                      (seq 0 n3ProngDecays)]
            else []).
    rewrite !app_nil_r. cbn [andb].
    split; [reflexivity|]. split; [reflexivity|]. split; [reflexivity|].
    split; [destruct (debug cfg); [reflexivity|rewrite app_nil_r; reflexivity]|].
    split; [constructor|].
    split.
    { constructor; [|constructor]. exists t0, t1, t2. cbn [fst snd].
      repeat split; try assumption; try reflexivity; try apply Hrange.
      intros Hdbg. specialize (Hfilled Hdbg eq_refl). lia. }
    split; [intros H; contradiction|].
    split; [destruct (debug cfg); reflexivity|].
    split; [destruct (debug cfg); reflexivity|].
    split; [constructor|].
    destruct (debug cfg); [|constructor].
    constructor; [|constructor]. apply words_range.
  - exists [], [], [], []. cbn [andb]. rewrite !app_nil_r.
    repeat split; try reflexivity; try constructor;
      destruct (debug cfg); reflexivity.
Qed.

Lemma in_middle {A : Type} (x : A) (before after : list A) :
  In x (before ++ x :: after).
Proof. apply in_or_app. right. left. reflexivity. Qed.

Lemma in_after {A : Type} (x y : A) (before after before' after' : list A) :
  after = before' ++ y :: after' -> In y (before ++ x :: after).
Proof. intros ->. apply in_or_app. right. right. apply in_middle. Qed.

Lemma rowsAdded_loopPos2 (before1 after1 : list Track) (p1 n1 : Track)
    (ps : ProcessState) :
  tracks = before1 ++ p1 :: after1 -> In n1 tracks ->
  (0 <= signed1Pt p1)%Q -> (signed1Pt n1 <= 0)%Q ->
  TESTBIT (isSelProng p1) Cand3Prong = true ->
  TESTBIT (isSelProng n1) Cand3Prong = true ->
  do3prong cfg = 1 ->
  rowsAdded cfg tracks ps (loopPos2 cfg primVtx p1 n1 after1 ps).
Proof.
  intros Htr Hn1 Hpos Hneg Ep En Hdo. unfold loopPos2.
  apply (for_each_invariant (rowsAdded cfg tracks ps)); [|apply rowsAdded_refl].
  intros before2 p2 after2 s Hafter Hs.
  destruct (ltb (signed1Pt p2) 0) eqn:Esign; [exact Hs|].
  destruct (TESTBIT (isSelProng p2) Cand3Prong) eqn:E2; [|exact Hs].
  cbn [negb]. eapply rowsAdded_trans; [exact Hs|].
  apply rowsAdded_process3Prong; try assumption.
  - rewrite Htr. apply in_middle.
  - rewrite Htr. eapply in_after. exact Hafter.
  - left. repeat split; try assumption. apply ltb_false_le. exact Esign.
Qed.

Lemma rowsAdded_loopNeg2 (before1 after1 : list Track) (p1 n1 : Track)
    (ps : ProcessState) :
  tracks = before1 ++ n1 :: after1 -> In p1 tracks ->
  (0 <= signed1Pt p1)%Q -> (signed1Pt n1 <= 0)%Q ->
  TESTBIT (isSelProng p1) Cand3Prong = true ->
  TESTBIT (isSelProng n1) Cand3Prong = true ->
  do3prong cfg = 1 ->
  rowsAdded cfg tracks ps (loopNeg2 cfg primVtx p1 n1 after1 ps).
Proof.
  intros Htr Hp1 Hpos Hneg Ep En Hdo. unfold loopNeg2.
  apply (for_each_invariant (rowsAdded cfg tracks ps)); [|apply rowsAdded_refl].
  intros before2 n2 after2 s Hafter Hs.
  destruct (gtb (signed1Pt n2) 0) eqn:Esign; [exact Hs|].
  destruct (TESTBIT (isSelProng n2) Cand3Prong) eqn:E2; [|exact Hs].
  cbn [negb]. eapply rowsAdded_trans; [exact Hs|].
  apply rowsAdded_process3Prong; try assumption.
  - rewrite Htr. apply in_middle.
  - rewrite Htr. eapply in_after. exact Hafter.
  - right. repeat split; try assumption. apply gtb_false_le. exact Esign.
Qed.

Lemma rowsAdded_loopNeg1 (before1 after1 : list Track) (p1 : Track)
    (ps : ProcessState) :
  tracks = before1 ++ p1 :: after1 -> (0 <= signed1Pt p1)%Q ->
  rowsAdded cfg tracks ps (loopNeg1 cfg primVtx tracks p1 after1 ps).
Proof.
  intros Htr Hpos. unfold loopNeg1. cbv zeta.
  apply (for_each_invariant (rowsAdded cfg tracks ps)); [|apply rowsAdded_refl].
  intros beforeN n1 afterN s HtrN Hs.
  destruct (gtb (signed1Pt n1) 0) eqn:Esign; [exact Hs|].
  destruct (negb (TESTBIT (isSelProng n1) Cand2Prong)
            && negb (TESTBIT (isSelProng n1) Cand3Prong)); [exact Hs|].
  assert (Hp1 : In p1 tracks) by (rewrite Htr; apply in_middle).
  assert (Hn1 : In n1 tracks) by (rewrite HtrN; apply in_middle).
  assert (Hneg : (signed1Pt n1 <= 0)%Q) by (apply gtb_false_le; exact Esign).
  assert (Hs2 : rowsAdded cfg tracks ps (process2Prong cfg primVtx p1 n1 s)).
  { eapply rowsAdded_trans; [exact Hs|].
    apply rowsAdded_process2Prong; assumption. }
  destruct (Z.eqb_spec (do3prong cfg) 1) as [Hdo|Hdo]; [|exact Hs2].
  destruct (TESTBIT (isSelProng p1) Cand3Prong) eqn:Ep; [|exact Hs2].
  destruct (TESTBIT (isSelProng n1) Cand3Prong) eqn:En; [|exact Hs2].
  cbn [negb orb].
  destruct (length tracks <? 2)%nat; [exact Hs2|].
  eapply rowsAdded_trans; [exact Hs2|].
  apply (rowsAdded_trans _ _ _
           (loopPos2 cfg primVtx p1 n1 after1 (process2Prong cfg primVtx p1 n1 s))).
  - apply (rowsAdded_loopPos2 before1); assumption.
  - apply (rowsAdded_loopNeg2 beforeN); assumption.
Qed.

Lemma rowsAdded_process (ps : ProcessState) :
  rowsAdded cfg tracks ps (process cfg primVtx tracks ps).
Proof.
  unfold process.
  apply (for_each_invariant (rowsAdded cfg tracks ps)); [|apply rowsAdded_refl].
  intros before1 p1 after1 s Htr Hs.
  destruct (ltb (signed1Pt p1) 0) eqn:Esign; [exact Hs|].
  destruct (negb (TESTBIT (isSelProng p1) Cand2Prong)
            && negb (TESTBIT (isSelProng p1) Cand3Prong)); [exact Hs|].
  eapply rowsAdded_trans; [exact Hs|].
  eapply rowsAdded_loopNeg1; [exact Htr|].
  apply ltb_false_le. exact Esign.
Qed.

End RowsAdded.

(** X10 -- [process] only ever adds rows to the index tables, after the
    rows already there.  Every 2-prong row it adds names two tracks of
    the collision that are both tagged for 2-prongs, the first taken by
    the loop over positive tracks and the second by the loop over negative
    ones, with a bitmap between 1 and 7.  Every 3-prong row names three
    tracks all tagged for 3-prongs, the middle one of the other sign than
    the outer two, with a bitmap below 16 that is zero only in debug mode;
    and no 3-prong row is added unless [do3prong] is 1. *)
Theorem new_rows_name_tagged_tracks {RD : RecoDecay} {DF : DCAFitter}
    (cfg : Config) (primVtx : array3) (tracks : list Track)
    (ps : ProcessState) :
  exists (new2 : list (Z * Z * Z)) (new3 : list (Z * Z * Z * Z)),
    rowTrackIndexProng2 (process cfg primVtx tracks ps)
    = rowTrackIndexProng2 ps ++ new2
    /\ rowTrackIndexProng3 (process cfg primVtx tracks ps)
       = rowTrackIndexProng3 ps ++ new3
    /\ Forall (fromPair tracks) new2
    /\ Forall (fromTriple cfg tracks) new3
    /\ (do3prong cfg <> 1 -> new3 = []).
Proof.
  destruct (rowsAdded_process cfg primVtx tracks ps)
    as (new2 & s2 & new3 & s3 & H2 & _ & H3 & _ & HP2 & HP3 & Hno & _).
  exists new2, new3. repeat split; assumption.
Qed.

(** X11 -- In debug mode [process] writes one cut-status row for each
    index row it adds, 2-prong and 3-prong alike, so that the cut-status
    tables stay aligned with the index tables; a cut-status row has one
    word per decay (3 or 4), each a mask of the 4 selections.  Out of debug
    mode the cut-status tables are never written. *)
Theorem cut_status_rows_follow_the_index_rows
    {RD : RecoDecay} {DF : DCAFitter}
    (cfg : Config) (primVtx : array3) (tracks : list Track)
    (ps : ProcessState) :
  let ps' := process cfg primVtx tracks ps in
  exists (status2 status3 : list (list Z)),
    rowProng2CutStatus ps' = rowProng2CutStatus ps ++ status2
    /\ rowProng3CutStatus ps' = rowProng3CutStatus ps ++ status3
    /\ (if debug cfg
        then (length (rowTrackIndexProng2 ps')
              = length (rowTrackIndexProng2 ps) + length status2)%nat
             /\ (length (rowTrackIndexProng3 ps')
                 = length (rowTrackIndexProng3 ps) + length status3)%nat
        else status2 = [] /\ status3 = [])
    /\ Forall (fun words =>
                 length words = n2ProngDecays
                 /\ Forall (fun w => 0 <= w < BIT (Z.of_nat nCuts2Prong)) words)
              status2
    /\ Forall (fun words =>
                 length words = n3ProngDecays
                 /\ Forall (fun w => 0 <= w < BIT (Z.of_nat nCuts3Prong)) words)
              status3.
Proof.
  cbv zeta.
  destruct (rowsAdded_process cfg primVtx tracks ps)
    as (new2 & s2 & new3 & s3 & H2 & Hs2 & H3 & Hs3 & _ & _ & _ & Hl2 & Hl3
        & Hw2 & Hw3).
  exists s2, s3. rewrite H2, H3, !length_app.
  split; [assumption|]. split; [assumption|].
  split; [|split; assumption].
  destruct (debug cfg).
  - rewrite Hl2, Hl3. split; reflexivity.
  - split; apply length_zero_iff_nil; assumption.
Qed.

Section BitFormula.

Context {RD : RecoDecay}.
Variable cfg : Config.

(** The bit the pre-vertex selection leaves for decay [i]. *)
Lemma vbit_vpreselected (c : Candidate) (i : nat) (v : View) :
  is_Some (snd (fst (fst v))) ->
  vbit (vpreselected cfg c i v) = vbit v && passesPre cfg c i.
Proof.
  destruct v as [[[b w] r] l]. intros [w0 Hw]. simpl in Hw. subst w.
  unfold passesPre, massEnabled, massFails, outsideWindow, d0d0Fails.
  destruct c; unfold vpreselected, vis2ProngPreselected, vis3ProngPreselected,
    massMinOf, massMaxOf, massHypo, preBin, vmassStage, vcutStage;
    cbn [cutsOf pTBinsOf arrMomOf arrMassOf venter vset_whichHypo vbit vwhich
         vstages fst snd fmap option_fmap option_map default andb];
    cbv zeta.
  - destruct (findBin _ _ =? -1);
      [cbn [negb andb]; rewrite andb_false_r; reflexivity|].
    destruct (debug cfg), b, (geb _ 0), (gtb _ 0); cbn [orb andb negb];
      repeat match goal with
             | |- context [ltb ?x ?y || geb ?x ?z] =>
                 destruct (ltb x y || geb x z)
             end;
      try destruct (gtb _ _); reflexivity.
  - destruct (findBin _ _ =? -1);
      [cbn [negb andb]; rewrite andb_false_r; reflexivity|].
    destruct (debug cfg), b, (geb _ 0), (gtb _ 0); cbn [orb andb negb];
      repeat match goal with
             | |- context [ltb ?x ?y || geb ?x ?z] =>
                 destruct (ltb x y || geb x z)
             end;
      reflexivity.
Qed.

(** The bit the post-vertex selection leaves for decay [i], when it runs
    its loop. *)
Lemma vbit_vselected (c : Candidate) (pVec secVtx primVtx : array3)
    (i : nat) (v : View) :
  vbit (vselected cfg c pVec secVtx primVtx i v)
  = vbit v && passesPost cfg c pVec secVtx primVtx i.
Proof.
  destruct v as [[[b w] r] l].
  unfold passesPost, cospFails, decLFails.
  destruct c; unfold vselected, vis2ProngSelected, vis3ProngSelected,
    postBin, vcutStage;
    cbn [cutsOf pTBinsOf venter vbit vstages fst snd andb]; cbv zeta.
  - destruct (findBin _ _ =? -1);
      [cbn [negb andb]; rewrite andb_false_r; reflexivity|].
    destruct (debug cfg), b; cbn [orb andb negb]; try destruct (ltb _ _);
      reflexivity.
  - destruct (findBin _ _ =? -1);
      [cbn [negb andb]; rewrite andb_false_r; reflexivity|].
    destruct (debug cfg), b; cbn [orb andb negb];
      try destruct (ltb (CPA _ _ _) _); try destruct (ltb (distance _ _) _);
      reflexivity.
Qed.

End BitFormula.

Lemma vbit_view (i : nat) (st : CandState) :
  vbit (view i st) = TESTBIT (isSelected st) (Z.of_nat i).
Proof. reflexivity. Qed.

Lemma csc_nonneg (a b : Z) : 0 <= a -> cleared_stays_cleared a b -> 0 <= b.
Proof.
  intros Ha Hcsc.
  assert (H : 0 <= b < BIT (Z.of_nat (Z.to_nat (Z.succ (Z.log2 a))))).
  { apply TESTBIT_bounded. intros j Hj. apply Hcsc.
    rewrite TESTBIT_testbit by lia.
    destruct (Z.eq_dec a 0) as [->|Hnz]; [apply Z.bits_0|].
    apply Z.bits_above_log2; [assumption|].
    pose proof (Z.log2_nonneg a). lia. }
  lia.
Qed.

Lemma TESTBIT_zero (j : nat) : TESTBIT 0 (Z.of_nat j) = false.
Proof. rewrite TESTBIT_testbit by lia. apply Z.bits_0. Qed.

Section BitOfSelections.

Context {RD : RecoDecay}.
Variable cfg : Config.
Hypothesis Hwf : wf_config cfg.

Lemma bit_preselected (c : Candidate) (sv : Statics) (st : CandState) (i : nat) :
  (i < nDecays c)%nat -> (i < length (whichHypo st))%nat ->
  TESTBIT (isSelected (snd (preselected cfg c sv st))) (Z.of_nat i)
  = TESTBIT (isSelected st) (Z.of_nat i) && passesPre cfg c i.
Proof.
  intros Hi Hlen. rewrite <- !vbit_view, view_preselected by exact Hwf.
  rewrite bool_decide_eq_true_2 by exact Hi.
  apply vbit_vpreselected, is_Some_which, Hlen.
Qed.

Lemma bit_selected (c : Candidate) (pVec secVtx primVtx : array3)
    (sv : Statics) (st : CandState) (i : nat) :
  (i < nDecays c)%nat -> 0 <= isSelected st ->
  TESTBIT (isSelected (snd (selected cfg c pVec secVtx primVtx sv st))) (Z.of_nat i)
  = TESTBIT (isSelected st) (Z.of_nat i)
    && passesPost cfg c pVec secVtx primVtx i.
Proof.
  intros Hi Hnn. rewrite <- !vbit_view, view_selected by exact Hwf.
  rewrite bool_decide_eq_true_2, andb_true_r by exact Hi.
  destruct (debug cfg || (isSelected st >? 0)) eqn:Hguard.
  - apply vbit_vselected.
  - apply orb_false_iff in Hguard as [_ Hz].
    assert (Hzero : isSelected st = 0) by lia.
    rewrite vbit_view, Hzero, TESTBIT_zero. reflexivity.
Qed.

End BitOfSelections.

Section DebugIndependence.

Context {RD : RecoDecay}.
Variable cfg : Config.
Hypothesis Hwf : wf_config cfg.

Lemma bit_preselected_high (c : Candidate) (sv : Statics) (st : CandState)
    (j : nat) :
  (nDecays c <= j)%nat ->
  TESTBIT (isSelected (snd (preselected cfg c sv st))) (Z.of_nat j)
  = TESTBIT (isSelected st) (Z.of_nat j).
Proof.
  intros Hj. rewrite <- !vbit_view, view_preselected by exact Hwf.
  rewrite bool_decide_eq_false_2 by lia. reflexivity.
Qed.

Lemma bit_selected_high (c : Candidate) (pVec secVtx primVtx : array3)
    (sv : Statics) (st : CandState) (j : nat) :
  (nDecays c <= j)%nat ->
  TESTBIT (isSelected (snd (selected cfg c pVec secVtx primVtx sv st))) (Z.of_nat j)
  = TESTBIT (isSelected st) (Z.of_nat j).
Proof.
  intros Hj. rewrite <- !vbit_view, view_selected by exact Hwf.
  rewrite bool_decide_eq_false_2, andb_false_r by lia. reflexivity.
Qed.

End DebugIndependence.


Section WhichHypo.

Context {RD : RecoDecay}.
Variable cfg : Config.

(** A decay the pre-vertex selection leaves selected has a mass ordering
    flagged. *)
Lemma vwhich_of_selected (c : Candidate) (i : nat) (v : View) :
  is_Some (snd (fst (fst v))) ->
  vbit (vpreselected cfg c i v) = true ->
  1 <= vwhich (vpreselected cfg c i v) <= 3.
Proof.
  destruct v as [[[b w] r] l]. intros [w0 Hw]. simpl in Hw. subst w.
  destruct c; unfold vpreselected, vis2ProngPreselected, vis3ProngPreselected,
    vmassStage, vcutStage;
    cbn [venter vset_whichHypo vbit vwhich vstages fst snd fmap option_fmap
         option_map default andb];
    cbv zeta.
  - destruct (findBin _ _ =? -1); [discriminate|].
    destruct (debug cfg), b, (geb _ 0), (gtb _ 0); cbn [orb andb negb];
      repeat match goal with
             | |- context [ltb ?x ?y || geb ?x ?z] =>
                 destruct (ltb x y || geb x z)
             end;
      try destruct (gtb _ _); unfold vwhich, vbit; simpl;
      intros H; try discriminate H; lia.
  - destruct (findBin _ _ =? -1); [discriminate|].
    destruct (debug cfg), b, (geb _ 0), (gtb _ 0); cbn [orb andb negb];
      repeat match goal with
             | |- context [ltb ?x ?y || geb ?x ?z] =>
                 destruct (ltb x y || geb x z)
             end;
      unfold vwhich, vbit; simpl; intros H; try discriminate H; lia.
Qed.

(** The post-vertex selection does not write [whichHypo]. *)
Lemma which_vselected (c : Candidate) (pVec secVtx primVtx : array3)
    (i : nat) (v : View) :
  snd (fst (fst (vselected cfg c pVec secVtx primVtx i v))) = snd (fst (fst v)).
Proof.
  destruct v as [[[b w] r] l].
  destruct c; unfold vselected, vis2ProngSelected, vis3ProngSelected, vcutStage;
    cbn [venter vbit fst snd]; cbv zeta.
  - destruct (findBin _ _ =? -1); [reflexivity|].
    destruct (debug cfg), b; cbn [orb]; try destruct (ltb _ _); reflexivity.
  - destruct (findBin _ _ =? -1); [reflexivity|].
    destruct (debug cfg), b; cbn [orb];
      try destruct (ltb (CPA _ _ _) _); try destruct (ltb (distance _ _) _);
      reflexivity.
Qed.

Hypothesis Hwf : wf_config cfg.

Lemma whichHypo_selected (c : Candidate) (pVec secVtx primVtx : array3)
    (sv : Statics) (st : CandState) :
  whichHypo (snd (selected cfg c pVec secVtx primVtx sv st)) = whichHypo st.
Proof.
  apply list_eq. intros i.
  pose proof (view_selected cfg Hwf c pVec secVtx primVtx sv st i) as Hview.
  apply (f_equal (fun v : View => snd (fst (fst v)))) in Hview.
  cbn [view fst snd] in Hview. rewrite Hview.
  destruct (_ && _); [apply which_vselected|reflexivity].
Qed.

End WhichHypo.

(** X13 -- A decay whose bit is still set after the pre-vertex selection
    has at least one mass ordering flagged: its [whichHypo] is 1, 2 or 3,
    never 0 and never a value left over from another candidate.  The
    post-vertex selection does not write [whichHypo], so the same holds for
    every decay selected in the end, which is what the mass histograms of
    [process] read. *)
Theorem selected_decay_has_a_mass_ordering {RD : RecoDecay} (cfg : Config)
    (c : Candidate) (pVecCand secVtx primVtx : array3)
    (sv sv' : Statics) (st : CandState) (i : nat) :
  wf_config cfg ->
  (i < nDecays c)%nat ->
  (i < length (whichHypo st))%nat ->
  let pre := snd (preselected cfg c sv st) in
  let post := snd (selected cfg c pVecCand secVtx primVtx sv' pre) in
  (TESTBIT (isSelected pre) (Z.of_nat i) = true ->
   1 <= whichHypo pre !!! i <= 3)
  /\ whichHypo post = whichHypo pre
  /\ (TESTBIT (isSelected post) (Z.of_nat i) = true ->
      1 <= whichHypo post !!! i <= 3).
Proof.
  intros Hwf Hi Hlen. cbv zeta.
  assert (Hpre : TESTBIT (isSelected (snd (preselected cfg c sv st))) (Z.of_nat i)
                 = true ->
                 1 <= whichHypo (snd (preselected cfg c sv st)) !!! i <= 3).
  { rewrite read_which, <- vbit_view, view_preselected by exact Hwf.
    rewrite bool_decide_eq_true_2 by exact Hi.
    apply vwhich_of_selected, is_Some_which, Hlen. }
  split; [exact Hpre|].
  split; [apply whichHypo_selected, Hwf|].
  rewrite whichHypo_selected by exact Hwf.
  intros Hpost. apply Hpre.
  destruct (TESTBIT (isSelected (snd (preselected cfg c sv st))) (Z.of_nat i))
    eqn:E; [reflexivity|].
  apply (csc_selected cfg c pVecCand secVtx primVtx sv') in E. congruence.
Qed.

(* ===================================================================== *)
(** * V0-bachelor pairs: HfTrackIndexSkimsCreatorCascades *)
(* ===================================================================== *)

Lemma Zland_nonzero (a b : Z) : (Z.land a b =? 0) = false <-> Z.land a b <> 0.
Proof. apply Z.eqb_neq. Qed.

Section Cascades.
Import HfTrackIndexSkimsCreatorCascades.
Context {TF : TrackFlagsRun2Enum} {RD : RecoDecay} {RM : RecoDecayM}
        {CF : CascadeFitter}.
Variable cfg : Config.
Variable collision : array3.

(** One call of the body of the V0 loop adds the row of the pair, with
    the flag 1, or leaves the output alone. *)
Lemma processV0_rows (bach : MyTracks) (v0 : V0Datas) (out : Output) :
  rowTrackIndexCasc (processV0 cfg collision bach v0 out)
  = rowTrackIndexCasc out
      ++ (if pairGetsRow cfg collision bach v0
          then [(globalIndex bach, v0_globalIndex v0, 1)] else []).
Proof.
  unfold pairGetsRow, processV0. cbv zeta.
  repeat match goal with
         | |- context [if ?b then _ else _] =>
             lazymatch b with
             | negb _ => fail
             | _ => destruct b
             end
         end;
    cbn [rowTrackIndexCasc app length Nat.eqb negb]; rewrite ?app_nil_r;
    reflexivity.
Qed.

Lemma processV0_registry (bach : MyTracks) (v0 : V0Datas) (out : Output) :
  length (registry (processV0 cfg collision bach v0 out))
  = (length (registry out)
     + (if doValPlots cfg && pairGetsRow cfg collision bach v0
        then 4 else 0))%nat.
Proof.
  unfold pairGetsRow, processV0, fill. cbv zeta.
  destruct (doValPlots cfg);
    repeat match goal with
           | |- context [if ?b then _ else _] =>
               lazymatch b with
               | negb _ => fail
               | andb true _ => fail
               | andb false _ => fail
               | _ => destruct b
               end
           end;
    cbn [registry rowTrackIndexCasc app length Nat.eqb negb andb];
    rewrite ?length_app; cbn [length]; lia.
Qed.

Lemma pairGetsRow_formula (bach : MyTracks) (v0 : V0Datas) :
  pairGetsRow cfg collision bach v0
  = negb (TPCRefitV0Daugh cfg
          && ((Z.land (trackType (posTrack v0)) TPCrefit =? 0)
              || (Z.land (trackType (negTrack v0)) TPCrefit =? 0)))
    && negb ((tpcNClsCrossedRows (posTrack v0) <? minCrossedRowsV0Daugh cfg)
             || (tpcNClsCrossedRows (negTrack v0) <? minCrossedRowsV0Daugh cfg))
    && negb (ltb (pt (posTrack v0)) (ptMin cfg)
             || ltb (pt (negTrack v0)) (ptMin cfg))
    && negb (gtb (Qabs (eta (posTrack v0))) (etaMax cfg)
             || gtb (Qabs (eta (negTrack v0))) (etaMax cfg))
    && negb (gtb (Qabs (mK0Short v0 - massK0s cfg)) (cutInvMassV0 cfg))
    && negb (ltb (let '(x, y, z) := collision in v0cosPA v0 x y z) (cosPAV0 cfg))
    && negb (geb (cutCascInvMassLc cfg) 0
             && gtb (Qabs (M [(px bach, py bach, pz bach);
                              (v0_px v0, v0_py v0, v0_pz v0)]
                             [massP cfg; massK0s cfg] - massLc cfg))
                    (cutCascInvMassLc cfg))
    && negb (nVertices (fitter_process v0 bach) =? 0)
    && negb (ltb (Pt [trackMomenta (fitter_process v0 bach) !!! 1%nat;
                      trackMomenta (fitter_process v0 bach) !!! 0%nat])
                 (cutCascPtCandMin cfg)).
Proof.
  unfold pairGetsRow, processV0. cbv zeta.
  repeat match goal with
         | |- context [if ?b then _ else _] =>
             lazymatch b with
             | negb _ => fail
             | _ => destruct b
             end
         end;
    reflexivity.
Qed.

Lemma pairGetsRow_iff (bach : MyTracks) (v0 : V0Datas) :
  bachelorPasses cfg bach && pairGetsRow cfg collision bach v0 = true
  <-> pairAccepted cfg collision bach v0.
Proof.
  rewrite pairGetsRow_formula. unfold bachelorPasses, pairAccepted. cbv zeta.
  rewrite !andb_true_iff, !negb_true_iff, !andb_false_iff, !orb_false_iff,
    !Z.ltb_ge, !ltb_false_le, !gtb_false_le, !Z.eqb_neq.
  rewrite geb_negb_ltb, negb_false_iff, ltb_lt.
  destruct (TPCRefitBach cfg), (TPCRefitV0Daugh cfg);
    intuition (try congruence; try lia).
Qed.

(** The rows a bachelor gets from the loop over the V0s. *)
Lemma loopV0_rows (bach : MyTracks) (V0s : list V0Datas) (out : Output) :
  let out' := fold_left (fun out v0 => processV0 cfg collision bach v0 out)
                        V0s out in
  let new := flat_map (fun v0 => if pairGetsRow cfg collision bach v0
                                 then [(globalIndex bach, v0_globalIndex v0, 1)]
                                 else []) V0s in
  rowTrackIndexCasc out' = rowTrackIndexCasc out ++ new
  /\ length (registry out')
     = (length (registry out)
        + (if doValPlots cfg then 4 * length new else 0))%nat.
Proof.
  cbv zeta. revert out. induction V0s as [|v0 V0s IH]; intros out.
  - cbn. rewrite app_nil_r. split; [reflexivity|]. destruct (doValPlots cfg); lia.
  - cbn [fold_left flat_map].
    destruct (IH (processV0 cfg collision bach v0 out)) as [Hrows Hreg].
    rewrite Hrows, Hreg, processV0_rows, processV0_registry, <- app_assoc.
    split; [reflexivity|].
    rewrite length_app.
    destruct (doValPlots cfg), (pairGetsRow cfg collision bach v0);
      cbn [andb length]; lia.
Qed.

Lemma process_rows_cascades (V0s : list V0Datas) (tracks : list MyTracks)
    (out : Output) :
  let out' := process cfg collision V0s tracks out in
  let new :=
    flat_map (fun bach =>
                if bachelorPasses cfg bach
                then flat_map (fun v0 =>
                                 if pairGetsRow cfg collision bach v0
                                 then [(globalIndex bach, v0_globalIndex v0, 1)]
                                 else []) V0s
                else []) tracks in
  rowTrackIndexCasc out' = rowTrackIndexCasc out ++ new
  /\ length (registry out')
     = (length (registry out)
        + (if doValPlots cfg then 4 * length new else 0))%nat.
Proof.
  cbv zeta. unfold process. revert out.
  induction tracks as [|bach tracks IH]; intros out.
  - cbn. rewrite app_nil_r. split; [reflexivity|]. destruct (doValPlots cfg); lia.
  - cbn [fold_left flat_map].
    match goal with
    | |- context [fold_left _ tracks ?o] => destruct (IH o) as [Hrows Hreg]
    end.
    rewrite Hrows, Hreg. clear IH Hrows Hreg.
    unfold bachelorPasses.
    destruct (isSelProng bach <? 4);
      [cbn [negb andb app]; split; reflexivity|].
    destruct (TPCRefitBach cfg && (Z.land (trackType bach) TPCrefit =? 0));
      [cbn [negb andb app]; split; reflexivity|].
    destruct (tpcNClsCrossedRows bach <? minCrossedRowsBach cfg);
      [cbn [negb andb app]; split; reflexivity|].
    cbn [negb andb].
    destruct (loopV0_rows bach V0s out) as [Hrows Hreg].
    rewrite Hrows, Hreg, <- app_assoc, length_app.
    split; [reflexivity|]. destruct (doValPlots cfg); lia.
Qed.

Lemma length_flat_map_le {A B : Type} (f : A -> list B) (l : list A) (n : nat) :
  (forall a, length (f a) <= n)%nat ->
  (length (flat_map f l) <= length l * n)%nat.
Proof.
  intros Hf. induction l as [|a l IH]; [cbn; lia|].
  cbn [flat_map length]. rewrite length_app. specialize (Hf a). lia.
Qed.

End Cascades.


(* ===================================================================== *)
(** * qaEventTrack::isSelectedTrack *)
(* ===================================================================== *)


(* ===================================================================== *)
(** * The 2-prong table, row by row *)
(* ===================================================================== *)

(** A mask of [n] bits is positive exactly when one of the bits is set. *)
Lemma mask_positive_iff (n : nat) (m : Z) :
  0 <= m < BIT (Z.of_nat n) ->
  0 < m <-> exists i : nat, (i < n)%nat /\ TESTBIT m (Z.of_nat i) = true.
Proof.
  intros Hm. split.
  - intros Hpos.
    exists (Z.to_nat (Z.log2 m)).
    pose proof (Z.log2_nonneg m).
    rewrite Z2Nat.id, TESTBIT_testbit by lia.
    split; [|apply Z.bit_log2; lia].
    rewrite BIT_pow2 in Hm by lia.
    assert (Z.log2 m < Z.of_nat n) by (apply Z.log2_lt_pow2; lia). lia.
  - intros (i & _ & Hi).
    destruct (Z.eq_dec m 0) as [->|]; [|lia].
    rewrite TESTBIT_zero in Hi. discriminate.
Qed.

Lemma for_each_flat_map {S X : Type} (Inv : S -> Prop) (proj : S -> list X)
    (f : Track -> list X) (body : Track -> list Track -> S -> S)
    (rows : list Track) :
  (forall row after s,
      Inv s -> Inv (body row after s) /\ proj (body row after s) = proj s ++ f row) ->
  forall s, Inv s ->
    Inv (for_each body rows s)
    /\ proj (for_each body rows s) = proj s ++ flat_map f rows.
Proof.
  intros Hbody. induction rows as [|row after IH]; intros s Hs.
  - cbn. rewrite app_nil_r. split; [assumption|reflexivity].
  - cbn [for_each flat_map].
    destruct (Hbody row after s Hs) as [Hinv Hproj].
    destruct (IH _ Hinv) as [Hinv' Hproj'].
    split; [assumption|]. rewrite Hproj', Hproj, <- app_assoc. reflexivity.
Qed.

Lemma flat_map_nil {A B : Type} (f : A -> list B) (l : list A) :
  (forall a, f a = []) -> flat_map f l = [].
Proof.
  intros Hf. induction l as [|a l IH]; [reflexivity|].
  cbn. rewrite Hf, IH. reflexivity.
Qed.

Section WhichLength.

Context {RD : RecoDecay}.
Variable cfg : Config.
Hypothesis Hwf : wf_config cfg.

Lemma which_some_vpreselected (c : Candidate) (i : nat) (v : View) :
  is_Some (snd (fst (fst (vpreselected cfg c i v))))
  <-> is_Some (snd (fst (fst v))).
Proof.
  destruct v as [[[b w] r] l].
  destruct c; unfold vpreselected, vis2ProngPreselected, vis3ProngPreselected,
    vmassStage, vcutStage;
    cbn [venter vset_whichHypo vbit vwhich vreject fst snd]; cbv zeta;
    repeat match goal with
           | |- context [if ?b then _ else _] => destruct b
           end;
    cbn [venter vset_whichHypo vbit vwhich vreject fst snd];
    rewrite ?fmap_is_Some; reflexivity.
Qed.

Lemma length_whichHypo_preselected (c : Candidate) (sv : Statics)
    (st : CandState) :
  length (whichHypo (snd (preselected cfg c sv st))) = length (whichHypo st).
Proof.
  assert (H : forall i,
             is_Some (whichHypo (snd (preselected cfg c sv st)) !! i)
             <-> is_Some (whichHypo st !! i)).
  { intros i.
    pose proof (view_preselected cfg Hwf c sv st i) as Hview.
    apply (f_equal (fun v : View => snd (fst (fst v)))) in Hview.
    cbn [view fst snd] in Hview. rewrite Hview.
    destruct (bool_decide _); [apply which_some_vpreselected|reflexivity]. }
  destruct (Nat.lt_trichotomy
              (length (whichHypo (snd (preselected cfg c sv st))))
              (length (whichHypo st))) as [Hlt|[Heq|Hgt]]; [|exact Heq|].
  - apply lookup_lt_is_Some_2, H, lookup_lt_is_Some_1 in Hlt. lia.
  - apply lookup_lt_is_Some_2, H, lookup_lt_is_Some_1 in Hgt. lia.
Qed.

(** The bitmap the pre-vertex selection ends with depends on the state it
    starts from through the bitmap only. *)
Lemma isSelected_preselected_indep (c : Candidate) (sv sv' : Statics)
    (st st' : CandState) :
  isSelected st = isSelected st' ->
  (nDecays c <= length (whichHypo st))%nat ->
  (nDecays c <= length (whichHypo st'))%nat ->
  isSelected (snd (preselected cfg c sv st))
  = isSelected (snd (preselected cfg c sv' st')).
Proof.
  intros Hsel Hlen Hlen'. apply TESTBIT_inj. intros j.
  destruct (Nat.lt_ge_cases j (nDecays c)) as [Hj|Hj].
  - rewrite !bit_preselected by (try exact Hwf; lia). rewrite Hsel. reflexivity.
  - rewrite !bit_preselected_high by assumption. rewrite Hsel. reflexivity.
Qed.

Lemma isSelected_selected_indep (c : Candidate) (pVec secVtx primVtx : array3)
    (sv sv' : Statics) (st st' : CandState) :
  isSelected st = isSelected st' -> 0 <= isSelected st ->
  isSelected (snd (selected cfg c pVec secVtx primVtx sv st))
  = isSelected (snd (selected cfg c pVec secVtx primVtx sv' st')).
Proof.
  intros Hsel Hnn. apply TESTBIT_inj. intros j.
  destruct (Nat.lt_ge_cases j (nDecays c)) as [Hj|Hj].
  - rewrite !bit_selected by (try exact Hwf; try exact Hj; lia).
    rewrite Hsel. reflexivity.
  - rewrite !bit_selected_high by assumption. rewrite Hsel. reflexivity.
Qed.

End WhichLength.

Section PairRows.

Context {RD : RecoDecay} {DF : DCAFitter}.
Variable cfg : Config.
Variable primVtx : array3.
Hypothesis Hwf : wf_config cfg.

Lemma n2ProngBit_nonneg : 0 <= n2ProngBit.
Proof. vm_compute. congruence. Qed.

(** The outcome of a pair in [process] is its outcome evaluated on its
    own, whatever the earlier candidates left behind. *)
Lemma evaluate2Prong_outcome (p n : Track) (sv : Statics) (st0 : CandState) :
  isSelected st0 = n2ProngBit ->
  (n2ProngDecays <= length (whichHypo st0))%nat ->
  let r := evaluate2Prong cfg primVtx p n sv st0 in
  (isSelected (snd (fst r)), snd r) = pairOutcome cfg primVtx p n
  /\ length (whichHypo (snd (fst r))) = length (whichHypo st0).
Proof.
  intros Hsel Hlen. cbv zeta. unfold pairOutcome, evaluate2Prong.
  pose proof (isSelected_preselected_indep cfg Hwf (Cand2 p n) sv noStatics st0
                (freshState n2ProngDecays nCuts2Prong [0; 0; 0]) Hsel Hlen
                (le_n _)) as Hpre.
  pose proof (length_whichHypo_preselected cfg Hwf (Cand2 p n) sv st0) as Hlpre.
  pose proof (csc_preselected cfg (Cand2 p n) sv st0) as Hcsc.
  cbn [preselected] in Hpre, Hlpre, Hcsc.
  destruct (is2ProngPreselected cfg p n sv st0) as [sv1 st1].
  destruct (is2ProngPreselected cfg p n noStatics
              (freshState n2ProngDecays nCuts2Prong [0; 0; 0])) as [sv1' st1'].
  cbn [snd] in Hpre, Hlpre, Hcsc. rewrite <- Hpre.
  destruct ((isSelected st1 >? 0) && (nVertices (df2_process p n) >? 0));
    [|cbn [fst snd]; rewrite Hpre; split; [reflexivity|exact Hlpre]].
  assert (Hnn : 0 <= isSelected st1).
  { eapply csc_nonneg; [|exact Hcsc]. rewrite Hsel. apply n2ProngBit_nonneg. }
  match goal with
  | |- context [is2ProngSelected cfg ?pv ?sx ?vx sv1 st1] =>
      pose proof (isSelected_selected_indep cfg Hwf (Cand2 p n) pv sx vx
                    sv1 sv1' st1 st1' Hpre Hnn) as Hpost;
      pose proof (whichHypo_selected cfg Hwf (Cand2 p n) pv sx vx sv1 st1)
        as Hwpost;
      cbn [selected] in Hpost, Hwpost;
      destruct (is2ProngSelected cfg pv sx vx sv1 st1) as [sv2 st2];
      destruct (is2ProngSelected cfg pv sx vx sv1' st1') as [sv2' st2']
  end.
  cbn [fst snd] in *. rewrite Hpost, Hwpost. split; [reflexivity|exact Hlpre].
Qed.

Lemma pairs_process2Prong (p n : Track) (ps : ProcessState) :
  length (whichHypo2Prong ps) = n2ProngDecays ->
  length (whichHypo2Prong (process2Prong cfg primVtx p n ps)) = n2ProngDecays
  /\ rowTrackIndexProng2 (process2Prong cfg primVtx p n ps)
     = rowTrackIndexProng2 ps
         ++ (if TESTBIT (isSelProng p) Cand2Prong
                && TESTBIT (isSelProng n) Cand2Prong
                && snd (pairOutcome cfg primVtx p n)
             then [(globalIndex p, globalIndex n,
                    fst (pairOutcome cfg primVtx p n))]
             else []).
Proof.
  intros Hinv. unfold process2Prong. cbv zeta.
  destruct (TESTBIT (isSelProng p) Cand2Prong && TESTBIT (isSelProng n) Cand2Prong);
    [|cbn; rewrite app_nil_r; split; [exact Hinv|reflexivity]].
  destruct (evaluate2Prong_outcome p n (statics ps) (start2Prong cfg ps))
    as [Hout Hlen]; [reflexivity|cbn; rewrite Hinv; apply le_n|].
  destruct (evaluate2Prong cfg primVtx p n (statics ps) (start2Prong cfg ps))
    as [[sv' st'] fill].
  cbn [fst snd] in Hout, Hlen. rewrite <- Hout.
  cbn [fst snd whichHypo2Prong rowTrackIndexProng2 andb].
  split; [rewrite Hlen; exact Hinv|].
  destruct fill; [reflexivity|rewrite app_nil_r; reflexivity].
Qed.

Lemma pairs_process3Prong (t0 t1 t2 : Track) (ps : ProcessState) :
  length (whichHypo2Prong ps) = n2ProngDecays ->
  length (whichHypo2Prong (process3Prong cfg primVtx t0 t1 t2 ps)) = n2ProngDecays
  /\ rowTrackIndexProng2 (process3Prong cfg primVtx t0 t1 t2 ps)
     = rowTrackIndexProng2 ps.
Proof.
  intros Hinv. unfold process3Prong.
  destruct (evaluate3Prong _ _ _ _ _ _ _) as [[sv' st'] fill].
  split; [exact Hinv|reflexivity].
Qed.

Lemma pairs_loopPos2 (p1 n1 : Track) (after1 : list Track) (ps : ProcessState) :
  length (whichHypo2Prong ps) = n2ProngDecays ->
  length (whichHypo2Prong (loopPos2 cfg primVtx p1 n1 after1 ps)) = n2ProngDecays
  /\ rowTrackIndexProng2 (loopPos2 cfg primVtx p1 n1 after1 ps)
     = rowTrackIndexProng2 ps.
Proof.
  intros Hinv. unfold loopPos2.
  destruct (for_each_flat_map
              (fun s => length (whichHypo2Prong s) = n2ProngDecays)
              rowTrackIndexProng2 (fun _ => [])
              (fun trackPos2 (_ : list Track) ps =>
                 if ltb (signed1Pt trackPos2) 0 then ps
                 else if negb (TESTBIT (isSelProng trackPos2) Cand3Prong) then ps
                 else process3Prong cfg primVtx p1 n1 trackPos2 ps)
              after1) with (s := ps) as [Hinv' Hrows]; [|exact Hinv|].
  - intros row after s Hs.
    destruct (ltb (signed1Pt row) 0);
      [rewrite app_nil_r; split; [exact Hs|reflexivity]|].
    destruct (negb (TESTBIT (isSelProng row) Cand3Prong));
      [rewrite app_nil_r; split; [exact Hs|reflexivity]|].
    rewrite app_nil_r. apply pairs_process3Prong, Hs.
  - split; [exact Hinv'|].
    rewrite Hrows, flat_map_nil, app_nil_r; reflexivity.
Qed.

Lemma pairs_loopNeg2 (p1 n1 : Track) (after1 : list Track) (ps : ProcessState) :
  length (whichHypo2Prong ps) = n2ProngDecays ->
  length (whichHypo2Prong (loopNeg2 cfg primVtx p1 n1 after1 ps)) = n2ProngDecays
  /\ rowTrackIndexProng2 (loopNeg2 cfg primVtx p1 n1 after1 ps)
     = rowTrackIndexProng2 ps.
Proof.
  intros Hinv. unfold loopNeg2.
  destruct (for_each_flat_map
              (fun s => length (whichHypo2Prong s) = n2ProngDecays)
              rowTrackIndexProng2 (fun _ => [])
              (fun trackNeg2 (_ : list Track) ps =>
                 if gtb (signed1Pt trackNeg2) 0 then ps
                 else if negb (TESTBIT (isSelProng trackNeg2) Cand3Prong) then ps
                 else process3Prong cfg primVtx n1 p1 trackNeg2 ps)
              after1) with (s := ps) as [Hinv' Hrows]; [|exact Hinv|].
  - intros row after s Hs.
    destruct (gtb (signed1Pt row) 0);
      [rewrite app_nil_r; split; [exact Hs|reflexivity]|].
    destruct (negb (TESTBIT (isSelProng row) Cand3Prong));
      [rewrite app_nil_r; split; [exact Hs|reflexivity]|].
    rewrite app_nil_r. apply pairs_process3Prong, Hs.
  - split; [exact Hinv'|].
    rewrite Hrows, flat_map_nil, app_nil_r; reflexivity.
Qed.

Lemma pairs_loopNeg1 (tracks : list Track) (p1 : Track) (after1 : list Track)
    (ps : ProcessState) :
  ltb (signed1Pt p1) 0 = false ->
  length (whichHypo2Prong ps) = n2ProngDecays ->
  length (whichHypo2Prong (loopNeg1 cfg primVtx tracks p1 after1 ps))
  = n2ProngDecays
  /\ rowTrackIndexProng2 (loopNeg1 cfg primVtx tracks p1 after1 ps)
     = rowTrackIndexProng2 ps
         ++ flat_map
              (fun n1 =>
                 if pairEligible p1 n1 && snd (pairOutcome cfg primVtx p1 n1)
                 then [(globalIndex p1, globalIndex n1,
                        fst (pairOutcome cfg primVtx p1 n1))]
                 else [])
              tracks.
Proof.
  intros Hpos Hinv. unfold loopNeg1. cbv zeta.
  apply (for_each_flat_map
           (fun s => length (whichHypo2Prong s) = n2ProngDecays)
           rowTrackIndexProng2); [|exact Hinv].
  intros n1 afterN s Hs. unfold pairEligible. rewrite Hpos. cbn [negb andb].
  destruct (gtb (signed1Pt n1) 0);
    [cbn [negb andb]; rewrite app_nil_r; split; [exact Hs|reflexivity]|].
  cbn [negb andb].
  destruct (TESTBIT (isSelProng n1) Cand2Prong) eqn:E2n.
  - cbn [negb andb].
    destruct (pairs_process2Prong p1 n1 s Hs) as [Hinv2 Hrows2].
    rewrite E2n in Hrows2.
    assert (Hgoal :
              length (whichHypo2Prong (process2Prong cfg primVtx p1 n1 s))
              = n2ProngDecays
              /\ rowTrackIndexProng2 (process2Prong cfg primVtx p1 n1 s)
                 = rowTrackIndexProng2 s
                     ++ (if TESTBIT (isSelProng p1) Cand2Prong && true
                            && snd (pairOutcome cfg primVtx p1 n1)
                         then [(globalIndex p1, globalIndex n1,
                                fst (pairOutcome cfg primVtx p1 n1))]
                         else []))
      by (split; assumption).
    destruct (do3prong cfg =? 1); [|exact Hgoal].
    destruct (negb (TESTBIT (isSelProng p1) Cand3Prong)
              || negb (TESTBIT (isSelProng n1) Cand3Prong)); [exact Hgoal|].
    destruct (length tracks <? 2)%nat; [exact Hgoal|].
    destruct (pairs_loopPos2 p1 n1 after1 _ Hinv2) as [HinvP HrowsP].
    destruct (pairs_loopNeg2 p1 n1 afterN _ HinvP) as [HinvN HrowsN].
    split; [exact HinvN|]. rewrite HrowsN, HrowsP. exact Hrows2.
  - rewrite andb_false_r. cbn [negb andb].
    destruct (TESTBIT (isSelProng n1) Cand3Prong) eqn:E3n;
      [|cbn [negb]; rewrite app_nil_r; split; [exact Hs|reflexivity]].
    cbn [negb].
    destruct (pairs_process2Prong p1 n1 s Hs) as [Hinv2 Hrows2].
    rewrite E2n, andb_false_r in Hrows2. cbn [andb] in Hrows2.
    rewrite app_nil_r in Hrows2.
    rewrite app_nil_r.
    destruct (do3prong cfg =? 1); [|split; assumption].
    destruct (negb (TESTBIT (isSelProng p1) Cand3Prong) || false);
      [split; assumption|].
    destruct (length tracks <? 2)%nat; [split; assumption|].
    destruct (pairs_loopPos2 p1 n1 after1 _ Hinv2) as [HinvP HrowsP].
    destruct (pairs_loopNeg2 p1 n1 afterN _ HinvP) as [HinvN HrowsN].
    split; [exact HinvN|]. rewrite HrowsN, HrowsP. exact Hrows2.
Qed.

Lemma pairs_process (tracks : list Track) (ps : ProcessState) :
  length (whichHypo2Prong ps) = n2ProngDecays ->
  rowTrackIndexProng2 (process cfg primVtx tracks ps)
  = rowTrackIndexProng2 ps ++ pairRows cfg primVtx tracks.
Proof.
  intros Hinv. unfold process, pairRows.
  apply (for_each_flat_map
           (fun s => length (whichHypo2Prong s) = n2ProngDecays)
           rowTrackIndexProng2); [|exact Hinv].
  intros p1 after1 s Hs.
  destruct (ltb (signed1Pt p1) 0) eqn:Hpos.
  - rewrite flat_map_nil, app_nil_r; [split; [exact Hs|reflexivity]|].
    intros n1. unfold pairEligible. rewrite Hpos. reflexivity.
  - destruct (negb (TESTBIT (isSelProng p1) Cand2Prong)
              && negb (TESTBIT (isSelProng p1) Cand3Prong)) eqn:Hsel.
    + rewrite flat_map_nil, app_nil_r; [split; [exact Hs|reflexivity]|].
      intros n1. unfold pairEligible.
      apply andb_true_iff in Hsel as [Hsel _].
      apply negb_true_iff in Hsel. rewrite Hsel, andb_false_r. reflexivity.
    + apply pairs_loopNeg1; assumption.
Qed.

(** What the outcome of a pair is, cut by cut. *)
Lemma pairOutcome_spec (p n : Track) :
  let mask := fst (pairOutcome cfg primVtx p n) in
  let fill := snd (pairOutcome cfg primVtx p n) in
  (fill = true
   <-> 0 < nVertices (df2_process p n)
       /\ exists i : nat,
            (i < n2ProngDecays)%nat /\ pairKeeps cfg primVtx p n i = true)
  /\ (fill = true ->
      0 < mask < BIT (Z.of_nat n2ProngDecays)
      /\ forall i : nat,
           (i < n2ProngDecays)%nat ->
           TESTBIT mask (Z.of_nat i) = pairKeeps cfg primVtx p n i).
Proof.
  cbv zeta. unfold pairOutcome, pairKeeps, evaluate2Prong. cbv zeta.
  set (st0 := freshState n2ProngDecays nCuts2Prong [0; 0; 0]).
  assert (Hpre : forall i : nat, (i < n2ProngDecays)%nat ->
            TESTBIT (isSelected (snd (preselected cfg (Cand2 p n) noStatics st0)))
                    (Z.of_nat i)
            = passesPre cfg (Cand2 p n) i).
  { intros i Hi. rewrite bit_preselected by (try exact Hwf; exact Hi).
    unfold st0, freshState. cbn [isSelected].
    rewrite TESTBIT_allset by exact Hi. reflexivity. }
  pose proof (csc_preselected cfg (Cand2 p n) noStatics st0) as Hcsc.
  cbn [preselected] in Hpre, Hcsc.
  destruct (is2ProngPreselected cfg p n noStatics st0) as [sv1 st1].
  cbn [snd] in Hpre, Hcsc.
  assert (Hrange1 : 0 <= isSelected st1 < BIT (Z.of_nat n2ProngDecays))
    by (apply mask_range; exact Hcsc).
  destruct (Z.gtb_spec (isSelected st1) 0) as [Hpos1|Hzero1]; cbn [andb].
  - destruct (Z.gtb_spec (nVertices (df2_process p n)) 0) as [Hfit|Hfit].
    + match goal with
      | |- context [is2ProngSelected cfg ?pv ?sx ?vx sv1 st1] =>
          assert (Hpost : forall i : nat, (i < n2ProngDecays)%nat ->
                    TESTBIT (isSelected
                               (snd (selected cfg (Cand2 p n) pv sx vx sv1 st1)))
                            (Z.of_nat i)
                    = passesPre cfg (Cand2 p n) i
                      && passesPost cfg (Cand2 p n) pv sx vx i)
            by (intros i Hi;
                rewrite bit_selected by (try exact Hwf; try exact Hi; lia);
                rewrite Hpre by exact Hi; reflexivity);
          pose proof (csc_selected cfg (Cand2 p n) pv sx vx sv1 st1) as Hcsc2;
          cbn [selected] in Hpost, Hcsc2;
          destruct (is2ProngSelected cfg pv sx vx sv1 st1) as [sv2 st2]
      end.
      cbn [fst snd] in *.
      assert (Hrange2 : 0 <= isSelected st2 < BIT (Z.of_nat n2ProngDecays)).
      { apply mask_range. eapply csc_trans; eassumption. }
      pose proof (mask_positive_iff n2ProngDecays (isSelected st2) Hrange2)
        as Hiff.
      split.
      * rewrite Z.gtb_ltb, Z.ltb_lt, Hiff. split.
        -- intros (i & Hi & Hbit). split; [lia|]. exists i.
           split; [exact Hi|]. rewrite <- Hpost by exact Hi. exact Hbit.
        -- intros (_ & i & Hi & Hk). exists i. split; [exact Hi|].
           rewrite Hpost by exact Hi. exact Hk.
      * rewrite Z.gtb_ltb, Z.ltb_lt. intros Hpos2.
        split; [lia|]. intros i Hi. apply Hpost, Hi.
    + cbn [fst snd]. split; [|discriminate].
      split; [discriminate|]. intros [Hfit' _]. lia.
  - cbn [fst snd]. split; [|discriminate].
    split; [discriminate|]. intros (_ & i & Hi & Hk).
    apply andb_true_iff in Hk as [Hk _]. rewrite <- Hpre in Hk by exact Hi.
    assert (Hz : isSelected st1 = 0) by lia.
    rewrite Hz, TESTBIT_zero in Hk. discriminate.
Qed.

End PairRows.


(* ===================================================================== *)
(** * The 3-prong table, row by row *)
(* ===================================================================== *)

Lemma for_each_flat_map_after {S X : Type} (Inv : S -> Prop)
    (proj : S -> list X) (f : Track -> list Track -> list X)
    (body : Track -> list Track -> S -> S) (rows : list Track) :
  (forall row after s,
      Inv s ->
      Inv (body row after s)
      /\ proj (body row after s) = proj s ++ f row after) ->
  forall s, Inv s ->
    Inv (for_each body rows s)
    /\ proj (for_each body rows s) = proj s ++ flat_map_after f rows.
Proof.
  intros Hbody. induction rows as [|row after IH]; intros s Hs.
  - cbn. rewrite app_nil_r. split; [assumption|reflexivity].
  - cbn [for_each flat_map_after].
    destruct (Hbody row after s Hs) as [Hinv Hproj].
    destruct (IH _ Hinv) as [Hinv' Hproj'].
    split; [assumption|]. rewrite Hproj', Hproj, <- app_assoc. reflexivity.
Qed.

Lemma flat_map_after_nil {A B : Type} (f : A -> list A -> list B) (l : list A) :
  (forall a after, f a after = []) -> flat_map_after f l = [].
Proof.
  intros Hf. induction l as [|a l IH]; [reflexivity|].
  cbn. rewrite Hf, IH. reflexivity.
Qed.

Section TripleRows.

Context {RD : RecoDecay} {DF : DCAFitter}.
Variable cfg : Config.
Variable primVtx : array3.
Hypothesis Hwf : wf_config cfg.

Lemma n3ProngBit_nonneg : 0 <= n3ProngBit.
Proof. vm_compute. congruence. Qed.

(** The outcome of a triple in [process] is its outcome evaluated on its
    own, whatever the earlier candidates left behind. *)
Lemma evaluate3Prong_outcome (t0 t1 t2 : Track) (sv : Statics)
    (st0 : CandState) :
  isSelected st0 = n3ProngBit ->
  (n3ProngDecays <= length (whichHypo st0))%nat ->
  let r := evaluate3Prong cfg primVtx t0 t1 t2 sv st0 in
  (isSelected (snd (fst r)), snd r) = tripleOutcome cfg primVtx t0 t1 t2
  /\ length (whichHypo (snd (fst r))) = length (whichHypo st0).
Proof.
  intros Hsel Hlen. cbv zeta. unfold tripleOutcome, evaluate3Prong.
  pose proof (isSelected_preselected_indep cfg Hwf (Cand3 t0 t1 t2) sv noStatics
                st0 (freshState n3ProngDecays nCuts3Prong [0; 0; 0; 0]) Hsel Hlen
                (le_n _)) as Hpre.
  pose proof (length_whichHypo_preselected cfg Hwf (Cand3 t0 t1 t2) sv st0)
    as Hlpre.
  pose proof (csc_preselected cfg (Cand3 t0 t1 t2) sv st0) as Hcsc.
  cbn [preselected] in Hpre, Hlpre, Hcsc.
  destruct (is3ProngPreselected cfg t0 t1 t2 sv st0) as [sv1 st1].
  destruct (is3ProngPreselected cfg t0 t1 t2 noStatics
              (freshState n3ProngDecays nCuts3Prong [0; 0; 0; 0]))
    as [sv1' st1'].
  cbn [snd] in Hpre, Hlpre, Hcsc. rewrite <- Hpre.
  destruct (negb (debug cfg) && (isSelected st1 =? 0));
    [cbn [fst snd]; rewrite Hpre; split; [reflexivity|exact Hlpre]|].
  destruct (nVertices (df3_process t0 t1 t2) =? 0);
    [cbn [fst snd]; rewrite Hpre; split; [reflexivity|exact Hlpre]|].
  assert (Hnn : 0 <= isSelected st1).
  { eapply csc_nonneg; [|exact Hcsc]. rewrite Hsel. apply n3ProngBit_nonneg. }
  match goal with
  | |- context [is3ProngSelected cfg ?pv ?sx ?vx sv1 st1] =>
      pose proof (isSelected_selected_indep cfg Hwf (Cand3 t0 t1 t2) pv sx vx
                    sv1 sv1' st1 st1' Hpre Hnn) as Hpost;
      pose proof (whichHypo_selected cfg Hwf (Cand3 t0 t1 t2) pv sx vx sv1 st1)
        as Hwpost;
      cbn [selected] in Hpost, Hwpost;
      destruct (is3ProngSelected cfg pv sx vx sv1 st1) as [sv2 st2];
      destruct (is3ProngSelected cfg pv sx vx sv1' st1') as [sv2' st2']
  end.
  cbn [fst snd] in *. rewrite <- Hpost.
  destruct (negb (debug cfg) && (isSelected st2 =? 0)); cbn [fst snd];
    rewrite Hpost, Hwpost; (split; [reflexivity|exact Hlpre]).
Qed.

Lemma triples_process3Prong (t0 t1 t2 : Track) (ps : ProcessState) :
  length (whichHypo3Prong ps) = n3ProngDecays ->
  length (whichHypo3Prong (process3Prong cfg primVtx t0 t1 t2 ps))
  = n3ProngDecays
  /\ rowTrackIndexProng3 (process3Prong cfg primVtx t0 t1 t2 ps)
     = rowTrackIndexProng3 ps ++ tripleRow cfg primVtx t0 t1 t2.
Proof.
  intros Hinv. unfold process3Prong, tripleRow.
  destruct (evaluate3Prong_outcome t0 t1 t2 (statics ps) (start3Prong cfg ps))
    as [Hout Hlen]; [reflexivity|cbn; rewrite Hinv; apply le_n|].
  destruct (evaluate3Prong cfg primVtx t0 t1 t2 (statics ps) (start3Prong cfg ps))
    as [[sv' st'] fill].
  cbn [fst snd] in Hout, Hlen. rewrite <- Hout.
  cbn [fst snd whichHypo3Prong rowTrackIndexProng3].
  split; [rewrite Hlen; exact Hinv|].
  destruct fill; [reflexivity|rewrite app_nil_r; reflexivity].
Qed.

Lemma triples_process2Prong (p n : Track) (ps : ProcessState) :
  length (whichHypo3Prong ps) = n3ProngDecays ->
  length (whichHypo3Prong (process2Prong cfg primVtx p n ps)) = n3ProngDecays
  /\ rowTrackIndexProng3 (process2Prong cfg primVtx p n ps)
     = rowTrackIndexProng3 ps.
Proof.
  intros Hinv. unfold process2Prong. cbv zeta.
  destruct (TESTBIT (isSelProng p) Cand2Prong && TESTBIT (isSelProng n) Cand2Prong);
    [|split; [exact Hinv|reflexivity]].
  destruct (evaluate2Prong _ _ _ _ _ _) as [[sv' st'] fill].
  split; [exact Hinv|reflexivity].
Qed.

Lemma triples_loopPos2 (p1 n1 : Track) (after1 : list Track) (ps : ProcessState) :
  length (whichHypo3Prong ps) = n3ProngDecays ->
  length (whichHypo3Prong (loopPos2 cfg primVtx p1 n1 after1 ps)) = n3ProngDecays
  /\ rowTrackIndexProng3 (loopPos2 cfg primVtx p1 n1 after1 ps)
     = rowTrackIndexProng3 ps
         ++ flat_map (fun p2 => if positive3 p2
                                then tripleRow cfg primVtx p1 n1 p2 else [])
                     after1.
Proof.
  intros Hinv. unfold loopPos2.
  apply (for_each_flat_map
           (fun s => length (whichHypo3Prong s) = n3ProngDecays)
           rowTrackIndexProng3); [|exact Hinv].
  intros p2 after s Hs. unfold positive3.
  destruct (ltb (signed1Pt p2) 0);
    [cbn [negb andb]; rewrite app_nil_r; split; [exact Hs|reflexivity]|].
  destruct (TESTBIT (isSelProng p2) Cand3Prong);
    [|cbn [negb andb]; rewrite app_nil_r; split; [exact Hs|reflexivity]].
  cbn [negb andb]. apply triples_process3Prong, Hs.
Qed.

Lemma triples_loopNeg2 (p1 n1 : Track) (after1 : list Track) (ps : ProcessState) :
  length (whichHypo3Prong ps) = n3ProngDecays ->
  length (whichHypo3Prong (loopNeg2 cfg primVtx p1 n1 after1 ps)) = n3ProngDecays
  /\ rowTrackIndexProng3 (loopNeg2 cfg primVtx p1 n1 after1 ps)
     = rowTrackIndexProng3 ps
         ++ flat_map (fun n2 => if negative3 n2
                                then tripleRow cfg primVtx n1 p1 n2 else [])
                     after1.
Proof.
  intros Hinv. unfold loopNeg2.
  apply (for_each_flat_map
           (fun s => length (whichHypo3Prong s) = n3ProngDecays)
           rowTrackIndexProng3); [|exact Hinv].
  intros n2 after s Hs. unfold negative3.
  destruct (gtb (signed1Pt n2) 0);
    [cbn [negb andb]; rewrite app_nil_r; split; [exact Hs|reflexivity]|].
  destruct (TESTBIT (isSelProng n2) Cand3Prong);
    [|cbn [negb andb]; rewrite app_nil_r; split; [exact Hs|reflexivity]].
  cbn [negb andb]. apply triples_process3Prong, Hs.
Qed.

Lemma triples_loopNeg1 (tracks : list Track) (p1 : Track) (after1 : list Track)
    (ps : ProcessState) :
  ltb (signed1Pt p1) 0 = false ->
  length (whichHypo3Prong ps) = n3ProngDecays ->
  length (whichHypo3Prong (loopNeg1 cfg primVtx tracks p1 after1 ps))
  = n3ProngDecays
  /\ rowTrackIndexProng3 (loopNeg1 cfg primVtx tracks p1 after1 ps)
     = rowTrackIndexProng3 ps
         ++ flat_map_after
              (fun n1 afterN =>
                 if positive3 p1 && negative3 n1
                    && (do3prong cfg =? 1) && negb (length tracks <? 2)%nat
                 then
                   flat_map (fun p2 => if positive3 p2
                                       then tripleRow cfg primVtx p1 n1 p2
                                       else [])
                            after1
                   ++ flat_map (fun n2 => if negative3 n2
                                          then tripleRow cfg primVtx n1 p1 n2
                                          else [])
                               afterN
                 else [])
              tracks.
Proof.
  intros Hpos Hinv. unfold loopNeg1. cbv zeta.
  apply (for_each_flat_map_after
           (fun s => length (whichHypo3Prong s) = n3ProngDecays)
           rowTrackIndexProng3); [|exact Hinv].
  intros n1 afterN s Hs. unfold positive3 at 1, negative3 at 1.
  rewrite Hpos. cbn [negb andb].
  destruct (gtb (signed1Pt n1) 0);
    [cbn [negb andb]; rewrite andb_false_r, app_nil_r;
     split; [exact Hs|reflexivity]|].
  cbn [negb andb].
  destruct (TESTBIT (isSelProng n1) Cand3Prong) eqn:E3n.
  - rewrite andb_false_r. cbn [negb andb orb].
    destruct (triples_process2Prong p1 n1 s Hs) as [Hinv2 Hrows2].
    rewrite andb_true_r.
    destruct (do3prong cfg =? 1);
      [|rewrite andb_false_r; cbn [andb]; rewrite app_nil_r;
        split; assumption].
    rewrite andb_true_r, orb_false_r.
    destruct (TESTBIT (isSelProng p1) Cand3Prong);
      [|cbn [negb andb]; rewrite app_nil_r; split; assumption].
    cbn [negb andb].
    destruct (length tracks <? 2)%nat;
      [cbn [negb]; rewrite app_nil_r; split; assumption|].
    cbn [negb].
    destruct (triples_loopPos2 p1 n1 after1 _ Hinv2) as [HinvP HrowsP].
    destruct (triples_loopNeg2 p1 n1 afterN _ HinvP) as [HinvN HrowsN].
    split; [exact HinvN|].
    rewrite HrowsN, HrowsP, Hrows2, <- app_assoc. reflexivity.
  - rewrite !andb_false_r. cbn [andb]. rewrite app_nil_r.
    destruct (negb (TESTBIT (isSelProng n1) Cand2Prong) && negb false);
      [split; [exact Hs|reflexivity]|].
    destruct (triples_process2Prong p1 n1 s Hs) as [Hinv2 Hrows2].
    destruct (do3prong cfg =? 1); [|split; assumption].
    rewrite orb_true_r. split; assumption.
Qed.

Lemma triples_process (tracks : list Track) (ps : ProcessState) :
  length (whichHypo3Prong ps) = n3ProngDecays ->
  rowTrackIndexProng3 (process cfg primVtx tracks ps)
  = rowTrackIndexProng3 ps ++ tripleRows cfg primVtx tracks.
Proof.
  intros Hinv. unfold process, tripleRows.
  apply (for_each_flat_map_after
           (fun s => length (whichHypo3Prong s) = n3ProngDecays)
           rowTrackIndexProng3); [|exact Hinv].
  intros p1 after1 s Hs.
  destruct (ltb (signed1Pt p1) 0) eqn:Hpos.
  - rewrite flat_map_after_nil, app_nil_r; [split; [exact Hs|reflexivity]|].
    intros n1 afterN. unfold positive3. rewrite Hpos. reflexivity.
  - destruct (negb (TESTBIT (isSelProng p1) Cand2Prong)
              && negb (TESTBIT (isSelProng p1) Cand3Prong)) eqn:Hsel.
    + rewrite flat_map_after_nil, app_nil_r; [split; [exact Hs|reflexivity]|].
      intros n1 afterN. unfold positive3.
      apply andb_true_iff in Hsel as [_ Hsel].
      apply negb_true_iff in Hsel. rewrite Hsel, andb_false_r. reflexivity.
    + apply triples_loopNeg1; assumption.
Qed.

(** What the outcome of a triple is, cut by cut. *)
Lemma tripleOutcome_spec (t0 t1 t2 : Track) :
  let mask := fst (tripleOutcome cfg primVtx t0 t1 t2) in
  let fill := snd (tripleOutcome cfg primVtx t0 t1 t2) in
  (fill = true
   <-> nVertices (df3_process t0 t1 t2) <> 0
       /\ (debug cfg = true
           \/ exists i : nat,
                (i < n3ProngDecays)%nat
                /\ tripleKeeps cfg primVtx t0 t1 t2 i = true))
  /\ (fill = true ->
      0 <= mask < BIT (Z.of_nat n3ProngDecays)
      /\ (debug cfg = false -> 0 < mask)
      /\ forall i : nat,
           (i < n3ProngDecays)%nat ->
           TESTBIT mask (Z.of_nat i) = tripleKeeps cfg primVtx t0 t1 t2 i).
Proof.
  cbv zeta. unfold tripleOutcome, tripleKeeps, evaluate3Prong. cbv zeta.
  set (st0 := freshState n3ProngDecays nCuts3Prong [0; 0; 0; 0]).
  assert (Hpre : forall i : nat, (i < n3ProngDecays)%nat ->
            TESTBIT (isSelected
                       (snd (preselected cfg (Cand3 t0 t1 t2) noStatics st0)))
                    (Z.of_nat i)
            = passesPre cfg (Cand3 t0 t1 t2) i).
  { intros i Hi. rewrite bit_preselected by (try exact Hwf; exact Hi).
    unfold st0, freshState. cbn [isSelected].
    rewrite TESTBIT_allset by exact Hi. reflexivity. }
  pose proof (csc_preselected cfg (Cand3 t0 t1 t2) noStatics st0) as Hcsc.
  cbn [preselected] in Hpre, Hcsc.
  destruct (is3ProngPreselected cfg t0 t1 t2 noStatics st0) as [sv1 st1].
  cbn [snd] in Hpre, Hcsc.
  assert (Hrange1 : 0 <= isSelected st1 < BIT (Z.of_nat n3ProngDecays))
    by (apply mask_range; exact Hcsc).
  assert (Hnokeep : isSelected st1 = 0 ->
            forall i : nat, (i < n3ProngDecays)%nat ->
            passesPre cfg (Cand3 t0 t1 t2) i = false).
  { intros Hz i Hi. rewrite <- Hpre, Hz by exact Hi. apply TESTBIT_zero. }
  destruct (debug cfg) eqn:Hdbg; cbn [negb andb].
  - destruct (Z.eqb_spec (nVertices (df3_process t0 t1 t2)) 0) as [Hfit|Hfit].
    + cbn [fst snd]. split; [|discriminate].
      split; [discriminate|]. intros [Hfit' _]. contradiction.
    + match goal with
      | |- context [is3ProngSelected cfg ?pv ?sx ?vx sv1 st1] =>
          assert (Hpost : forall i : nat, (i < n3ProngDecays)%nat ->
                    TESTBIT (isSelected
                               (snd (selected cfg (Cand3 t0 t1 t2) pv sx vx
                                       sv1 st1)))
                            (Z.of_nat i)
                    = passesPre cfg (Cand3 t0 t1 t2) i
                      && passesPost cfg (Cand3 t0 t1 t2) pv sx vx i)
            by (intros i Hi;
                rewrite bit_selected by (try exact Hwf; try exact Hi; lia);
                rewrite Hpre by exact Hi; reflexivity);
          pose proof (csc_selected cfg (Cand3 t0 t1 t2) pv sx vx sv1 st1)
            as Hcsc2;
          cbn [selected] in Hpost, Hcsc2;
          destruct (is3ProngSelected cfg pv sx vx sv1 st1) as [sv2 st2]
      end.
      cbn [fst snd] in *.
      assert (Hrange2 : 0 <= isSelected st2 < BIT (Z.of_nat n3ProngDecays)).
      { apply mask_range. eapply csc_trans; eassumption. }
      split.
      * split; [intros _; split; [exact Hfit|left; reflexivity]|reflexivity].
      * intros _. split; [exact Hrange2|]. split; [discriminate|].
        intros i Hi. apply Hpost, Hi.
  - destruct (Z.eqb_spec (isSelected st1) 0) as [Hzero1|Hpos1].
    + cbn [fst snd]. split; [|discriminate].
      split; [discriminate|]. intros (_ & [Hd|(i & Hi & Hk)]); [discriminate|].
      apply andb_true_iff in Hk as [Hk _].
      rewrite (Hnokeep Hzero1 i Hi) in Hk. discriminate.
    + destruct (Z.eqb_spec (nVertices (df3_process t0 t1 t2)) 0) as [Hfit|Hfit].
      * cbn [fst snd]. split; [|discriminate].
        split; [discriminate|]. intros [Hfit' _]. contradiction.
      * match goal with
        | |- context [is3ProngSelected cfg ?pv ?sx ?vx sv1 st1] =>
            assert (Hpost : forall i : nat, (i < n3ProngDecays)%nat ->
                      TESTBIT (isSelected
                                 (snd (selected cfg (Cand3 t0 t1 t2) pv sx vx
                                         sv1 st1)))
                              (Z.of_nat i)
                      = passesPre cfg (Cand3 t0 t1 t2) i
                        && passesPost cfg (Cand3 t0 t1 t2) pv sx vx i)
              by (intros i Hi;
                  rewrite bit_selected by (try exact Hwf; try exact Hi; lia);
                  rewrite Hpre by exact Hi; reflexivity);
            pose proof (csc_selected cfg (Cand3 t0 t1 t2) pv sx vx sv1 st1)
              as Hcsc2;
            cbn [selected] in Hpost, Hcsc2;
            destruct (is3ProngSelected cfg pv sx vx sv1 st1) as [sv2 st2]
        end.
        cbn [fst snd] in *.
        assert (Hrange2 : 0 <= isSelected st2 < BIT (Z.of_nat n3ProngDecays)).
        { apply mask_range. eapply csc_trans; eassumption. }
        pose proof (mask_positive_iff n3ProngDecays (isSelected st2) Hrange2)
          as Hiff.
        destruct (Z.eqb_spec (isSelected st2) 0) as [Hzero2|Hpos2];
          cbn [fst snd].
        -- split; [|discriminate]. split; [discriminate|].
           intros (_ & [Hd|(i & Hi & Hk)]); [discriminate|].
           rewrite <- Hpost, Hzero2, TESTBIT_zero in Hk by exact Hi.
           discriminate.
        -- assert (Hpos : 0 < isSelected st2) by lia.
           split.
           ++ split; [|reflexivity]. intros _. split; [exact Hfit|]. right.
              apply Hiff in Hpos as (i & Hi & Hbit). exists i.
              split; [exact Hi|]. rewrite <- Hpost by exact Hi. exact Hbit.
           ++ intros _. split; [exact Hrange2|]. split; [intros _; exact Hpos|].
              intros i Hi. apply Hpost, Hi.
Qed.

End TripleRows.


(* ===================================================================== *)
(** * The statements above at concrete inputs *)
(* ===================================================================== *)

Lemma track_kept_iff_witness :
  TESTBIT (fst (@HfTagSelTracks.selectTrack run2Flags (selTracksDefaults true)
                  forwardTrack [])) Cand2Prong = true.
Proof.
  apply (@track_kept_iff run2Flags (selTracksDefaults true) forwardTrack []
           Cand2Prong).
  - vm_compute. split; congruence.
  - split; [vm_compute; congruence|].
    split; [vm_compute; congruence|].
    split; [intros _; vm_compute; reflexivity|].
    cbv zeta. split; [vm_compute; congruence|].
    split; vm_compute; congruence.
Defined.

Lemma hRejTracks_counts_witness :
  rejTracks CandV0bachelor 3
    (snd (@HfTagSelTracks.selectTrack run2Flags (selTracksDefaults true)
            forwardTrack [])) = 1%nat
  /\ rejTracks CandV0bachelor 3
       (snd (@HfTagSelTracks.selectTrack run2Flags (selTracksDefaults false)
               forwardTrack [])) = 0%nat.
Proof.
  split.
  - destruct (@hRejTracks_counts run2Flags (selTracksDefaults true) forwardTrack []
                CandV0bachelor) as (_ & _ & H3 & _).
    + vm_compute. split; congruence.
    + rewrite H3. vm_compute. reflexivity.
  - destruct (@hRejTracks_counts run2Flags (selTracksDefaults false) forwardTrack []
                CandV0bachelor) as (_ & _ & H3 & _).
    + vm_compute. split; congruence.
    + rewrite H3. vm_compute. reflexivity.
Defined.


Lemma selected_decay_has_a_mass_ordering_witness :
  1 <= whichHypo
         (snd (@preselected rdA (cfgA false) (Cand2 trackA trackB) noStatics
                 (freshState n2ProngDecays nCuts2Prong [0; 0; 0]))) !!! 0%nat
    <= 3.
Proof.
  destruct (@selected_decay_has_a_mass_ordering rdA (cfgA false)
              (Cand2 trackA trackB) (1, 1, 0)%Q origin origin noStatics noStatics
              (freshState n2ProngDecays nCuts2Prong [0; 0; 0]) 0%nat)
    as [Hpre _].
  - split; reflexivity.
  - vm_compute. lia.
  - vm_compute. lia.
  - apply Hpre. vm_compute. reflexivity.
Defined.


